(** * Insurance dashboard: metric derivation, benchmark classification,
      validation scoring, cache and request de-duplication.

    Shallow embedding of the data-transformation core of the dashboard
    (services/financialDataService.js, services/enhancedDataService.js,
    services/dataValidationService.js and the industry benchmark service)
    together with the properties checked against it.

    Conventions of the embedding.
    - A finite JavaScript number is an exact rational ([Q]); the three
      non-finite doubles are separate constructors of [jsnum].  Rounding
      error of binary64 arithmetic is not modelled.
    - [Math.round x] is [Qfloor (x + 1/2)] (ties go toward plus infinity).
    - [Math.random ()] and [Date.now ()] are explicit arguments.
    - A settled promise is a value of [settled]; code that can throw returns
      a [completion]. *)

From Stdlib Require Import ZArith QArith Qround Qabs Qminmax Lia Lqa.
From Stdlib Require Import String List Bool.
From stdpp Require Import gmap strings.

Local Open Scope string_scope.
Set Warnings "-register-all".

(* ===================================================================== *)
(** ** JavaScript values                                                  *)
(* ===================================================================== *)

Module Js.

(** Numbers: finite doubles are rationals. *)
Inductive jsnum : Type :=
| Fin (q : Q)
| PosInf
| NegInf
| NaN.

(** The values the modelled functions inspect.  An object is a list of
    own properties in insertion order. *)
Inductive jsval : Type :=
| JUndefined
| JNull
| JBool (b : bool)
| JNum (n : jsnum)
| JStr (s : string)
| JObj (props : list (string * jsval)).

Definition num (q : Q) : jsval := JNum (Fin q).

(** [typeof v === 'number'] *)
Definition is_number (v : jsval) : bool :=
  match v with JNum _ => true | _ => false end.

(** ToBoolean *)
Definition truthy (v : jsval) : bool :=
  match v with
  | JUndefined | JNull => false
  | JBool b => b
  | JNum (Fin q) => negb (Qeq_bool q 0)
  | JNum NaN => false
  | JNum _ => true
  | JStr s => negb (String.eqb s "")
  | JObj _ => true
  end.

(** [a >= b], [a <= b], [a > b], [a < b] for a number against a finite
    literal; every comparison with NaN is false. *)
Definition Qgtb (x y : Q) : bool := negb (Qle_bool x y).
Definition Qltb (x y : Q) : bool := negb (Qle_bool y x).

Definition num_ge (a : jsnum) (b : Q) : bool :=
  match a with Fin x => Qle_bool b x | PosInf => true | _ => false end.
Definition num_le (a : jsnum) (b : Q) : bool :=
  match a with Fin x => Qle_bool x b | NegInf => true | _ => false end.
Definition num_gt (a : jsnum) (b : Q) : bool :=
  match a with Fin x => Qgtb x b | PosInf => true | _ => false end.
Definition num_lt (a : jsnum) (b : Q) : bool :=
  match a with Fin x => Qltb x b | NegInf => true | _ => false end.

(** [a / b] on finite operands (the sign of a zero divisor is not
    tracked: a zero divisor is +0). *)
Definition js_div (a b : Q) : jsnum :=
  if Qeq_bool b 0 then
    if Qeq_bool a 0 then NaN
    else if Qle_bool 0 a then PosInf else NegInf
  else Fin (a / b).

(** [Math.round] *)
Definition Math_round (x : Q) : Z := Qfloor (x + (1 # 2)).

(** [Math.round(x * 10) / 10] and [Math.round(x * 100) / 100], on exact
    rationals.  In binary64 the product and the quotient are each
    rounded, so next to a tie the code's result can be one unit in the
    last place away from these. *)
Definition round1 (x : Q) : Q := inject_Z (Math_round (x * 10)) / 10.
Definition round2 (x : Q) : Q := inject_Z (Math_round (x * 100)) / 100.

Definition num_round2 (a : jsnum) : jsnum :=
  match a with Fin x => Fin (round2 x) | other => other end.

(** Own-property lookup in an object literal. *)
Fixpoint own_prop (props : list (string * jsval)) (k : string) : jsval :=
  match props with
  | nil => JUndefined
  | (k', v) :: rest => if String.eqb k' k then v else own_prop rest k
  end.

(** Property lookup in a table written as an object literal. *)
Fixpoint assoc {A : Type} (k : string) (l : list (string * A)) : option A :=
  match l with
  | nil => None
  | (k', a) :: rest => if String.eqb k' k then Some a else assoc k rest
  end.

(** Errors that are thrown: an [Error] object carrying a message, or an
    arbitrary thrown value. *)
Inductive thrown : Type :=
| ErrorObj (message : string)
| ThrownVal (v : jsval).

(** Result of evaluating code that may throw. *)
Inductive completion (A : Type) : Type :=
| Normal (a : A)
| Throw (e : thrown).
Arguments Normal {A} a.
Arguments Throw {A} e.

(** A settled promise. *)
Inductive settled (A : Type) : Type :=
| Fulfilled (a : A)
| Rejected (e : thrown).
Arguments Fulfilled {A} a.
Arguments Rejected {A} e.

(** [v.k] / [v[k]]: reading a property of null or undefined throws a
    TypeError; primitives have none of the properties read here. *)
Definition get_prop (v : jsval) (k : string) : completion jsval :=
  match v with
  | JUndefined | JNull =>
      Throw (ErrorObj ("Cannot read properties of null or undefined (reading '" ++ k ++ "')"))
  | JObj props => Normal (own_prop props k)
  | _ => Normal JUndefined
  end.

(** [v?.k] *)
Definition opt_chain (v : jsval) (k : string) : completion jsval :=
  match v with
  | JUndefined | JNull => Normal JUndefined
  | _ => get_prop v k
  end.

(** [e.message] for a caught value [e]. *)
Definition thrown_message (e : thrown) : completion jsval :=
  match e with
  | ErrorObj message => Normal (JStr message)
  | ThrownVal v => get_prop v "message"
  end.

End Js.
Import Js.

(* ===================================================================== *)
(** ** Metric Calculator (financialDataService.calculateInsuranceMetrics) *)
(* ===================================================================== *)

Module Calc.
Local Open Scope Q_scope.

(** One reporting period as received from the provider; [None] is an
    absent ([undefined]) field. *)
Record RawFinancialRecord : Type := {
  revenue : option Q;
  netIncome : option Q;
  totalAssets : option Q;
  totalStockholdersEquity : option Q;
  weightedAverageShsOut : option Q;
  sellingGeneralAndAdministrativeExpenses : option Q;
  totalDebt : option Q;
  operatingExpenses : option Q;
  investmentIncome : option Q;
  symbol : option string;
  calendarYear : option string;
  period : option string
}.

Record DerivedMetrics : Type := {
  m_revenue : Q;
  m_netIncome : Q;
  m_totalAssets : Q;
  m_totalEquity : Q;
  m_sharesOutstanding : Q;
  m_profitMargin : Q;
  m_roe : Q;
  m_roa : Q;
  m_bookValuePerShare : jsnum;
  m_tangibleBookValue : jsnum;
  m_debtToEquity : Q;
  m_expenseRatio : Q;
  m_lossRatio : Q;
  m_combinedRatio : Q;
  m_underwritingProfitMargin : Q;
  m_investmentYield : Q;
  m_floatPerShare : jsnum;
  m_reserveRatio : jsnum;
  m_year : option string;
  m_period : option string;
  m_symbol : option string
}.

(** Destructuring default [field = d]. *)
Definition dflt (o : option Q) (d : Q) : Q :=
  match o with Some x => x | None => d end.

(** [operatingExpenses = sellingGeneralAndAdministrativeExpenses] *)
Definition opex (fd : RawFinancialRecord) : Q :=
  dflt (operatingExpenses fd) (dflt (sellingGeneralAndAdministrativeExpenses fd) 0).

Definition profitMargin (fd : RawFinancialRecord) : Q :=
  let revenue := dflt (revenue fd) 0 in
  let netIncome := dflt (netIncome fd) 0 in
  if Qgtb revenue 0 then (netIncome / revenue) * 100 else 0.

Definition baseExpenseRatio (fd : RawFinancialRecord) : Q :=
  let revenue := dflt (revenue fd) 0 in
  if Qgtb revenue 0 then (opex fd / revenue) * 100 else 0.

(** [Math.min(Math.max(baseExpenseRatio, 15), 35)] *)
Definition expenseRatio (fd : RawFinancialRecord) : Q :=
  Qmin (Qmax (baseExpenseRatio fd) 15) 35.

(** The combined-ratio estimate; [rnd] is the value of the single
    [Math.random()] call the selected branch makes. *)
Definition estimatedCombinedRatio (fd : RawFinancialRecord) (rnd : Q) : Q :=
  let company := match symbol fd with Some s => s | None => "" end in
  if String.eqb company "PGR" then 92 + rnd * 6
  else if String.eqb company "TRV" then 95 + rnd * 6
  else if String.eqb company "ALL" then 96 + rnd * 8
  else if String.eqb company "CB" then 88 + rnd * 7
  else if String.eqb company "AIG" then 98 + rnd * 8
  else if Qgtb (profitMargin fd) 10 then 90 + rnd * 8
  else if Qgtb (profitMargin fd) 5 then 95 + rnd * 8
  else if Qgtb (profitMargin fd) 0 then 98 + rnd * 10
  else 105 + rnd * 15.

Definition lossRatio (fd : RawFinancialRecord) (rnd : Q) : Q :=
  Qmax 50 (estimatedCombinedRatio fd rnd - expenseRatio fd).

Definition combinedRatio (fd : RawFinancialRecord) (rnd : Q) : Q :=
  lossRatio fd rnd + expenseRatio fd.

Definition underwritingProfitMargin (fd : RawFinancialRecord) (rnd : Q) : Q :=
  100 - combinedRatio fd rnd.

Definition calculateInsuranceMetrics (fd : RawFinancialRecord) (rnd : Q)
  : DerivedMetrics :=
  let revenue := dflt (revenue fd) 0 in
  let netIncome := dflt (netIncome fd) 0 in
  let totalAssets := dflt (totalAssets fd) 0 in
  let totalStockholdersEquity := dflt (totalStockholdersEquity fd) 0 in
  let weightedAverageShsOut := dflt (weightedAverageShsOut fd) 1 in
  let totalDebt := dflt (totalDebt fd) 0 in
  let investmentIncome := dflt (investmentIncome fd) 0 in
  let roe :=
    if Qgtb totalStockholdersEquity 0
    then (netIncome / totalStockholdersEquity) * 100 else 0 in
  let roa :=
    if Qgtb totalAssets 0 then (netIncome / totalAssets) * 100 else 0 in
  let bookValuePerShare :=
    if Qgtb totalStockholdersEquity 0
    then js_div totalStockholdersEquity weightedAverageShsOut else Fin 0 in
  let debtToEquity :=
    if Qgtb totalStockholdersEquity 0
    then (totalDebt / totalStockholdersEquity) * 100 else 0 in
  let tangibleBookValue := bookValuePerShare in
  let investmentYield :=
    if Qgtb totalAssets 0
    then ((if Qeq_bool investmentIncome 0
           then netIncome * (3 # 10) else investmentIncome) / totalAssets) * 100
    else 5 # 2 in
  {| m_revenue := revenue;
     m_netIncome := netIncome;
     m_totalAssets := totalAssets;
     m_totalEquity := totalStockholdersEquity;
     m_sharesOutstanding := weightedAverageShsOut;
     m_profitMargin := round1 (profitMargin fd);
     m_roe := round1 roe;
     m_roa := round1 roa;
     m_bookValuePerShare := num_round2 bookValuePerShare;
     m_tangibleBookValue := num_round2 tangibleBookValue;
     m_debtToEquity := round1 debtToEquity;
     m_expenseRatio := round1 (expenseRatio fd);
     m_lossRatio := round1 (lossRatio fd rnd);
     m_combinedRatio := round1 (combinedRatio fd rnd);
     m_underwritingProfitMargin := round1 (underwritingProfitMargin fd rnd);
     m_investmentYield := round1 investmentYield;
     m_floatPerShare :=
       num_round2 (js_div (totalAssets * (7 # 10)) weightedAverageShsOut);
     m_reserveRatio := num_round2 (js_div (totalAssets * (6 # 10)) revenue);
     m_year := calendarYear fd;
     m_period := period fd;
     m_symbol := symbol fd |}.

(** A company outside the ticker table: revenue 10000, net income 800,
    SG&A 2004. *)
Definition sample_record : RawFinancialRecord :=
  {| revenue := Some 10000;
     netIncome := Some 800;
     totalAssets := Some 50000;
     totalStockholdersEquity := Some 12000;
     weightedAverageShsOut := Some 100;
     sellingGeneralAndAdministrativeExpenses := Some 2004;
     totalDebt := Some 3000;
     operatingExpenses := None;
     investmentIncome := None;
     symbol := Some "HIG";
     calendarYear := Some "2024";
     period := Some "FY" |}.

(** No revenue at all, and a record with negative revenue and very large
    operating expenses. *)
Definition empty_record : RawFinancialRecord :=
  {| revenue := None; netIncome := None; totalAssets := None;
     totalStockholdersEquity := None; weightedAverageShsOut := None;
     sellingGeneralAndAdministrativeExpenses := None; totalDebt := None;
     operatingExpenses := None; investmentIncome := None;
     symbol := None; calendarYear := None; period := None |}.

Definition negative_revenue_record : RawFinancialRecord :=
  {| revenue := Some (-500); netIncome := Some (-40); totalAssets := Some 1000;
     totalStockholdersEquity := Some 200; weightedAverageShsOut := Some 10;
     sellingGeneralAndAdministrativeExpenses := Some 1000000000000;
     totalDebt := None; operatingExpenses := None; investmentIncome := None;
     symbol := Some "TRV"; calendarYear := Some "2023"; period := Some "FY" |}.

(** A record of the ticker table whose ratios are binary fractions:
    revenue 100 and SG&A 25 give the expense ratio 25, and the draw 1/32
    gives the estimate 96 + 8/32 = 96.25. *)
Definition tie_record : RawFinancialRecord :=
  {| revenue := Some 100; netIncome := Some 8; totalAssets := Some 400;
     totalStockholdersEquity := Some 64; weightedAverageShsOut := Some 16;
     sellingGeneralAndAdministrativeExpenses := Some 25;
     totalDebt := None; operatingExpenses := None; investmentIncome := None;
     symbol := Some "ALL"; calendarYear := Some "2024"; period := Some "FY" |}.

End Calc.


(* ===================================================================== *)
(** ** Cache (enhancedDataService.cacheUtils)                             *)
(* ===================================================================== *)

Module Cache.
Local Open Scope Z_scope.

(** [CACHE_DURATION = 60 * 60 * 1000] *)
Definition CACHE_DURATION : Z := 60 * 60 * 1000.

Section WithValue.
Context {V : Type}.

(** The stored [{ value, expiry }]. *)
Record item : Type := { value : V; expiry : Z }.

(** [set(key, value, ttl = CACHE_DURATION)].  [now] is the clock read
    that computes the expiry, [now'] the later read made by the cleanup
    pass; the pass runs only when the map holds more than 100 entries
    and drops the entries whose expiry is strictly in the past. *)
Definition set (cache : gmap string item) (key : string) (v : V)
           (ttl : option Z) (now now' : Z) : gmap string item :=
  let ttl := match ttl with Some t => t | None => CACHE_DURATION end in
  let expires := now + ttl in
  let cache := <[key := {| value := v; expiry := expires |}]> cache in
  if 100 <? Z.of_nat (size cache) then
    filter (fun kv => ¬ (expiry (snd kv) < now')) cache
  else cache.

(** [get(key)]: the result ([None] is [null]) and the map afterwards. *)
Definition get (cache : gmap string item) (key : string) (now : Z)
  : option V * gmap string item :=
  match cache !! key with
  | None => (None, cache)
  | Some item =>
      if now >? expiry item then (None, delete key cache)
      else (Some (value item), cache)
  end.

Definition clear (cache : gmap string item) : gmap string item := ∅.
End WithValue.
Arguments item V : clear implicits.

(** An empty cache, then [set('k', 'payload', 100)] at time 0. *)
Definition sample_cache : gmap string (item string) :=
  set ∅ "k" "payload" (Some 100) 0 0.

End Cache.

(* ===================================================================== *)
(** ** Benchmark Classifier (industry benchmark service)                  *)
(* ===================================================================== *)

Module Bench.
Local Open Scope Q_scope.

(** One rating band [{ min, max, percentile }]. *)
Record band : Type := { min : Q; max : Q; percentile : Z }.

(** The band table of one metric at one size class; [entries] lists its
    properties in the order [Object.entries] enumerates them. *)
Record bands : Type := {
  excellent : band;
  good : band;
  average : band;
  poor : band;
  critical : band
}.

Definition entries (b : bands) : list (string * band) :=
  ("excellent", excellent b) :: ("good", good b) :: ("average", average b)
  :: ("poor", poor b) :: ("critical", critical b) :: nil.

Definition mk (lo hi : Q) (p : Z) : band :=
  {| min := lo; max := hi; percentile := p |}.

Definition mk5 (e g a p c : band) : bands :=
  {| excellent := e; good := g; average := a; poor := p; critical := c |}.

Definition INDUSTRY_BENCHMARKS_2024 : list (string * list (string * bands)) :=
  ("combinedRatio",
     ("large", mk5 (mk 88 95 90) (mk 95 100 75) (mk 100 105 50)
                   (mk 105 110 25) (mk 110 120 10))
  :: ("medium", mk5 (mk 90 97 90) (mk 97 102 75) (mk 102 107 50)
                    (mk 107 115 25) (mk 115 125 10))
  :: ("small", mk5 (mk 92 99 90) (mk 99 105 75) (mk 105 110 50)
                   (mk 110 118 25) (mk 118 130 10))
  :: nil)
  :: ("roe",
     ("large", mk5 (mk 15 25 90) (mk 12 15 75) (mk 8 12 50)
                   (mk 5 8 25) (mk 0 5 10))
  :: ("medium", mk5 (mk 14 22 90) (mk 11 14 75) (mk 7 11 50)
                    (mk 4 7 25) (mk (-2) 4 10))
  :: ("small", mk5 (mk 13 20 90) (mk 10 13 75) (mk 6 10 50)
                   (mk 3 6 25) (mk (-5) 3 10))
  :: nil)
  :: ("lossRatio",
     ("large", mk5 (mk 58 68 90) (mk 68 75 75) (mk 75 82 50)
                   (mk 82 90 25) (mk 90 100 10))
  :: ("medium", mk5 (mk 60 70 90) (mk 70 77 75) (mk 77 85 50)
                    (mk 85 92 25) (mk 92 105 10))
  :: ("small", mk5 (mk 62 72 90) (mk 72 80 75) (mk 80 88 50)
                   (mk 88 95 25) (mk 95 110 10))
  :: nil)
  :: nil.

(** [INDUSTRY_BENCHMARKS_2024[metric]?.[companySize]] *)
Definition benchmarks_for (metric companySize : string) : option bands :=
  match assoc metric INDUSTRY_BENCHMARKS_2024 with
  | Some sizes => assoc companySize sizes
  | None => None
  end.

(** [getCompanySize] *)
Definition getCompanySize (premiumVolume : jsval) : string :=
  if negb (truthy premiumVolume) || negb (is_number premiumVolume)
  then "medium"
  else
    match premiumVolume with
    | JNum n =>
        if num_ge n 10000 then "large"
        else if num_ge n 1000 then "medium"
        else "small"
    | _ => "medium"
    end.

(** [value >= range.min && value <= range.max] *)
Definition in_band (value : jsnum) (range : band) : bool :=
  num_ge value (min range) && num_le value (max range).

(** The [for ... of Object.entries(benchmarks)] loops: the first entry
    whose band holds the value. *)
Fixpoint first_band (value : jsnum) (es : list (string * band))
  : option (string * band) :=
  match es with
  | nil => None
  | (rating, range) :: rest =>
      if in_band value range then Some (rating, range)
      else first_band value rest
  end.

(** [['combinedRatio', 'lossRatio', 'expenseRatio'].includes(metric)] *)
Definition lowerIsBetter (metric : string) : bool :=
  String.eqb metric "combinedRatio" || String.eqb metric "lossRatio"
  || String.eqb metric "expenseRatio".

(** [calculateIndustryPercentile(metric, value, companySize = 'large')] *)
Definition calculateIndustryPercentile (metric : string) (value : jsval)
           (companySize : option string) : Z :=
  let companySize := match companySize with Some s => s | None => "large" end in
  match benchmarks_for metric companySize, value with
  | Some benchmarks, JNum v =>
      match first_band v (entries benchmarks) with
      | Some (_, range) => percentile range
      | None =>
          if lowerIsBetter metric then
            if num_lt v (min (excellent benchmarks)) then 95%Z
            else if num_gt v (max (critical benchmarks)) then 5%Z
            else 50%Z
          else
            if num_gt v (max (excellent benchmarks)) then 95%Z
            else if num_lt v (min (critical benchmarks)) then 5%Z
            else 50%Z
      end
  | _, _ => 50%Z
  end.

(** [PEER_GROUPS] and [getPeerGroup]; the group is reported by its key. *)
Definition PEER_GROUPS : list (string * list string) :=
  ("largeDiversified", "TRV" :: "ALL" :: "AIG" :: "CB" :: "HIG" :: nil)
  :: ("personalLines", "PGR" :: "GEICO" :: "USAA" :: nil)
  :: ("commercialLines", "WRB" :: "ACGL" :: "EG" :: "RLI" :: nil)
  :: ("regional", "CINF" :: "AFG" :: "KMPR" :: nil)
  :: nil.

Definition getPeerGroup (ticker : string) : string :=
  match List.find (fun g => existsb (String.eqb ticker) (snd g)) PEER_GROUPS with
  | Some g => fst g
  | None => "largeDiversified"
  end.

(** One entry of [analysis.metrics]. *)
Record metricAnalysis : Type := {
  ma_value : jsnum;
  ma_percentile : Z;
  ma_rating : string;
  ma_benchmark : bands
}.

(** An entry of [analysis.strengths] / [analysis.weaknesses] (the
    display message is left out). *)
Record quartileNote : Type := { qn_metric : string; qn_percentile : Z }.

Record analysis : Type := {
  a_ticker : string;
  a_companySize : string;
  a_peerGroup : string;
  a_metrics : list (string * metricAnalysis);
  a_overallRating : string;
  a_strengths : list quartileNote;
  a_weaknesses : list quartileNote
}.

(** The body of the [forEach] callback of [getBenchmarkAnalysis] for one
    numeric metric value. *)
Definition analyzeMetric (metricName : string) (value : jsnum)
           (companySize : string) : option metricAnalysis :=
  match benchmarks_for metricName companySize with
  | Some benchmarks =>
      let percentile :=
        calculateIndustryPercentile metricName (JNum value) (Some companySize) in
      let rating :=
        match first_band value (entries benchmarks) with
        | Some (ratingKey, _) => ratingKey
        | None => "average"
        end in
      Some {| ma_value := value; ma_percentile := percentile;
              ma_rating := rating; ma_benchmark := benchmarks |}
  | None => None
  end.

(** Accumulator of the [forEach]: entries, strengths, weaknesses,
    [totalPercentile], [validMetrics]. *)
Definition acc : Type :=
  (list (string * metricAnalysis) * list quartileNote * list quartileNote
   * Z * Z)%type.

Definition step (metrics : list (string * jsval)) (companySize : string)
           (a : acc) (metricName : string) : acc :=
  let '(ms, strengths, weaknesses, totalPercentile, validMetrics) := a in
  match own_prop metrics metricName with
  | JNum value =>
      match analyzeMetric metricName value companySize with
      | Some ma =>
          let p := ma_percentile ma in
          let note := {| qn_metric := metricName; qn_percentile := p |} in
          ((ms ++ (metricName, ma) :: nil)%list,
           if (75 <=? p)%Z then (strengths ++ note :: nil)%list else strengths,
           if (75 <=? p)%Z then weaknesses
           else if (p <=? 25)%Z then (weaknesses ++ note :: nil)%list
                else weaknesses,
           (totalPercentile + p)%Z, (validMetrics + 1)%Z)
      | None => a
      end
  | _ => a
  end.

(** [getBenchmarkAnalysis(ticker, metrics, premiumVolume)] for a metrics
    object given by its own properties. *)
Definition getBenchmarkAnalysis (ticker : string)
           (metrics : list (string * jsval)) (premiumVolume : jsval)
  : analysis :=
  let companySize := getCompanySize premiumVolume in
  let metricsToAnalyze := "combinedRatio" :: "roe" :: "lossRatio" :: nil in
  let '(ms, strengths, weaknesses, totalPercentile, validMetrics) :=
    fold_left (step metrics companySize) metricsToAnalyze
              (nil, nil, nil, 0%Z, 0%Z) in
  let overallRating :=
    if (0 <? validMetrics)%Z then
      let avgPercentile := inject_Z totalPercentile / inject_Z validMetrics in
      if Qle_bool 80 avgPercentile then "excellent"
      else if Qle_bool 60 avgPercentile then "good"
      else if Qle_bool 40 avgPercentile then "average"
      else if Qle_bool 20 avgPercentile then "poor"
      else "critical"
    else "average" in
  {| a_ticker := ticker;
     a_companySize := companySize;
     a_peerGroup := getPeerGroup ticker;
     a_metrics := ms;
     a_overallRating := overallRating;
     a_strengths := strengths;
     a_weaknesses := weaknesses |}.

End Bench.

(** The lookup rule in the words of the specification: [(rating, range)] is
    the first entry, in table order, whose closed interval holds the
    value. *)
Definition first_containing (value : jsnum) (es : list (string * Bench.band))
           (rating : string) (range : Bench.band) : Prop :=
  exists pre post,
    es = (pre ++ (rating, range) :: post)%list
    /\ Bench.in_band value range = true
    /\ Forall (fun e => Bench.in_band value (snd e) = false) pre.

(** A value that no band of the table holds. *)
Definition outside_every_band (value : jsnum) (es : list (string * Bench.band))
  : Prop :=
  Forall (fun e => Bench.in_band value (snd e) = false) es.

(* ===================================================================== *)
(** ** Validation Engine (dataValidationService)                          *)
(* ===================================================================== *)

Module Validation.
Local Open Scope Q_scope.

Record range : Type := { min : Q; max : Q; description : string }.

Record benchmarks : Type := {
  excellent : range;
  good : range;
  fair : range;
  poor : range;
  critical : range
}.

Definition entries (b : benchmarks) : list (string * range) :=
  ("excellent", excellent b) :: ("good", good b) :: ("fair", fair b)
  :: ("poor", poor b) :: ("critical", critical b) :: nil.

Definition mk (lo hi : Q) (d : string) : range :=
  {| min := lo; max := hi; description := d |}.

Definition INDUSTRY_BENCHMARKS : list (string * benchmarks) :=
  ("combinedRatio",
     {| excellent := mk 85 95 "Top quartile performance";
        good := mk 95 100 "Above average performance";
        fair := mk 100 105 "Industry average";
        poor := mk 105 115 "Below average performance";
        critical := mk 115 130 "Poor underwriting performance" |})
  :: ("roe",
     {| excellent := mk 15 25 "Exceptional returns";
        good := mk 10 15 "Strong returns";
        fair := mk 7 10 "Adequate returns";
        poor := mk 3 7 "Weak returns";
        critical := mk (-5) 3 "Poor/negative returns" |})
  :: ("lossRatio",
     {| excellent := mk 55 65 "Superior underwriting";
        good := mk 65 75 "Good underwriting";
        fair := mk 75 85 "Average underwriting";
        poor := mk 85 95 "Weak underwriting";
        critical := mk 95 110 "Poor underwriting" |})
  :: ("expenseRatio",
     {| excellent := mk 20 25 "Highly efficient";
        good := mk 25 30 "Efficient operations";
        fair := mk 30 35 "Average efficiency";
        poor := mk 35 40 "Inefficient operations";
        critical := mk 40 50 "Very inefficient" |})
  :: nil.

(** [calculatePercentile(metricName, value)] *)
Definition calculatePercentile (metricName : string) (value : jsnum) : Z :=
  match assoc metricName INDUSTRY_BENCHMARKS with
  | None => 50%Z
  | Some benchmarks =>
      if num_le value (max (excellent benchmarks)) then 90%Z
      else if num_le value (max (good benchmarks)) then 75%Z
      else if num_le value (max (fair benchmarks)) then 50%Z
      else if num_le value (max (poor benchmarks)) then 25%Z
      else 10%Z
  end.

(** The object [validateMetric] returns; an absent [percentile] is
    [None], a [null] benchmark is [None]. *)
Record metricValidation : Type := {
  rating : string;
  message : string;
  benchmark : option range;
  percentile : option Z
}.

Fixpoint first_range (value : jsnum) (es : list (string * range))
  : option (string * range) :=
  match es with
  | nil => None
  | (rating, range) :: rest =>
      if num_ge value (min range) && num_le value (max range)
      then Some (rating, range)
      else first_range value rest
  end.

(** [validateMetric(metricName, value)] *)
Definition validateMetric (metricName : string) (value : jsval)
  : metricValidation :=
  match assoc metricName INDUSTRY_BENCHMARKS, value with
  | Some benchmarks, JNum v =>
      match first_range v (entries benchmarks) with
      | Some (rating, range) =>
          {| rating := rating;
             message := description range;
             benchmark := Some range;
             percentile := Some (calculatePercentile metricName v) |}
      | None =>
          {| rating := "outlier";
             message := "Value outside typical industry range";
             benchmark := None;
             percentile := None |}
      end
  | _, _ =>
      {| rating := "unknown";
         message := "Unable to validate metric";
         benchmark := None;
         percentile := None |}
  end.

(** [scoreMap[validation.rating] || 0] *)
Definition scoreMap : list (string * Z) :=
  ("excellent", 100%Z) :: ("good", 80%Z) :: ("fair", 60%Z)
  :: ("poor", 40%Z) :: ("critical", 20%Z) :: ("outlier", 10%Z) :: nil.

Definition score_of (rating : string) : Z :=
  match assoc rating scoreMap with Some s => s | None => 0%Z end.

(** Entries of the report arrays. *)
Record note : Type := { n_type : string; n_message : string }.
Record sourceEntry : Type :=
  { s_name : string; s_status : string; s_data : jsval }.
Record validationEntry : Type :=
  { ve_metric : string; ve_value : jsval; ve_result : metricValidation }.

Record ValidationReport : Type := {
  ticker : string;
  timestamp : string;
  overallScore : Z;
  dataQuality : string;
  validations : list validationEntry;
  warnings : list note;
  recommendations : list note;
  sources : list sourceEntry
}.

(** Code that mutates the report in place and may throw: the report
    keeps whatever was pushed before a throw. *)
Definition M (A : Type) : Type :=
  ValidationReport -> completion A * ValidationReport.

Definition ret {A : Type} (a : A) : M A := fun st => (Normal a, st).

Definition bind {A B : Type} (c : M A) (k : A -> M B) : M B :=
  fun st =>
    match c st with
    | (Normal a, st') => k a st'
    | (Throw e, st') => (Throw e, st')
    end.

Definition throw {A : Type} (e : thrown) : M A := fun st => (Throw e, st).

Definition liftC {A : Type} (c : completion A) : M A :=
  fun st => (c, st).

(** [await p] for an already settled [p]. *)
Definition await {A : Type} (p : settled A) : M A :=
  match p with
  | Fulfilled a => ret a
  | Rejected e => throw e
  end.

(** [try { body } catch (error) { handler }] *)
Definition try_catch {A : Type} (body : M A) (handler : thrown -> M A) : M A :=
  fun st =>
    match body st with
    | (Normal a, st') => (Normal a, st')
    | (Throw e, st') => handler e st'
    end.

Definition modify (f : ValidationReport -> ValidationReport) : M unit :=
  fun st => (Normal tt, f st).

Definition read : M ValidationReport := fun st => (Normal st, st).

Notation "'let*' x ':=' c 'in' k" := (bind c (fun x => k))
  (at level 10, x name, c at level 100, k at level 200).
Notation "c '>>' k" := (bind c (fun _ => k))
  (at level 190, right associativity).

Definition push_validation (v : validationEntry) : M unit :=
  modify (fun r =>
    {| ticker := ticker r; timestamp := timestamp r;
       overallScore := overallScore r; dataQuality := dataQuality r;
       validations := (validations r ++ v :: nil)%list;
       warnings := warnings r; recommendations := recommendations r;
       sources := sources r |}).

Definition push_warning (w : note) : M unit :=
  modify (fun r =>
    {| ticker := ticker r; timestamp := timestamp r;
       overallScore := overallScore r; dataQuality := dataQuality r;
       validations := validations r;
       warnings := (warnings r ++ w :: nil)%list;
       recommendations := recommendations r;
       sources := sources r |}).

Definition push_recommendation (w : note) : M unit :=
  modify (fun r =>
    {| ticker := ticker r; timestamp := timestamp r;
       overallScore := overallScore r; dataQuality := dataQuality r;
       validations := validations r; warnings := warnings r;
       recommendations := (recommendations r ++ w :: nil)%list;
       sources := sources r |}).

Definition push_source (s : sourceEntry) : M unit :=
  modify (fun r =>
    {| ticker := ticker r; timestamp := timestamp r;
       overallScore := overallScore r; dataQuality := dataQuality r;
       validations := validations r; warnings := warnings r;
       recommendations := recommendations r;
       sources := (sources r ++ s :: nil)%list |}).

Definition set_overallScore (n : Z) : M unit :=
  modify (fun r =>
    {| ticker := ticker r; timestamp := timestamp r;
       overallScore := n; dataQuality := dataQuality r;
       validations := validations r; warnings := warnings r;
       recommendations := recommendations r; sources := sources r |}).

Definition set_dataQuality (q : string) : M unit :=
  modify (fun r =>
    {| ticker := ticker r; timestamp := timestamp r;
       overallScore := overallScore r; dataQuality := q;
       validations := validations r; warnings := warnings r;
       recommendations := recommendations r; sources := sources r |}).

Definition when (b : bool) (c : M unit) : M unit := if b then c else ret tt.

(** The report object the function starts from. *)
Definition initial_report (tkr now : string) : ValidationReport :=
  {| ticker := tkr; timestamp := now; overallScore := 0%Z;
     dataQuality := "unknown"; validations := nil; warnings := nil;
     recommendations := nil; sources := nil |}.

Section WithConversions.
(** The built-in conversions used by template literals and by [>] on a
    value that is not a number. *)
Variable ToString : jsval -> string.
Variable ToNumber : jsval -> jsnum.

(** [v > q] *)
Definition js_gt (v : jsval) (q : Q) : bool :=
  match v with
  | JNum n => num_gt n q
  | other => num_gt (ToNumber other) q
  end.

Definition coreMetrics : list string :=
  "combinedRatio" :: "roe" :: "lossRatio" :: "expenseRatio" :: nil.

(** One iteration of the loop over [coreMetrics]; the pair is
    [(validMetricsCount, totalScore)]. *)
Definition scoreMetric (metrics : jsval) (acc : Z * Z)
           (metricName : string) : M (Z * Z) :=
  let '(validMetricsCount, totalScore) := acc in
  let* value := liftC (get_prop metrics metricName) in
  if is_number value then
    let validation := validateMetric metricName value in
    push_validation {| ve_metric := metricName; ve_value := value;
                       ve_result := validation |} >>
    ret ((validMetricsCount + 1)%Z,
         (totalScore + score_of (rating validation))%Z)
  else
    push_warning
      {| n_type := "missing_data";
         n_message := "Missing or invalid " ++ metricName ++ " data" |} >>
    ret acc.

Fixpoint scoreMetrics (metrics : jsval) (names : list string)
         (acc : Z * Z) : M (Z * Z) :=
  match names with
  | nil => ret acc
  | metricName :: rest =>
      let* acc' := scoreMetric metrics acc metricName in
      scoreMetrics metrics rest acc'
  end.

(** Step 2, the SEC cross-check; returns the new [totalScore]. *)
Definition secCheck (secFetch : settled jsval) (totalScore : Z) : M Z :=
  try_catch
    (let* secData := await secFetch in
     let* err := liftC (get_prop secData "error") in
     if negb (truthy err) then
       let* name := liftC (get_prop secData "name") in
       let* cik := liftC (get_prop secData "cik") in
       let* filings := liftC (get_prop secData "filings") in
       let* count := liftC (opt_chain filings "count") in
       push_source
         {| s_name := "SEC EDGAR"; s_status := "verified";
            s_data :=
              JObj (("officialName", name) :: ("cik", cik)
                    :: ("filingCount",
                        if truthy count then count else num 0) :: nil) |} >>
       ret (totalScore + 10)%Z
     else
       push_warning
         {| n_type := "sec_validation";
            n_message := "SEC verification failed: " ++ ToString err |} >>
       ret totalScore)
    (fun error =>
       let* msg := liftC (thrown_message error) in
       push_warning
         {| n_type := "sec_error";
            n_message := "SEC API error: " ++ ToString msg |} >>
       ret totalScore).

(** Step 3, the economic context. *)
Definition economicCheck (econFetch : settled jsval) : M unit :=
  try_catch
    (let* economicData := await econFetch in
     let* indicators := liftC (get_prop economicData "indicators") in
     if truthy indicators then
       push_source
         {| s_name := "FRED Economic Data"; s_status := "available";
            s_data := indicators |} >>
       let* unrate := liftC (get_prop indicators "UNRATE") in
       let* unemployment := liftC (opt_chain unrate "value") in
       let* fedfunds := liftC (get_prop indicators "FEDFUNDS") in
       let* fedRate := liftC (opt_chain fedfunds "value") in
       when (truthy unemployment && js_gt unemployment 6)
         (push_recommendation
            {| n_type := "economic_context";
               n_message :=
                 "High unemployment (" ++ ToString unemployment
                 ++ "%) may impact insurance demand and claims" |}) >>
       when (truthy fedRate && js_gt fedRate 4)
         (push_recommendation
            {| n_type := "economic_context";
               n_message :=
                 "High interest rates (" ++ ToString fedRate
                 ++ "%) may benefit investment income" |})
     else ret tt)
    (fun error =>
       let* msg := liftC (thrown_message error) in
       push_warning
         {| n_type := "economic_data";
            n_message := "Economic data unavailable: " ++ ToString msg |}).

(** The body of the outer [try]. *)
Definition validateBody (financialData : jsval)
           (secFetch econFetch : settled jsval) : M ValidationReport :=
  let* metrics := liftC (get_prop financialData "currentMetrics") in
  if negb (truthy metrics) then
    throw (ErrorObj "No financial metrics available for validation")
  else
    let* acc := scoreMetrics metrics coreMetrics (0%Z, 0%Z) in
    let '(validMetricsCount, totalScore0) := acc in
    let* totalScore := secCheck secFetch totalScore0 in
    economicCheck econFetch >>
    when (0 <? validMetricsCount)%Z
      (set_overallScore
         (Math_round (inject_Z totalScore / inject_Z validMetricsCount))) >>
    let* r := read in
    set_dataQuality
      (if (85 <=? overallScore r)%Z then "excellent"
       else if (70 <=? overallScore r)%Z then "good"
       else if (50 <=? overallScore r)%Z then "fair"
       else "poor") >>
    let* r := read in
    when (2 <? length (warnings r))%nat
      (push_recommendation
         {| n_type := "data_quality";
            n_message := "Multiple data quality issues detected. Consider using alternative data sources." |}) >>
    when (validMetricsCount <? Z.of_nat (length coreMetrics))%Z
      (push_recommendation
         {| n_type := "completeness";
            n_message := "Some key metrics are missing. Data may be incomplete." |}) >>
    read.

(** The outer [catch]. *)
Definition validateHandler (error : thrown) : M ValidationReport :=
  let* msg := liftC (thrown_message error) in
  push_warning
    {| n_type := "validation_error";
       n_message := "Validation process failed: " ++ ToString msg |} >>
  set_dataQuality "error" >>
  read.

(** [validateCompanyData(ticker, financialData)]: the settled state of
    the promise it returns, given the settled results of the two
    lookups and the timestamp string. *)
Definition validateCompanyData (tkr : string) (financialData : jsval)
           (secFetch econFetch : settled jsval) (now : string)
  : settled ValidationReport :=
  let validationReport := initial_report tkr now in
  match try_catch (validateBody financialData secFetch econFetch)
                  validateHandler validationReport with
  | (Normal r, _) => Fulfilled r
  | (Throw e, _) => Rejected e
  end.

End WithConversions.

(** A regulatory lookup that failed: the promise rejected, or it
    resolved to a value whose [error] property is set or cannot be
    read. *)
Definition sec_failed (secFetch : settled jsval) : Prop :=
  match secFetch with
  | Rejected _ => True
  | Fulfilled secData =>
      match get_prop secData "error" with
      | Normal err => truthy err = true
      | Throw _ => True
      end
  end.

(** Properties of effectful code used in the proofs: what it can throw,
    that it only ever appends warnings, and that it leaves the score
    alone. *)
Definition only_errors {A : Type} (c : M A) : Prop :=
  forall st e st', c st = (Throw e, st') -> exists m, e = ErrorObj m.

Definition grows {A : Type} (c : M A) : Prop :=
  forall st res st', c st = (res, st') ->
                     incl (warnings st) (warnings st').

Definition keeps_score {A : Type} (c : M A) : Prop :=
  forall st res st', c st = (res, st') -> overallScore st' = overallScore st.

(** Code that cannot throw. *)
Definition total {A : Type} (c : M A) : Prop :=
  forall st, exists a st', c st = (Normal a, st').

(** Metrics that all rate excellent, and a successful SEC lookup. *)
Definition excellent_metrics : jsval :=
  JObj (("combinedRatio", num (887 # 10)) :: ("roe", num 20)
        :: ("lossRatio", num (637 # 10)) :: ("expenseRatio", num 25) :: nil).

Definition excellent_data : jsval :=
  JObj (("ticker", JStr "CB") :: ("currentMetrics", excellent_metrics) :: nil).

Definition sec_verified : settled jsval :=
  Fulfilled (JObj (("cik", JStr "896159") :: ("name", JStr "Chubb Ltd")
                   :: nil)).

(** Only roe is present, and it rates excellent. *)
Definition roe_only_data : jsval :=
  JObj (("currentMetrics", JObj (("roe", num 20) :: nil)) :: nil).

Definition econ_empty : settled jsval :=
  Fulfilled (JObj (("indicators", JObj nil) :: nil)).

End Validation.

(* ===================================================================== *)
(** ** Multi-company fetch (financialDataService)                         *)
(* ===================================================================== *)

Module Batch.

(** [p.catch(handler)] on a settled promise. *)
Definition catch_ {A : Type} (p : settled A) (handler : thrown -> completion A)
  : settled A :=
  match p with
  | Fulfilled a => Fulfilled a
  | Rejected e =>
      match handler e with
      | Normal a => Fulfilled a
      | Throw e' => Rejected e'
      end
  end.

(** [Promise.all]: fulfilled with every value when all inputs are
    fulfilled, otherwise rejected with a rejection (here the leftmost
    one) and no values at all. *)
Fixpoint Promise_all {A : Type} (ps : list (settled A)) : settled (list A) :=
  match ps with
  | nil => Fulfilled nil
  | Fulfilled a :: rest =>
      match Promise_all rest with
      | Fulfilled l => Fulfilled (a :: l)
      | Rejected e => Rejected e
      end
  | Rejected e :: _ => Rejected e
  end.

Section WithResult.
(** The object a successful single-company fetch resolves to. *)
Context {R : Type}.
Variable ToString : jsval -> string.

(** [new Error(prefix + error.message)] inside a [catch (error)]; if
    reading the message throws, that error escapes instead. *)
Definition rethrow (prefix : string) (error : thrown) : thrown :=
  match thrown_message error with
  | Normal msg => ErrorObj (prefix ++ ToString msg)
  | Throw e => e
  end.

(** The settled promise of [fetchCompanyFinancials(ticker)] when the
    [try] block of its request ends with [c]: anything thrown there is
    rethrown wrapped by the [catch]. *)
Definition fetchCompanyFinancials (ticker : string) (c : completion R)
  : settled R :=
  match c with
  | Normal result => Fulfilled result
  | Throw error =>
      Rejected (rethrow ("Failed to fetch data for " ++ ticker ++ ": ") error)
  end.

(** An element of the array [fetchMultipleCompanyFinancials] resolves
    to: the fetched object, or [{ ticker, error, currentMetrics: null }]. *)
Inductive element : Type :=
| Data (result : R)
| Failure (ticker : string) (error : jsval).

Definition map_settled {A B : Type} (f : A -> B) (p : settled A) : settled B :=
  match p with
  | Fulfilled a => Fulfilled (f a)
  | Rejected e => Rejected e
  end.

(** [fetchMultipleCompanyFinancials(tickers)], where [upstream ticker]
    is how the [try] block of that ticker's request ends. *)
Definition fetchMultipleCompanyFinancials
           (upstream : string -> completion R) (tickers : list string)
  : settled (list element) :=
  let promises :=
    map (fun ticker =>
           catch_ (map_settled Data
                     (fetchCompanyFinancials ticker (upstream ticker)))
                  (fun error =>
                     match thrown_message error with
                     | Normal message => Normal (Failure ticker message)
                     | Throw e => Throw e
                     end))
        tickers in
  match Promise_all promises with
  | Fulfilled results => Fulfilled results
  | Rejected error =>
      Rejected (rethrow "Failed to fetch multiple company data: " error)
  end.

(** What one ticker contributes, in the words of the specification. *)
Definition contribution (upstream : string -> completion R)
           (ticker : string) (e : element) : Prop :=
  match upstream ticker with
  | Normal result => e = Data result
  | Throw _ => exists message, e = Failure ticker (JStr message)
  end.

End WithResult.
Arguments element R : clear implicits.

(** The upstream of the batch scenario: only ZZZZ_INVALID fails. *)
Definition sample_upstream (ticker : string) : completion string :=
  if String.eqb ticker "ZZZZ_INVALID"
  then Throw (ErrorObj "No financial data available for ZZZZ_INVALID")
  else Normal ("metrics of " ++ ticker).

End Batch.

(* ===================================================================== *)
(** ** Request de-duplication (financialDataService.pendingRequests)      *)
(* ===================================================================== *)

Module Coordinator.

Section WithResult.
(** What a request resolves to. *)
Context {R : Type}.

(** The module-level state between two turns of the event loop:
    the [pendingRequests] map (key to request promise, a promise being
    an index into [promises]), every request promise created so far
    with the cache key of its closure and its state ([None] while
    pending), and the tickers for which the upstream [fetch] calls were
    issued. *)
Record world : Type := {
  pendingRequests : gmap string nat;
  promises : list (string * option (settled R));
  fetches : list string
}.

Definition init : world :=
  {| pendingRequests := ∅; promises := nil; fetches := nil |}.

(** What a call hands back: the cached object, or a promise that
    follows request promise [p]. *)
Inductive answer : Type :=
| Cached (r : R)
| Handle (p : nat).

(** [fetchCompanyFinancials(ticker)] up to its [return]; [cached] is
    the result of [cache.get(cacheKey)].  The request body reaches its
    first [await] (the two [fetch] calls) without throwing, so the new
    promise is still pending when it is registered. *)
Definition fetchCompanyFinancials (w : world) (ticker : string)
           (cached : option R) : answer * world :=
  let cacheKey := "financials_" ++ ticker in
  match cached with
  | Some r => (Cached r, w)
  | None =>
      match pendingRequests w !! cacheKey with
      | Some p => (Handle p, w)
      | None =>
          let requestPromise := length (promises w) in
          (Handle requestPromise,
           {| pendingRequests :=
                <[cacheKey := requestPromise]> (pendingRequests w);
              promises := (promises w ++ (cacheKey, None) :: nil)%list;
              fetches := (fetches w ++ ticker :: nil)%list |})
      end
  end.

(** The body of pending request [p] completes with [outcome]; its
    [finally] deletes the key. *)
Definition settle (w : world) (p : nat) (outcome : settled R) : world :=
  match promises w !! p with
  | Some (cacheKey, None) =>
      {| pendingRequests := delete cacheKey (pendingRequests w);
         promises := <[p := (cacheKey, Some outcome)]> (promises w);
         fetches := fetches w |}
  | _ => w
  end.

(** [fetchMarketData(ticker)] up to its [return].  The URL template
    reads [FMP_BASE_URL], which the module never declares, so the
    request body throws before its first [await]: [catch] rethrows,
    [finally] deletes the key, and the promise is already rejected when
    it is registered. *)
Definition fetchMarketData (w : world) (ticker : string)
           (cached : option R) : answer * world :=
  let cacheKey := "market_" ++ ticker in
  match cached with
  | Some r => (Cached r, w)
  | None =>
      match pendingRequests w !! cacheKey with
      | Some p => (Handle p, w)
      | None =>
          let requestPromise := length (promises w) in
          let error :=
            ErrorObj ("Failed to fetch market data for " ++ ticker
                      ++ ": FMP_BASE_URL is not defined") in
          (Handle requestPromise,
           {| pendingRequests :=
                <[cacheKey := requestPromise]>
                  (delete cacheKey (pendingRequests w));
              promises :=
                (promises w ++ (cacheKey, Some (Rejected error)) :: nil)%list;
              fetches := fetches w |})
      end
  end.

(** What the holder of an answer has observed so far. *)
Definition observed (w : world) (a : answer) : option (settled R) :=
  match a with
  | Cached r => Some (Fulfilled r)
  | Handle p =>
      match promises w !! p with
      | Some (_, state) => state
      | None => None
      end
  end.

(** One turn of the event loop. *)
Inductive step : world -> world -> Prop :=
| step_financials w ticker cached :
    step w (snd (fetchCompanyFinancials w ticker cached))
| step_market w ticker cached :
    step w (snd (fetchMarketData w ticker cached))
| step_settle w p cacheKey outcome :
    promises w !! p = Some (cacheKey, None) ->
    step w (settle w p outcome).

Inductive reachable : world -> Prop :=
| reach_init : reachable init
| reach_step w w' : reachable w -> step w w' -> reachable w'.

(** A request for [cacheKey] is in flight. *)
Definition in_flight (w : world) (cacheKey : string) (p : nat) : Prop :=
  promises w !! p = Some (cacheKey, None).

Definition is_financials_key (cacheKey : string) : Prop :=
  exists ticker, cacheKey = "financials_" ++ ticker.

(** The invariant of the reachable states: the pending requests are
    requests for financials, each registered under its key; and a
    financials key is registered only for a pending request. *)
Definition coherent (w : world) : Prop :=
  (forall p cacheKey,
      in_flight w cacheKey p ->
      is_financials_key cacheKey /\ pendingRequests w !! cacheKey = Some p)
  /\ (forall cacheKey p,
         is_financials_key cacheKey ->
         pendingRequests w !! cacheKey = Some p ->
         in_flight w cacheKey p).

End WithResult.
Arguments world R : clear implicits.
Arguments answer R : clear implicits.

(** After one call for TRV that missed the cache. *)
Definition sample_world : world string :=
  snd (fetchCompanyFinancials init "TRV" None).

End Coordinator.


(* ===================================================================== *)
(** ** The metrics object as a JavaScript value                           *)
(* ===================================================================== *)

Module Interop.
Import Calc.

Definition opt_str (o : option string) : jsval :=
  match o with Some s => JStr s | None => JUndefined end.

(** The object literal [calculateInsuranceMetrics] returns, property by
    property in the order it is written. *)
Definition metrics_props (m : DerivedMetrics) : list (string * jsval) :=
  ("revenue", num (m_revenue m))
  :: ("netIncome", num (m_netIncome m))
  :: ("totalAssets", num (m_totalAssets m))
  :: ("totalEquity", num (m_totalEquity m))
  :: ("sharesOutstanding", num (m_sharesOutstanding m))
  :: ("profitMargin", num (m_profitMargin m))
  :: ("roe", num (m_roe m))
  :: ("roa", num (m_roa m))
  :: ("bookValuePerShare", JNum (m_bookValuePerShare m))
  :: ("tangibleBookValue", JNum (m_tangibleBookValue m))
  :: ("debtToEquity", num (m_debtToEquity m))
  :: ("expenseRatio", num (m_expenseRatio m))
  :: ("lossRatio", num (m_lossRatio m))
  :: ("combinedRatio", num (m_combinedRatio m))
  :: ("underwritingProfitMargin", num (m_underwritingProfitMargin m))
  :: ("investmentYield", num (m_investmentYield m))
  :: ("floatPerShare", JNum (m_floatPerShare m))
  :: ("reserveRatio", JNum (m_reserveRatio m))
  :: ("year", opt_str (m_year m))
  :: ("period", opt_str (m_period m))
  :: ("symbol", opt_str (m_symbol m))
  :: nil.

Definition metrics_to_js (m : DerivedMetrics) : jsval := JObj (metrics_props m).

(** [{ ...a, ...b }] on property lists: the properties of [a] in order,
    each taking the value [b] gives it when [b] has the key, followed by
    the properties only [b] has. *)
Definition has_key (k : string) (l : list (string * jsval)) : bool :=
  existsb (fun kv => String.eqb (fst kv) k) l.

Definition spread_props (a b : list (string * jsval)) : list (string * jsval) :=
  (map (fun kv => if has_key (fst kv) b then (fst kv, own_prop b (fst kv)) else kv) a
   ++ List.filter (fun kv => negb (has_key (fst kv) a)) b)%list.

End Interop.

(* ===================================================================== *)
(** ** The request of fetchCompanyFinancials (financialDataService)       *)
(* ===================================================================== *)

Module Request.
Import Calc.

(** A settled [fetch]: the [ok] flag of the response and what its
    [json()] gives. *)
Record response : Type := {
  ok : bool;
  json : completion (list RawFinancialRecord)
}.

Definition or_else {A : Type} (b a : option A) : option A :=
  match b with Some x => Some x | None => a end.

(** [{ ...a, ...b }] on statement records: a field present in [b]
    replaces the field of [a]. *)
Definition spread (a b : RawFinancialRecord) : RawFinancialRecord :=
  {| revenue := or_else (revenue b) (revenue a);
     netIncome := or_else (netIncome b) (netIncome a);
     totalAssets := or_else (totalAssets b) (totalAssets a);
     totalStockholdersEquity :=
       or_else (totalStockholdersEquity b) (totalStockholdersEquity a);
     weightedAverageShsOut :=
       or_else (weightedAverageShsOut b) (weightedAverageShsOut a);
     sellingGeneralAndAdministrativeExpenses :=
       or_else (sellingGeneralAndAdministrativeExpenses b)
               (sellingGeneralAndAdministrativeExpenses a);
     totalDebt := or_else (totalDebt b) (totalDebt a);
     operatingExpenses := or_else (operatingExpenses b) (operatingExpenses a);
     investmentIncome := or_else (investmentIncome b) (investmentIncome a);
     symbol := or_else (symbol b) (symbol a);
     calendarYear := or_else (calendarYear b) (calendarYear a);
     period := or_else (period b) (period a) |}.

(** [{}] *)
Definition no_fields : RawFinancialRecord :=
  {| revenue := None; netIncome := None; totalAssets := None;
     totalStockholdersEquity := None; weightedAverageShsOut := None;
     sellingGeneralAndAdministrativeExpenses := None; totalDebt := None;
     operatingExpenses := None; investmentIncome := None;
     symbol := None; calendarYear := None; period := None |}.

(** [!s] for an optional string property. *)
Definition blank (s : option string) : bool :=
  match s with
  | None => true
  | Some s => String.eqb s ""
  end.

(** Text of an optional string inside a template literal. *)
Definition shown (s : option string) : string :=
  match s with Some s => s | None => "undefined" end.

(** The resolved object (before [source] is added). *)
Record companyData : Type := {
  cd_ticker : string;
  cd_currentMetrics : DerivedMetrics;
  cd_historicalMetrics : list (list (string * jsval));
  cd_timestamp : string
}.

(** The callback of [incomeData.slice(0, 4).map(...)]; [rnd] is the draw
    of its [calculateInsuranceMetrics] call. *)
Definition historicalEntry (balanceData : list RawFinancialRecord)
           (period_ : RawFinancialRecord) (index : nat) (rnd : Q)
  : list (string * jsval) :=
  let balancePeriod :=
    match nth_error balanceData index with
    | Some b => b
    | None => no_fields
    end in
  let combined := spread period_ balancePeriod in
  let periodMetrics := calculateInsuranceMetrics combined rnd in
  Interop.spread_props
    (("period", JStr (shown (period period_) ++ " " ++ shown (calendarYear period_)))
     :: nil)
    (Interop.metrics_props periodMetrics).

Fixpoint map_indexed {A B : Type} (f : A -> nat -> B) (l : list A) (i : nat)
  : list B :=
  match l with
  | nil => nil
  | a :: rest => f a i :: map_indexed f rest (S i)
  end.

Definition throw_error {A : Type} (message : string) : completion A :=
  Throw (ErrorObj message).

(** The [try] block of the request: [incomeFetch] and [balanceFetch] are
    the two settled [fetch] calls, [draw 0] is the draw of the current
    metrics and [draw (S i)] the draw of historical period [i], [now] the
    timestamp string. *)
Definition requestBody (ticker : string)
           (incomeFetch balanceFetch : completion response)
           (draw : nat -> Q) (now : string) : completion companyData :=
  match incomeFetch, balanceFetch with
  | Throw e, _ => Throw e
  | _, Throw e => Throw e
  | Normal incomeRes, Normal balanceRes =>
      if negb (ok incomeRes) || negb (ok balanceRes)
      then throw_error "Failed to fetch financial data"
      else
        match json incomeRes, json balanceRes with
        | Throw e, _ => Throw e
        | _, Throw e => Throw e
        | Normal incomeData, Normal balanceData =>
            match incomeData, balanceData with
            | latestIncome :: _, latestBalance :: _ =>
                if match revenue latestIncome with
                   | None => true
                   | Some r => Qeq_bool r 0 || Qle_bool r 0
                   end
                then throw_error ("Invalid revenue data for " ++ ticker)
                else if blank (calendarYear latestIncome)
                        || blank (period latestIncome)
                then throw_error ("Missing period information for " ++ ticker)
                else
                  let combinedData := spread latestIncome latestBalance in
                  let metrics := calculateInsuranceMetrics combinedData (draw O) in
                  let historicalMetrics :=
                    rev (map_indexed
                           (fun period_ index =>
                              historicalEntry balanceData period_ index
                                              (draw (S index)))
                           (firstn 4 incomeData) O) in
                  Normal {| cd_ticker := ticker;
                            cd_currentMetrics := metrics;
                            cd_historicalMetrics := historicalMetrics;
                            cd_timestamp := now |}
            | _, _ =>
                throw_error ("No financial data available for " ++ ticker)
            end
        end
  end.

(** The conditions under which the request goes through. *)
Definition acceptable (incomeFetch balanceFetch : completion response) : Prop :=
  exists incomeRes balanceRes latestIncome olderIncome balanceData r,
    incomeFetch = Normal incomeRes
    /\ balanceFetch = Normal balanceRes
    /\ ok incomeRes = true /\ ok balanceRes = true
    /\ json incomeRes = Normal (latestIncome :: olderIncome)
    /\ json balanceRes = Normal balanceData
    /\ balanceData <> nil
    /\ revenue latestIncome = Some r /\ (0 < r)%Q
    /\ blank (calendarYear latestIncome) = false
    /\ blank (period latestIncome) = false.

(** Two annual statements, newest first, with their balance sheets. *)
Definition income_2024 : RawFinancialRecord :=
  {| revenue := Some 40000%Q; netIncome := Some 3000%Q; totalAssets := None;
     totalStockholdersEquity := None; weightedAverageShsOut := Some 230%Q;
     sellingGeneralAndAdministrativeExpenses := Some 9000%Q;
     totalDebt := None; operatingExpenses := None; investmentIncome := None;
     symbol := Some "HIG"; calendarYear := Some "2024"; period := Some "FY" |}.

Definition income_2023 : RawFinancialRecord :=
  {| revenue := Some 37000%Q; netIncome := Some 2500%Q; totalAssets := None;
     totalStockholdersEquity := None; weightedAverageShsOut := Some 235%Q;
     sellingGeneralAndAdministrativeExpenses := Some 8800%Q;
     totalDebt := None; operatingExpenses := None; investmentIncome := None;
     symbol := Some "HIG"; calendarYear := Some "2023"; period := Some "FY" |}.

Definition balance_2024 : RawFinancialRecord :=
  {| revenue := None; netIncome := None; totalAssets := Some 120000%Q;
     totalStockholdersEquity := Some 25000%Q; weightedAverageShsOut := None;
     sellingGeneralAndAdministrativeExpenses := None;
     totalDebt := Some 8000%Q; operatingExpenses := None;
     investmentIncome := None; symbol := Some "HIG";
     calendarYear := Some "2024"; period := Some "FY" |}.

Definition income_response : response :=
  {| ok := true; json := Normal (income_2024 :: income_2023 :: nil) |}.

Definition balance_response : response :=
  {| ok := true; json := Normal (balance_2024 :: nil) |}.

Definition sample_income : completion response := Normal income_response.

Definition sample_balance : completion response := Normal balance_response.

(** Draws: 0.9 for the current metrics, 0.1 for every historical one. *)
Definition sample_draw (i : nat) : Q :=
  match i with O => (9 # 10)%Q | S _ => (1 # 10)%Q end.

End Request.

(* ===================================================================== *)
(** ** A cache filled to its cleanup threshold                            *)
(* ===================================================================== *)

(** [n] entries under distinct one-character keys, all expiring at
    [expires]. *)
Fixpoint filled (n : nat) (expires : Z) : gmap string (Cache.item string) :=
  match n with
  | O => ∅
  | S n' =>
      <[String (Ascii.ascii_of_nat n) "" :=
          {| Cache.value := "v"; Cache.expiry := expires |}]>
        (filled n' expires)
  end.

(* ===================================================================== *)
(** ** Reading a validation report                                        *)
(* ===================================================================== *)

(** What [fetchEconomicIndicators] resolves to when its request fails:
    the object its [catch] returns,
    [{ indicators: {}, error: error.message, timestamp }]. *)
Definition economic_failure (message : jsval) (timestamp : string) : jsval :=
  JObj (("indicators", JObj nil) :: ("error", message)
        :: ("timestamp", JStr timestamp) :: nil).

(** A lookup whose rejection, if any, carries a [message] that can be
    read (anything but a rejection with null or undefined). *)
Definition lookup_readable (lookup : settled jsval) : Prop :=
  match lookup with
  | Fulfilled _ => True
  | Rejected e => exists message, thrown_message e = Normal message
  end.

Module Report.
Import Validation.

(** A projection of the report that a piece of code leaves unchanged. *)
Definition preserves {A X : Type} (f : ValidationReport -> X) (c : M A) : Prop :=
  forall st res st', c st = (res, st') -> f st' = f st.

(** The quality tier of a score (the threshold chain of step 4). *)
Definition tier (score : Z) : string :=
  if (85 <=? score)%Z then "excellent"
  else if (70 <=? score)%Z then "good"
  else if (50 <=? score)%Z then "fair"
  else "poor".

(** What can be read off a report: how many warnings report a missing
    core metric, whether the SEC source is listed, and the sum of the
    points of the listed validations. *)
Definition missing_count (r : ValidationReport) : nat :=
  length (List.filter (fun w => String.eqb (n_type w) "missing_data")
                      (warnings r)).

Definition sec_listed (r : ValidationReport) : bool :=
  existsb (fun s => String.eqb (s_name s) "SEC EDGAR") (sources r).

Definition points (vs : list validationEntry) : Z :=
  fold_right (fun e acc => (score_of (rating (ve_result e)) + acc)%Z) 0%Z vs.

(** The score recomputed from the listed validations and sources. *)
Definition recomputed_score (r : ValidationReport) : Z :=
  match validations r with
  | nil => 0%Z
  | _ =>
      Math_round
        (inject_Z (points (validations r) + (if sec_listed r then 10 else 0))
         / inject_Z (Z.of_nat (length (validations r))))
  end.

End Report.

(* ===================================================================== *)
(** ** Quick quality check (dataValidationService.quickQualityCheck)      *)
(* ===================================================================== *)

(** [v.k] / [v[k]] for a value that is neither null nor undefined. *)
Definition field (v : jsval) (k : string) : jsval :=
  match v with
  | JObj props => own_prop props k
  | _ => JUndefined
  end.

Module Quick.

Record assessment : Type := {
  quality : string;
  message : string;
  color : string
}.

(** [isNaN(n)] for a number. *)
Definition isNaN (n : jsnum) : bool :=
  match n with NaN => true | _ => false end.

Definition requiredFields : list string :=
  "revenue" :: "netIncome" :: "combinedRatio" :: "roe" :: nil.

(** [typeof metrics[field] !== 'number' || isNaN(metrics[field])] *)
Definition is_missing (metrics : jsval) (f : string) : bool :=
  match field metrics f with
  | JNum n => isNaN n
  | _ => true
  end.

(** [quickQualityCheck(metrics)] *)
Definition quickQualityCheck (metrics : jsval) : assessment :=
  if negb (truthy metrics)
  then {| quality := "no_data"; message := "No data available";
          color := "neutral" |}
  else
    let missingFields := List.filter (is_missing metrics) requiredFields in
    if (length missingFields =? 0)%nat
    then {| quality := "complete"; message := "All key metrics available";
            color := "success" |}
    else if (length missingFields <=? 2)%nat
    then {| quality := "partial"; message := "Some metrics missing";
            color := "warning" |}
    else {| quality := "incomplete"; message := "Many metrics missing";
            color := "danger" |}.

End Quick.

(* ===================================================================== *)
(** ** Cross-validation (enhancedDataService.validateFinancialData)       *)
(* ===================================================================== *)

Module Confidence.

Record check : Type := {
  c_source : string;
  c_status : string;
  c_message : string
}.

(** A warning carries a message string, or whatever [secData.error]
    holds. *)
Record warning : Type := { w_source : string; w_message : jsval }.

Record validationResults : Type := {
  ticker : string;
  confidence : Z;
  validations : list check;
  warnings : list warning;
  timestamp : string
}.

(** [validations.push(c); confidence += points] *)
Definition add_validation (c : check) (points : Z) (r : validationResults)
  : validationResults :=
  {| ticker := ticker r; confidence := (confidence r + points)%Z;
     validations := (validations r ++ c :: nil)%list;
     warnings := warnings r; timestamp := timestamp r |}.

(** [warnings.push(w)] *)
Definition add_warning (w : warning) (r : validationResults)
  : validationResults :=
  {| ticker := ticker r; confidence := confidence r;
     validations := validations r;
     warnings := (warnings r ++ w :: nil)%list; timestamp := timestamp r |}.

Definition set_confidence (c : Z) (r : validationResults) : validationResults :=
  {| ticker := ticker r; confidence := c; validations := validations r;
     warnings := warnings r; timestamp := timestamp r |}.

Section WithConversions.
(** The built-in conversions used by template literals and by the
    comparison of a value that is not a number. *)
Variable ToString : jsval -> string.
Variable ToNumber : jsval -> jsnum.

Definition to_num (v : jsval) : jsnum :=
  match v with JNum n => n | other => ToNumber other end.

(** Validation against the SEC filings. *)
Definition secStep (secData err : jsval) (r : validationResults)
  : validationResults :=
  if negb (truthy err) then
    add_validation
      {| c_source := "SEC EDGAR"; c_status := "verified";
         c_message := "Company verified: " ++ ToString (field secData "name") |}
      25 r
  else
    add_warning {| w_source := "SEC EDGAR"; w_message := err |} r.

(** The range checks on [primaryData.currentMetrics]. *)
Definition combinedRatioStep (metrics : jsval) (r : validationResults)
  : validationResults :=
  let v := field metrics "combinedRatio" in
  if num_ge (to_num v) 80 && num_le (to_num v) 120 then
    add_validation
      {| c_source := "Industry Benchmarks"; c_status := "within_range";
         c_message := "Combined Ratio " ++ ToString v
                      ++ "% within industry range" |}
      20 r
  else
    add_warning
      {| w_source := "Industry Benchmarks";
         w_message := JStr ("Combined Ratio " ++ ToString v
                            ++ "% outside typical range (80-120%)") |} r.

Definition roeStep (metrics : jsval) (r : validationResults)
  : validationResults :=
  let v := field metrics "roe" in
  if num_ge (to_num v) 5 && num_le (to_num v) 25 then
    add_validation
      {| c_source := "Industry Benchmarks"; c_status := "within_range";
         c_message := "ROE " ++ ToString v ++ "% within industry range" |}
      20 r
  else
    add_warning
      {| w_source := "Industry Benchmarks";
         w_message := JStr ("ROE " ++ ToString v
                            ++ "% outside typical range (5-25%)") |} r.

Definition revenueStep (metrics : jsval) (r : validationResults)
  : validationResults :=
  let v := field metrics "revenue" in
  if num_gt (to_num v) 0 && num_lt (to_num v) 1000000000000 then
    add_validation
      {| c_source := "Data Integrity"; c_status := "valid";
         c_message := "Revenue data appears valid" |}
      15 r
  else r.

Definition metricsStep (metrics : jsval) (r : validationResults)
  : validationResults :=
  if truthy metrics
  then revenueStep metrics (roeStep metrics (combinedRatioStep metrics r))
  else r.

(** The [catch]: reading [error.message] of a caught null or undefined
    throws out of the function. *)
Definition handler (error : thrown) (r : validationResults)
  : settled validationResults :=
  match thrown_message error with
  | Normal msg =>
      Fulfilled
        (add_warning
           {| w_source := "Validation System";
              w_message := JStr ("Validation error: " ++ ToString msg) |} r)
  | Throw e => Rejected e
  end.

(** [validateFinancialData(ticker, primaryData)]: the settled state of
    the promise it returns; [secFetch] is the settled
    [fetchSECFilings(ticker)] and [now] the timestamp string. *)
Definition validateFinancialData (tkr : string) (primaryData : jsval)
           (secFetch : settled jsval) (now : string)
  : settled validationResults :=
  let validationResults :=
    {| ticker := tkr; confidence := 0%Z; validations := nil;
       warnings := nil; timestamp := now |} in
  match secFetch with
  | Rejected e => handler e validationResults
  | Fulfilled secData =>
      match get_prop secData "error" with
      | Throw e => handler e validationResults
      | Normal err =>
          let r1 := secStep secData err validationResults in
          match get_prop primaryData "currentMetrics" with
          | Throw e => handler e r1
          | Normal metrics =>
              let r2 := metricsStep metrics r1 in
              Fulfilled (set_confidence (Z.min 100 (confidence r2)) r2)
          end
      end
  end.

End WithConversions.

(** The points a listed validation was awarded. *)
Definition awarded (c : check) : Z :=
  if String.eqb (c_source c) "SEC EDGAR" then 25%Z
  else if String.eqb (c_source c) "Industry Benchmarks" then 20%Z
  else if String.eqb (c_source c) "Data Integrity" then 15%Z
  else 0%Z.

Definition total_awarded (cs : list check) : Z :=
  fold_right (fun c acc => (awarded c + acc)%Z) 0%Z cs.

(** A step of the validation: it appends at most one validation, adds
    the points of what it appends, and keeps the warnings it found. *)
Definition awards (bound : Z) (f : validationResults -> validationResults)
  : Prop :=
  forall r, exists new,
    validations (f r) = (validations r ++ new)%list
    /\ confidence (f r) = (confidence r + total_awarded new)%Z
    /\ (0 <= total_awarded new <= bound)%Z
    /\ (length new <= 1)%nat
    /\ incl (warnings r) (warnings (f r)).

(** The books of a result: the confidence is the sum of the points of
    the listed validations. *)
Definition settled_books (bound : Z) (n : nat) (r : validationResults) : Prop :=
  confidence r = total_awarded (validations r)
  /\ (0 <= confidence r <= bound)%Z
  /\ (length (validations r) <= n)%nat.

(** What [fetchCompanyFinancials] resolves to, as far as the validation
    reads it. *)
Definition primary_of (tkr : string) (m : Calc.DerivedMetrics) : jsval :=
  JObj (("ticker", JStr tkr)
        :: ("currentMetrics", Interop.metrics_to_js m) :: nil).

End Confidence.

(* ===================================================================== *)
(** ** Reading a band table (industry benchmark service)                  *)
(* ===================================================================== *)

Module BandScan.
Import Bench.

(** The body of [calculateIndustryPercentile] once the band table is
    found and the value is a number. *)
Definition percentile_of_number (metric : string) (benchmarks : bands)
           (v : jsnum) : Z :=
  match first_band v (entries benchmarks) with
  | Some (_, range) => percentile range
  | None =>
      if lowerIsBetter metric then
        if num_lt v (min (excellent benchmarks)) then 95%Z
        else if num_gt v (max (critical benchmarks)) then 5%Z
        else 50%Z
      else
        if num_gt v (max (excellent benchmarks)) then 95%Z
        else if num_lt v (min (critical benchmarks)) then 5%Z
        else 50%Z
  end.

(** A percentile as a step function of the value over six thresholds:
    [falling] for a table whose bands go up from excellent to critical,
    [rising] for one whose bands go down. *)
Definition falling (t0 t1 t2 t3 t4 t5 x : Q) : Z :=
  if Qle_bool t0 x then
    if Qle_bool x t1 then 90%Z
    else if Qle_bool x t2 then 75%Z
    else if Qle_bool x t3 then 50%Z
    else if Qle_bool x t4 then 25%Z
    else if Qle_bool x t5 then 10%Z
    else 5%Z
  else 95%Z.

Definition rising (t0 t1 t2 t3 t4 t5 x : Q) : Z :=
  if Qle_bool x t5 then
    if Qle_bool t4 x then 90%Z
    else if Qle_bool t3 x then 75%Z
    else if Qle_bool t2 x then 50%Z
    else if Qle_bool t1 x then 25%Z
    else if Qle_bool t0 x then 10%Z
    else 5%Z
  else 95%Z.

(** The books of the [forEach] of [getBenchmarkAnalysis] after the
    metric names [done]. *)
Definition books (metrics : list (string * jsval)) (done : list string)
           (a : acc) : Prop :=
  let '(ms, strengths, weaknesses, totalPercentile, validMetrics) := a in
  map fst ms = List.filter (fun n => is_number (own_prop metrics n)) done
  /\ Forall (fun n => (75 <= qn_percentile n)%Z) strengths
  /\ Forall (fun n => (qn_percentile n <= 25)%Z) weaknesses
  /\ (length strengths + length weaknesses <= length ms)%nat
  /\ validMetrics = Z.of_nat (length ms).

End BandScan.

(* ===================================================================== *)
(** ** Economic indicators (enhancedDataService.fetchEconomicIndicators)  *)
(* ===================================================================== *)

Module Indicators.

(** One FRED observation [{ value, date }]. *)
Record observation : Type := { o_value : jsval; o_date : jsval }.

(** A settled [fetch] of one series.  [body] is what reading the JSON
    body gives: the [observations] array ([None] when the property is
    absent or falsy), or the error thrown when the body cannot be parsed
    or does not have that shape. *)
Record response : Type := {
  ok : bool;
  statusText : string;
  body : completion (option (list observation))
}.

(** What the callback of [seriesIds.map] resolves to; an absent property
    reads as [undefined], [data: null] is [None]. *)
Record seriesResult : Type := {
  sr_seriesId : string;
  sr_value : jsval;
  sr_date : jsval;
  sr_data : option (list observation);
  sr_error : option string
}.

Record indicator : Type := {
  i_value : jsval;
  i_date : jsval;
  i_historical : option (list observation)
}.

(** The resolved object: [{ indicators, timestamp, source }] or, from the
    [catch], [{ indicators: {}, error, timestamp }]. *)
Record outcome : Type := {
  indicators : gmap string indicator;
  error : option jsval;
  source : option string;
  timestamp : string
}.

(** [obs.value !== '.'] *)
Definition usable (obs : observation) : bool :=
  match o_value obs with
  | JStr s => negb (String.eqb s ".")
  | _ => true
  end.

(** [observations.find(obs => obs.value !== '.')?.value] *)
Definition latestValue (observations : list observation) : jsval :=
  match List.find usable observations with
  | Some obs => o_value obs
  | None => JUndefined
  end.

(** [v !== null] *)
Definition not_null (v : jsval) : bool :=
  match v with JNull => false | _ => true end.

Section WithParse.
(** The built-in [parseFloat]. *)
Variable parseFloat : jsval -> jsnum.

(** The callback of [seriesIds.map], given the settled [fetch]. *)
Definition seriesCallback (seriesId : string) (fetched : completion response)
  : settled seriesResult :=
  match fetched with
  | Throw e => Rejected e
  | Normal response =>
      if negb (ok response) then
        Fulfilled {| sr_seriesId := seriesId; sr_value := JUndefined;
                     sr_date := JUndefined; sr_data := None;
                     sr_error := Some (statusText response) |}
      else
        match body response with
        | Throw e => Rejected e
        | Normal data_observations =>
            let observations :=
              match data_observations with Some l => l | None => nil end in
            let latest := latestValue observations in
            Fulfilled
              {| sr_seriesId := seriesId;
                 sr_value :=
                   if truthy latest then JNum (parseFloat latest) else JNull;
                 sr_date :=
                   match observations with
                   | obs :: _ => o_date obs
                   | nil => JUndefined
                   end;
                 sr_data := Some (firstn 6 observations);
                 sr_error := None |}
        end
  end.

(** The [reduce] that builds [indicators], as the map of its own
    properties: an assignment to the key ['__proto__'] adds no
    property. *)
Definition collect (results : list seriesResult) : gmap string indicator :=
  fold_left
    (fun acc result =>
       if not_null (sr_value result)
          && negb (String.eqb (sr_seriesId result) "__proto__")
       then <[sr_seriesId result :=
                {| i_value := sr_value result; i_date := sr_date result;
                   i_historical := sr_data result |}]> acc
       else acc)
    results ∅.

(** [fetchEconomicIndicators(seriesIds)] after a cache miss: [series]
    pairs each requested id with its settled [fetch], [now] is the
    timestamp string.  When several series fail, [Promise.all] reports
    one of the failures (here the leftmost). *)
Definition fetchEconomicIndicators (series : list (string * completion response))
           (now : string) : settled outcome :=
  match Batch.Promise_all
          (map (fun s => seriesCallback (fst s) (snd s)) series) with
  | Fulfilled results =>
      Fulfilled {| indicators := collect results; error := None;
                   source := Some "api"; timestamp := now |}
  | Rejected e =>
      match thrown_message e with
      | Normal message =>
          Fulfilled {| indicators := ∅; error := Some message;
                       source := None; timestamp := now |}
      | Throw e' => Rejected e'
      end
  end.

End WithParse.

(** The entry the [reduce] stores for a series result. *)
Definition indicator_of (r : seriesResult) : indicator :=
  {| i_value := sr_value r; i_date := sr_date r; i_historical := sr_data r |}.

(** A series is listed when its request was refused, or when it
    answered with a usable observation of truthy value. *)
Definition listable (fetched : completion response) : Prop :=
  exists response,
    fetched = Normal response
    /\ (ok response = false
        \/ exists data_observations,
             body response = Normal data_observations
             /\ truthy (latestValue
                          (match data_observations with
                           | Some l => l
                           | None => nil
                           end)) = true).

(** A series whose request settled without throwing. *)
Definition answered (fetched : completion response) : Prop :=
  exists response,
    fetched = Normal response
    /\ (ok response = false \/ exists d, body response = Normal d).

(** Two series: UNRATE refused by the server, GDP answered with a
    placeholder only. *)
Definition sample_series : list (string * completion response) :=
  ("UNRATE",
   Normal {| ok := false; statusText := "Bad Request";
             body := Throw (ErrorObj "unused") |})
  :: ("GDP",
      Normal {| ok := true; statusText := "OK";
                body := Normal (Some ({| o_value := JStr ".";
                                         o_date := JStr "2024-07-01" |}
                                      :: nil)) |})
  :: nil.

End Indicators.

(* ===================================================================== *)
(** ** Trend of a series (financialDataService.calculateTrend)            *)
(* ===================================================================== *)

Module Trend.
Import Indicators.
Local Open Scope Q_scope.

(** Arithmetic on doubles; a zero is +0. *)
Definition num_sub (a b : jsnum) : jsnum :=
  match a, b with
  | NaN, _ | _, NaN => NaN
  | Fin x, Fin y => Fin (x - y)
  | Fin _, PosInf => NegInf
  | Fin _, NegInf => PosInf
  | PosInf, PosInf => NaN
  | PosInf, _ => PosInf
  | NegInf, NegInf => NaN
  | NegInf, _ => NegInf
  end.

Definition num_div (a b : jsnum) : jsnum :=
  match a, b with
  | NaN, _ | _, NaN => NaN
  | Fin x, Fin y => js_div x y
  | Fin _, _ => Fin 0
  | PosInf, Fin y => if Qle_bool 0 y then PosInf else NegInf
  | NegInf, Fin y => if Qle_bool 0 y then NegInf else PosInf
  | _, _ => NaN
  end.

(** [a * 100] *)
Definition times100 (a : jsnum) : jsnum :=
  match a with Fin x => Fin (x * 100) | other => other end.

(** [Math.abs] *)
Definition Math_abs (a : jsnum) : jsnum :=
  match a with
  | Fin x => Fin (Qabs x)
  | NegInf => PosInf
  | other => other
  end.

Section WithParse.
(** The built-in [parseFloat]. *)
Variable parseFloat : jsval -> jsnum.

(** [calculateTrend(observations)] for an array of observations, newest
    first. *)
Definition calculateTrend (observations : list observation) : string :=
  if (length observations <? 2)%nat then "stable"
  else
    let validObs :=
      firstn 3 (map (fun obs => parseFloat (o_value obs))
                    (List.filter usable observations)) in
    match validObs with
    | recent :: previous :: _ =>
        let change := times100 (num_div (num_sub recent previous) previous) in
        if num_lt (Math_abs change) 1 then "stable"
        else if num_gt change 0 then "up" else "down"
    | _ => "stable"
    end.

End WithParse.

(** Parsing of the sample values below. *)
Definition sample_parse (v : jsval) : jsnum :=
  match v with
  | JStr "-2.0" => Fin (-2)
  | JStr "-1.0" => Fin (-1)
  | JStr "0" => Fin 0
  | _ => NaN
  end.

Definition obs (value : string) : observation :=
  {| o_value := JStr value; o_date := JStr "2024-07-01" |}.

End Trend.

(* ===================================================================== *)
(** ** Industry context (financialDataService.fetchIndustryContext)       *)
(* ===================================================================== *)

Module Context.
Import Indicators.

(** [INSURANCE_INDUSTRY_SERIES], as [Object.entries] lists it. *)
Definition INSURANCE_INDUSTRY_SERIES : list (string * string) :=
  ("INSURANCE_PREMIUMS", "IIPNET")
  :: ("PROPERTY_CLAIMS", "IIPCLM")
  :: ("INTEREST_RATES", "FEDFUNDS")
  :: ("INFLATION", "CPIAUCSL")
  :: ("UNEMPLOYMENT", "UNRATE")
  :: nil.

(** What the callback of the [map] resolves to; an absent property is
    [None] or reads as [undefined]. *)
Record seriesResult : Type := {
  sr_key : string;
  sr_seriesId : option string;
  sr_value : jsval;
  sr_date : jsval;
  sr_trend : option string;
  sr_error : option jsval
}.

(** An entry of [context]. *)
Record entry : Type := {
  e_value : jsval;
  e_date : jsval;
  e_trend : option string;
  e_seriesId : option string
}.

Record outcome : Type := {
  context : gmap string entry;
  error : option jsval;
  source : option string;
  timestamp : string
}.

(** [{ key, data: null, error }] *)
Definition failed (key : string) (error : jsval) : seriesResult :=
  {| sr_key := key; sr_seriesId := None; sr_value := JUndefined;
     sr_date := JUndefined; sr_trend := None; sr_error := Some error |}.

Section WithParse.
Variable parseFloat : jsval -> jsnum.

(** The inner [catch] of the callback. *)
Definition caught (key : string) (error : thrown) : settled seriesResult :=
  match thrown_message error with
  | Normal message => Fulfilled (failed key message)
  | Throw e => Rejected e
  end.

(** The callback of the [map] over the series, given the settled
    [fetch]. *)
Definition seriesCallback (key seriesId : string)
           (fetched : completion response) : settled seriesResult :=
  match fetched with
  | Throw e => caught key e
  | Normal response =>
      if negb (ok response) then
        Fulfilled (failed key (JStr (statusText response)))
      else
        match body response with
        | Throw e => caught key e
        | Normal data_observations =>
            let observations :=
              match data_observations with Some l => l | None => nil end in
            let latest := latestValue observations in
            Fulfilled
              {| sr_key := key; sr_seriesId := Some seriesId;
                 sr_value :=
                   if truthy latest then JNum (parseFloat latest) else JNull;
                 sr_date :=
                   match observations with
                   | obs :: _ => o_date obs
                   | nil => JUndefined
                   end;
                 sr_trend :=
                   Some (Trend.calculateTrend parseFloat (firstn 4 observations));
                 sr_error := None |}
        end
  end.

Definition entry_of (result : seriesResult) : entry :=
  {| e_value := sr_value result; e_date := sr_date result;
     e_trend := sr_trend result; e_seriesId := sr_seriesId result |}.

(** The [reduce] that builds [context]. *)
Definition collect (results : list seriesResult) : gmap string entry :=
  fold_left
    (fun acc result =>
       if not_null (sr_value result)
       then <[sr_key result := entry_of result]> acc
       else acc)
    results ∅.

(** [fetchIndustryContext()] after a cache miss; [fetched seriesId] is
    the settled [fetch] of that series and [now] the timestamp string. *)
Definition fetchIndustryContext (fetched : string -> completion response)
           (now : string) : settled outcome :=
  match Batch.Promise_all
          (map (fun s => seriesCallback (fst s) (snd s) (fetched (snd s)))
               INSURANCE_INDUSTRY_SERIES) with
  | Fulfilled results =>
      Fulfilled {| context := collect results; error := None;
                   source := Some "api"; timestamp := now |}
  | Rejected e =>
      match thrown_message e with
      | Normal message =>
          Fulfilled {| context := ∅; error := Some message;
                       source := None; timestamp := now |}
      | Throw e' => Rejected e'
      end
  end.

(** What a series contributes to [context]. *)
Definition contribution (seriesId : string) (fetched : completion response)
  : option entry :=
  match fetched with
  | Throw _ =>
      Some {| e_value := JUndefined; e_date := JUndefined; e_trend := None;
              e_seriesId := None |}
  | Normal response =>
      if negb (ok response) then
        Some {| e_value := JUndefined; e_date := JUndefined; e_trend := None;
                e_seriesId := None |}
      else
        match body response with
        | Throw _ =>
            Some {| e_value := JUndefined; e_date := JUndefined;
                    e_trend := None; e_seriesId := None |}
        | Normal data_observations =>
            let observations :=
              match data_observations with Some l => l | None => nil end in
            if truthy (latestValue observations) then
              Some {| e_value := JNum (parseFloat (latestValue observations));
                      e_date :=
                        match observations with
                        | obs :: _ => o_date obs
                        | nil => JUndefined
                        end;
                      e_trend :=
                        Some (Trend.calculateTrend parseFloat
                                                   (firstn 4 observations));
                      e_seriesId := Some seriesId |}
            else None
        end
  end.

End WithParse.

(** Whatever the series request throws has a readable [message]. *)
Definition readable (fetched : completion response) : Prop :=
  match fetched with
  | Throw e => exists message, thrown_message e = Normal message
  | Normal response =>
      match body response with
      | Throw e =>
          ok response = true -> exists message, thrown_message e = Normal message
      | Normal _ => True
      end
  end.

(** The network is down for every series but UNRATE, which answers with
    two observations. *)
Definition sample_fetched (seriesId : string) : completion response :=
  if String.eqb seriesId "UNRATE"
  then Normal {| ok := true; statusText := "OK";
                 body := Normal (Some (Trend.obs "-2.0" :: Trend.obs "-1.0"
                                       :: nil)) |}
  else Throw (ErrorObj "Failed to fetch").

End Context.
(* ===================================================================== *)
(** ** Properties of the Metric Calculator                                *)
(* ===================================================================== *)

Section RoundingFacts.
Local Open Scope Q_scope.

(** [Math.round] brackets its argument within half a unit. *)
Lemma Math_round_bounds (x : Q) :
  inject_Z (Math_round x) - (1 # 2) <= x /\ x < inject_Z (Math_round x) + (1 # 2).
Proof.
  unfold Math_round.
  pose proof (Qfloor_le (x + (1 # 2))) as Hlo.
  pose proof (Qlt_floor (x + (1 # 2))) as Hhi.
  rewrite inject_Z_plus in Hhi. change (inject_Z 1) with 1 in Hhi.
  split; lra.
Qed.


(** An integer strictly below [n + 1] (as rationals) is at most [n]. *)
Lemma inject_Z_lt_succ (a n : Z) :
  inject_Z a < inject_Z n + 1 -> (a <= n)%Z.
Proof.
  intros H.
  change 1 with (inject_Z 1) in H. rewrite <- inject_Z_plus in H.
  rewrite <- Zlt_Qlt in H. lia.
Qed.

Lemma Math_round_lower (n : Z) (x : Q) :
  inject_Z n <= x -> (n <= Math_round x)%Z.
Proof.
  intros H. destruct (Math_round_bounds x) as [_ Hhi].
  assert (Hlt : (n < Math_round x + 1)%Z); [| lia].
  rewrite Zlt_Qlt, inject_Z_plus. change (inject_Z 1) with 1. lra.
Qed.

Lemma Math_round_upper (n : Z) (x : Q) :
  x <= inject_Z n -> (Math_round x <= n)%Z.
Proof.
  intros H. destruct (Math_round_bounds x) as [Hlo _].
  apply inject_Z_lt_succ. lra.
Qed.






End RoundingFacts.

(** Division by the literals 10 and 100 as multiplication, for [lra]. *)
Ltac qdiv_const :=
  unfold Qdiv in *;
  change (/ 10)%Q with (1 # 10)%Q in *;
  change (/ 100)%Q with (1 # 100)%Q in *.

Section CalculatorFacts.
Local Open Scope Q_scope.
Import Calc.

Lemma expenseRatio_clamped (fd : RawFinancialRecord) :
  15 <= expenseRatio fd <= 35.
Proof.
  unfold expenseRatio. split.
  - apply Q.min_glb; [| lra].
    apply Q.le_max_r.
  - apply Q.le_min_r.
Qed.

Lemma round1_bounds (lo hi : Z) (x : Q) :
  inject_Z lo <= x * 10 <= inject_Z hi ->
  inject_Z lo / 10 <= round1 x <= inject_Z hi / 10.
Proof.
  intros [Hlo Hhi]. unfold round1.
  apply Math_round_lower in Hlo. apply Math_round_upper in Hhi.
  rewrite Zle_Qle in Hlo, Hhi. qdiv_const. split; lra.
Qed.

End CalculatorFacts.

Section CalculatorClaims.
Local Open Scope Q_scope.
Import Calc.

Example sample_expenseRatio :
  m_expenseRatio (calculateInsuranceMetrics sample_record (1 # 100)) == 20.
Proof. vm_compute. reflexivity. Qed.

Example sample_lossRatio :
  m_lossRatio (calculateInsuranceMetrics sample_record (1 # 100)) == 75.
Proof. vm_compute. reflexivity. Qed.

Example sample_combinedRatio :
  m_combinedRatio (calculateInsuranceMetrics sample_record (1 # 100)) == 951 # 10.
Proof. vm_compute. reflexivity. Qed.

Example tie_lossRatio :
  m_lossRatio (calculateInsuranceMetrics tie_record (1 # 32)) == 713 # 10.
Proof. vm_compute. reflexivity. Qed.

Example tie_combinedRatio :
  m_combinedRatio (calculateInsuranceMetrics tie_record (1 # 32)) == 963 # 10.
Proof. vm_compute. reflexivity. Qed.

Example tie_underwritingProfitMargin :
  m_underwritingProfitMargin (calculateInsuranceMetrics tie_record (1 # 32))
  == 38 # 10.
Proof. vm_compute. reflexivity. Qed.



(** C6: the returned expenseRatio lies in [15, 35] for every record and
    every draw. *)
Theorem C6_expenseRatio_range (fd : RawFinancialRecord) (rnd : Q) :
  15 <= m_expenseRatio (calculateInsuranceMetrics fd rnd) <= 35.
Proof.
  cbn [calculateInsuranceMetrics m_expenseRatio].
  destruct (expenseRatio_clamped fd) as [Hlo Hhi].
  destruct (round1_bounds 150 350 (expenseRatio fd)) as [H1 H2].
  { change (inject_Z 150) with 150. change (inject_Z 350) with 350.
    split; lra. }
  change (inject_Z 150) with 150 in H1. change (inject_Z 350) with 350 in H2.
  qdiv_const. split; lra.
Qed.

Example empty_record_expenseRatio :
  m_expenseRatio (calculateInsuranceMetrics empty_record (1 # 2)) == 15.
Proof. vm_compute. reflexivity. Qed.

Example negative_revenue_expenseRatio :
  m_expenseRatio (calculateInsuranceMetrics negative_revenue_record (1 # 2)) == 15.
Proof. vm_compute. reflexivity. Qed.

Example large_expenses_expenseRatio :
  m_expenseRatio
    (calculateInsuranceMetrics
       {| revenue := Some 1; netIncome := None; totalAssets := None;
          totalStockholdersEquity := None; weightedAverageShsOut := None;
          sellingGeneralAndAdministrativeExpenses := Some 1000000000000;
          totalDebt := None; operatingExpenses := None;
          investmentIncome := None; symbol := None; calendarYear := None;
          period := None |} 0) == 35.
Proof. vm_compute. reflexivity. Qed.

End CalculatorClaims.

(* ===================================================================== *)
(** ** Properties of the cache                                            *)
(* ===================================================================== *)

Section CacheFacts.
Local Open Scope Z_scope.
Import Cache.
Context {V : Type}.

Lemma get_present (cache : gmap string (item V)) key it now :
  cache !! key = Some it ->
  get cache key now =
    if now <=? expiry it then (Some (value it), cache)
    else (None, delete key cache).
Proof.
  intros H. unfold get. rewrite H.
  destruct (Z.gtb_spec now (expiry it)), (Z.leb_spec now (expiry it));
    try lia; reflexivity.
Qed.

Lemma get_absent (cache : gmap string (item V)) key now :
  cache !! key = None -> get cache key now = (None, cache).
Proof. intros H. unfold get. now rewrite H. Qed.

(** What [set] leaves under the key it wrote: the new entry, unless the
    oversize cleanup already dropped it as expired. *)
Lemma set_lookup (cache : gmap string (item V)) key v ttl now now' :
  let it := {| value := v; expiry := now + default CACHE_DURATION ttl |} in
  set cache key v ttl now now' !! key = Some it
  \/ (set cache key v ttl now now' !! key = None /\ expiry it < now').
Proof.
  intros it. unfold set.
  replace (match ttl with Some t => t | None => CACHE_DURATION end)
    with (default CACHE_DURATION ttl) by (destruct ttl; reflexivity).
  fold it.
  destruct (100 <? _).
  - destruct (decide (expiry it < now')) as [Hlt | Hge].
    + right. split; [| exact Hlt].
      apply map_lookup_filter_None. right. intros x Hx.
      rewrite lookup_insert_eq in Hx. injection Hx as <-. simpl. tauto.
    + left. apply map_lookup_filter_Some. split; [apply lookup_insert_eq |].
      exact Hge.
  - left. apply lookup_insert_eq.
Qed.

End CacheFacts.

Section CacheClaims.
Local Open Scope Z_scope.
Import Cache.

Example sample_cache_immediate :
  fst (get sample_cache "k" 0) = Some "payload".
Proof. reflexivity. Qed.

Example sample_cache_after_150 :
  fst (get sample_cache "k" 150) = None.
Proof. reflexivity. Qed.

(** C4, as stated, fails at the boundary: a value set at time 0 with a
    TTL of 100 ms is still returned by a [get] at time 100, although 100
    is not strictly before the expiry 0 + 100. *)
Lemma C4_counterexample :
  ~ (fst (get sample_cache "k" 100) = Some "payload" <-> 100 < 0 + 100).
Proof.
  intros [H _]. assert (Hlt : 100 < 0 + 100) by (apply H; reflexivity). lia.
Qed.

(** C4 (amended): after [set] at time [now] with TTL [ttl], a [get] at a
    time [t] not before the clock reads of that [set] returns the stored
    value exactly when [t] is at most the expiry [now + ttl] (the boundary
    instant is still a hit); otherwise it returns the null sentinel and
    the entry is gone from the map.  [get] is a total function (it does
    not throw).  With a TTL of 100 ms the value is retrievable immediately
    and a [get] 150 ms after the [set] misses. *)
Theorem C4_get_after_set {V : Type} (cache : gmap string (item V))
    (key : string) (v : V) (ttl : Z) (now now' t : Z) :
  now' <= t ->
  let cache' := set cache key v (Some ttl) now now' in
  (fst (get cache' key t) = Some v <-> t <= now + ttl)
  /\ (now + ttl < t ->
      get cache' key t = (None, delete key cache')
      /\ snd (get cache' key t) !! key = None)
  /\ (t <= now + ttl -> get cache' key t = (Some v, cache'))
  /\ (ttl = 100 -> now' = now ->
      fst (get cache' key now) = Some v
      /\ (t = now + 150 -> fst (get cache' key t) = None)).
Proof.
  intros Ht cache'.
  assert (Hkey :
    forall t', now' <= t' ->
      get cache' key t' =
        if t' <=? now + ttl then (Some v, cache')
        else (None, delete key cache')).
  { intros t' Ht'.
    destruct (set_lookup cache key v (Some ttl) now now') as [Hin | [Hout Hexp]];
      fold cache' in Hin || fold cache' in Hout; simpl in *.
    - rewrite (get_present _ _ _ _ Hin). reflexivity.
    - rewrite (get_absent _ _ _ Hout).
      destruct (Z.leb_spec t' (now + ttl)); [lia |].
      rewrite delete_id by exact Hout. reflexivity. }
  split; [| split; [| split]].
  - rewrite (Hkey t Ht).
    destruct (Z.leb_spec t (now + ttl)); simpl; split; intros; try lia;
      try reflexivity; discriminate.
  - intros Hlt. rewrite (Hkey t Ht).
    destruct (Z.leb_spec t (now + ttl)); [lia |].
    split; [reflexivity | apply lookup_delete_eq].
  - intros Hle. rewrite (Hkey t Ht).
    destruct (Z.leb_spec t (now + ttl)); [reflexivity | lia].
  - intros -> ->. split.
    + rewrite (Hkey now (Z.le_refl now)).
      destruct (Z.leb_spec now (now + 100)); [reflexivity | lia].
    + intros ->. rewrite (Hkey _ Ht).
      destruct (Z.leb_spec (now + 150) (now + 100)); [lia | reflexivity].
Qed.

Lemma C4_get_after_set_witness :
  (fst (get sample_cache "k" 100) = Some "payload" <-> 100 <= 0 + 100)
  /\ fst (get sample_cache "k" 150) = None.
Proof.
  pose proof (C4_get_after_set ∅ "k" "payload" 100 0 0 100 ltac:(lia)) as [H1 _].
  pose proof (C4_get_after_set ∅ "k" "payload" 100 0 0 150 ltac:(lia))
    as [_ [_ [_ H4]]].
  split; [exact H1 |].
  apply (proj2 (H4 eq_refl eq_refl)). reflexivity.
Defined.

End CacheClaims.

(* ===================================================================== *)
(** ** Properties of the Benchmark Classifier                             *)
(* ===================================================================== *)

Section BenchFacts.
Local Open Scope Q_scope.
Import Bench.

(** The loop returns exactly the entry the specification's rule picks. *)
Lemma first_band_spec (v : jsnum) (es : list (string * band)) rating range :
  first_containing v es rating range ->
  first_band v es = Some (rating, range).
Proof.
  intros (pre & post & -> & Hin & Hpre).
  induction Hpre as [| [k r] pre Hr _ IH]; simpl.
  - now rewrite Hin.
  - simpl in Hr. now rewrite Hr.
Qed.

Lemma first_band_outside (v : jsnum) (es : list (string * band)) :
  outside_every_band v es -> first_band v es = None.
Proof.
  intros H. induction H as [| [k r] es Hr _ IH]; simpl; [reflexivity |].
  simpl in Hr. now rewrite Hr.
Qed.

Lemma Qgtb_true (x y : Q) : Qgtb x y = true <-> y < x.
Proof.
  unfold Qgtb. rewrite negb_true_iff, <- not_true_iff_false, Qle_bool_iff.
  split; [apply Qnot_le_lt | apply Qlt_not_le].
Qed.

Lemma Qltb_true (x y : Q) : Qltb x y = true <-> x < y.
Proof. apply (Qgtb_true y x). Qed.

(** In every table the excellent and the critical band lie on opposite
    sides: no value is beyond both. *)
Lemma not_beyond_both (metric size : string) (b : bands) (v : jsnum) :
  benchmarks_for metric size = Some b ->
  if lowerIsBetter metric
  then num_gt v (max (critical b)) = true -> num_lt v (min (excellent b)) = false
  else num_lt v (min (critical b)) = true -> num_gt v (max (excellent b)) = false.
Proof.
  unfold benchmarks_for, INDUSTRY_BENCHMARKS_2024.
  repeat (cbn [assoc];
          match goal with
          | |- context [String.eqb ?a metric] =>
              destruct (String.eqb_spec a metric) as [<- | _]
          | |- context [String.eqb ?a size] =>
              destruct (String.eqb_spec a size) as [<- | _]
          end);
    cbn [assoc]; try discriminate; intros [= <-];
    cbn; destruct v as [q | | |]; cbn; try congruence;
    rewrite ?Qgtb_true, ?Qltb_true; intros Hgt;
    apply not_true_iff_false; rewrite ?Qgtb_true, ?Qltb_true; lra.
Qed.

End BenchFacts.

Section BenchClaims.
Local Open Scope Q_scope.
Import Bench.

(** C5: for every metric and size class that has a band table and every
    number, the rating and the percentile are those of the first band,
    in the order excellent, good, average, poor, critical, whose closed
    interval holds the value; a value outside every band gets percentile
    95 beyond the excellent band on the favorable side (low for
    combinedRatio and lossRatio, high for roe) and 5 beyond the critical
    band on the other side.  combinedRatio at size large: 92 is
    excellent, 103 is in the middle band, 150 has percentile 5. *)
Theorem C5_first_band_wins (metric size : string) (b : bands) (v : jsnum) :
  benchmarks_for metric size = Some b ->
  map fst (entries b)
    = "excellent" :: "good" :: "average" :: "poor" :: "critical" :: nil
  /\ (forall rating range,
        first_containing v (entries b) rating range ->
        option_map ma_rating (analyzeMetric metric v size) = Some rating
        /\ option_map ma_percentile (analyzeMetric metric v size)
           = Some (percentile range)
        /\ calculateIndustryPercentile metric (JNum v) (Some size)
           = percentile range)
  /\ (outside_every_band v (entries b) ->
      let beyond_excellent :=
        if lowerIsBetter metric then num_lt v (min (excellent b))
        else num_gt v (max (excellent b)) in
      let beyond_critical :=
        if lowerIsBetter metric then num_gt v (max (critical b))
        else num_lt v (min (critical b)) in
      (beyond_excellent = true ->
       calculateIndustryPercentile metric (JNum v) (Some size) = 95%Z)
      /\ (beyond_critical = true ->
          calculateIndustryPercentile metric (JNum v) (Some size) = 5%Z))
  /\ lowerIsBetter "combinedRatio" = true
  /\ lowerIsBetter "lossRatio" = true
  /\ lowerIsBetter "roe" = false
  /\ option_map ma_rating (analyzeMetric "combinedRatio" (Fin 92) "large")
     = Some "excellent"
  /\ option_map ma_rating (analyzeMetric "combinedRatio" (Fin 103) "large")
     = Some "average"
  /\ calculateIndustryPercentile "combinedRatio" (num 150) (Some "large") = 5%Z.
Proof.
  intros Hb.
  split; [reflexivity |].
  split; [| split; [| repeat split]].
  - intros rating range Hfirst.
    apply first_band_spec in Hfirst.
    unfold analyzeMetric, calculateIndustryPercentile.
    rewrite Hb, Hfirst. repeat split; reflexivity.
  - intros Hout. apply first_band_outside in Hout.
    pose proof (not_beyond_both metric size b v Hb) as Hsides.
    unfold calculateIndustryPercentile. rewrite Hb, Hout.
    destruct (lowerIsBetter metric); cbv zeta; split; intros H.
    + now rewrite H.
    + now rewrite (Hsides H), H.
    + now rewrite H.
    + now rewrite (Hsides H), H.
Qed.

Lemma C5_first_band_wins_witness :
  option_map ma_rating (analyzeMetric "combinedRatio" (Fin 95) "large")
  = Some "excellent"
  /\ calculateIndustryPercentile "combinedRatio" (num 95) (Some "large")
     = 90%Z.
Proof.
  pose proof (C5_first_band_wins "combinedRatio" "large" _ (Fin 95) eq_refl)
    as [_ [Hfirst _]].
  destruct (Hfirst "excellent" (mk 88 95 90)) as [Hrating [_ Hpct]].
  { exists nil. eexists. split; [reflexivity |].
    split; [reflexivity | constructor]. }
  split; [exact Hrating | exact Hpct].
Defined.

Example boundary_value_rates_excellent :
  option_map ma_rating (analyzeMetric "combinedRatio" (Fin 95) "large")
  = Some "excellent".
Proof. reflexivity. Qed.

Example roe_above_excellent :
  calculateIndustryPercentile "roe" (num 30) (Some "large") = 95%Z.
Proof. reflexivity. Qed.

(** C9, as stated, fails at 0: a premium volume of 0 is classified
    'medium', not 'small'. *)
Lemma C9_counterexample : getCompanySize (num 0) <> "small".
Proof. vm_compute. discriminate. Qed.

(** C9 (amended): 'large' from 10000 up, 'medium' from 1000 up to (not
    including) 10000, 'small' for every other nonzero number, and
    'medium' for 0, for NaN and for every non-numeric input. *)
Theorem C9_size_classes (premiumVolume : jsval) :
  match premiumVolume with
  | JNum (Fin q) =>
      (10000 <= q -> getCompanySize premiumVolume = "large")
      /\ (1000 <= q < 10000 -> getCompanySize premiumVolume = "medium")
      /\ (q < 1000 -> ~ q == 0 -> getCompanySize premiumVolume = "small")
      /\ (q == 0 -> getCompanySize premiumVolume = "medium")
  | JNum PosInf => getCompanySize premiumVolume = "large"
  | JNum NegInf => getCompanySize premiumVolume = "small"
  | JNum NaN => getCompanySize premiumVolume = "medium"
  | _ => getCompanySize premiumVolume = "medium"
  end.
Proof.
  destruct premiumVolume as [| | bb | [q | | |] | s | props];
    try reflexivity.
  - unfold getCompanySize. cbn. destruct bb; reflexivity.
  - unfold getCompanySize, truthy, is_number, num_ge. cbn [negb orb].
    destruct (Qeq_bool q 0) eqn:Hz; cbn [negb orb].
    + apply Qeq_bool_iff in Hz. repeat split; intros; try reflexivity; lra.
    + assert (Hnz : ~ q == 0).
      { intros H. apply Qeq_bool_iff in H. congruence. }
      destruct (Qle_bool 10000 q) eqn:H1.
      { apply Qle_bool_iff in H1. repeat split; intros; try reflexivity; lra. }
      assert (H1' : q < 10000).
      { apply Qnot_le_lt. intros H. apply Qle_bool_iff in H. congruence. }
      destruct (Qle_bool 1000 q) eqn:H2.
      { apply Qle_bool_iff in H2. repeat split; intros; try reflexivity; lra. }
      assert (H2' : q < 1000).
      { apply Qnot_le_lt. intros H. apply Qle_bool_iff in H. congruence. }
      repeat split; intros; try reflexivity; try lra; contradiction.
  - unfold getCompanySize. cbn. destruct (negb (s =? "")%string); reflexivity.
Qed.

Lemma C9_size_classes_witness :
  getCompanySize (num 12000) = "large"
  /\ getCompanySize (num 2500) = "medium"
  /\ getCompanySize (num 999) = "small"
  /\ getCompanySize (num (-3)) = "small"
  /\ getCompanySize (num 0) = "medium".
Proof.
  split; [| split; [| split; [| split]]].
  - apply (proj1 (C9_size_classes (num 12000))). vm_compute. discriminate.
  - apply (proj1 (proj2 (C9_size_classes (num 2500)))).
    split; vm_compute; [discriminate | reflexivity].
  - apply (proj1 (proj2 (proj2 (C9_size_classes (num 999))))).
    + vm_compute. reflexivity.
    + vm_compute. discriminate.
  - apply (proj1 (proj2 (proj2 (C9_size_classes (num (-3)))))).
    + vm_compute. reflexivity.
    + vm_compute. discriminate.
  - apply (proj2 (proj2 (proj2 (C9_size_classes (num 0))))). reflexivity.
Defined.

End BenchClaims.

(* ===================================================================== *)
(** ** Properties of the Validation Engine                                *)
(* ===================================================================== *)

Section ValidationScoring.
Local Open Scope Q_scope.
Import Validation.

Lemma Qle_bool_false (x y : Q) : Qle_bool x y = false <-> y < x.
Proof.
  rewrite <- not_true_iff_false, Qle_bool_iff.
  split; [apply Qnot_le_lt | apply Qlt_not_le].
Qed.

(** Above a bound, [<=] against any smaller bound fails. *)
Lemma num_le_above (v : jsnum) (hi b : Q) :
  num_gt v hi = true -> b <= hi -> num_le v b = false.
Proof.
  destruct v as [q | | |]; cbn; try congruence.
  rewrite Qgtb_true, Qle_bool_false. intros; lra.
Qed.

(** C10: a roe above 25 is outside every roe band, so [validateMetric]
    rates it 'outlier', which is worth 10 score points, and
    [calculatePercentile] returns 10; a fair roe of 8 scores 60 and has
    percentile 90. *)
Theorem C10_high_roe_is_outlier (v : jsnum) :
  num_gt v 25 = true ->
  rating (validateMetric "roe" (JNum v)) = "outlier"
  /\ score_of (rating (validateMetric "roe" (JNum v))) = 10%Z
  /\ calculatePercentile "roe" v = 10%Z
  /\ score_of (rating (validateMetric "roe" (num 8))) = 60%Z
  /\ calculatePercentile "roe" (Fin 8) = 90%Z.
Proof.
  intros Hv.
  assert (Hle : forall b, b <= 25 -> num_le v b = false)
    by (intros b Hb; exact (num_le_above v 25 b Hv Hb)).
  assert (Hrating : rating (validateMetric "roe" (JNum v)) = "outlier").
  { unfold validateMetric. cbn [assoc INDUSTRY_BENCHMARKS String.eqb].
    cbn -[num_ge num_le].
    rewrite !Hle by lra. rewrite !andb_false_r. reflexivity. }
  split; [exact Hrating |].
  split; [rewrite Hrating; reflexivity |].
  split; [| split; reflexivity].
  unfold calculatePercentile. cbn -[num_le].
  rewrite !Hle by lra. reflexivity.
Qed.

Lemma C10_high_roe_is_outlier_witness :
  rating (validateMetric "roe" (num 30)) = "outlier"
  /\ calculatePercentile "roe" (Fin 30) = 10%Z.
Proof.
  destruct (C10_high_roe_is_outlier (Fin 30) eq_refl) as [H1 [_ [H3 _]]].
  split; assumption.
Defined.

(** C2 fails on the code: with combinedRatio 88.7, roe 20, lossRatio
    63.7 and expenseRatio 25 every core metric rates excellent, the SEC
    bonus makes the total 410, and the report carries
    overallScore = round (410 / 4) = 103. *)
Theorem C2_overallScore_exceeds_100
    (ToString : jsval -> string) (ToNumber : jsval -> jsnum) :
  exists r,
    validateCompanyData ToString ToNumber "CB" excellent_data
                        sec_verified econ_empty "2024-06-30T00:00:00.000Z"
    = Fulfilled r
    /\ overallScore r = 103%Z
    /\ dataQuality r = "excellent"
    /\ map (fun e => rating (ve_result e)) (validations r)
       = "excellent" :: "excellent" :: "excellent" :: "excellent" :: nil.
Proof.
  eexists. split; [vm_compute; reflexivity |].
  repeat split.
Qed.

(** With a single scored metric the bonus is not diluted: the score is
    100 + 10. *)
Example single_metric_score
    (ToString : jsval -> string) (ToNumber : jsval -> jsnum) :
  exists r,
    validateCompanyData ToString ToNumber "CB" roe_only_data
                        sec_verified econ_empty "2024-06-30T00:00:00.000Z"
    = Fulfilled r
    /\ overallScore r = 110%Z.
Proof. eexists. split; [vm_compute; reflexivity | reflexivity]. Qed.

(** Without the bonus the same four excellent metrics score 100. *)
Example excellent_without_bonus
    (ToString : jsval -> string) (ToNumber : jsval -> jsnum) :
  exists r,
    validateCompanyData ToString ToNumber "ZZZZ" excellent_data
      (Fulfilled (JObj (("error", JStr "CIK not found for ticker ZZZZ") :: nil)))
      econ_empty "2024-06-30T00:00:00.000Z"
    = Fulfilled r
    /\ overallScore r = 100%Z
    /\ map n_type (warnings r) = "sec_validation" :: nil.
Proof. eexists. split; [vm_compute; reflexivity | split; reflexivity]. Qed.

End ValidationScoring.

Section ValidationControl.
Import Validation.
Variable ToString : jsval -> string.
Variable ToNumber : jsval -> jsnum.

(** *** Inversion of sequencing *)

Lemma bind_inv {A B : Type} (c : M A) (k : A -> M B) st res st' :
  bind c k st = (res, st') ->
  (exists a st1, c st = (Normal a, st1) /\ k a st1 = (res, st'))
  \/ (exists e, c st = (Throw e, st') /\ res = Throw e).
Proof.
  unfold bind. destruct (c st) as [[a | e] st1]; intros H.
  - left. eauto.
  - right. injection H as <- <-. eauto.
Qed.

Lemma try_catch_inv {A : Type} (body : M A) (h : thrown -> M A) st res st' :
  try_catch body h st = (res, st') ->
  (exists a, body st = (Normal a, st') /\ res = Normal a)
  \/ (exists e st1, body st = (Throw e, st1) /\ h e st1 = (res, st')).
Proof.
  unfold try_catch. destruct (body st) as [[a | e] st1]; intros H.
  - left. injection H as <- <-. eauto.
  - right. eauto.
Qed.

(** *** What can be thrown *)

Lemma get_prop_only_errors v k e :
  get_prop v k = Throw e -> exists m, e = ErrorObj m.
Proof. destruct v; cbn; intros [= <-] || discriminate; eauto. Qed.

Lemma opt_chain_only_errors v k e :
  opt_chain v k = Throw e -> exists m, e = ErrorObj m.
Proof. destruct v; cbn; intros [= <-] || discriminate; eauto. Qed.

Lemma thrown_message_only_errors e0 e :
  thrown_message e0 = Throw e -> exists m, e = ErrorObj m.
Proof.
  destruct e0 as [m0 | v]; cbn; [discriminate | apply get_prop_only_errors].
Qed.

Lemma only_errors_ret {A : Type} (a : A) : only_errors (ret a).
Proof. intros st e st' [=]. Qed.

Lemma only_errors_modify f : only_errors (modify f).
Proof. intros st e st' [=]. Qed.

Lemma only_errors_read : only_errors read.
Proof. intros st e st' [=]. Qed.

Lemma only_errors_throw {A : Type} m : only_errors (@throw A (ErrorObj m)).
Proof. intros st e st' [= <- _]. eauto. Qed.

Lemma only_errors_liftC {A : Type} (c : completion A) :
  (forall e, c = Throw e -> exists m, e = ErrorObj m) ->
  only_errors (liftC c).
Proof. intros H st e st' [= -> _]. eauto. Qed.

Lemma only_errors_bind {A B : Type} (c : M A) (k : A -> M B) :
  only_errors c -> (forall a, only_errors (k a)) -> only_errors (bind c k).
Proof.
  intros Hc Hk st e st' H.
  apply bind_inv in H as [(a & st1 & _ & H) | (e' & H & [= <-])].
  - exact (Hk a _ _ _ H).
  - exact (Hc _ _ _ H).
Qed.

Lemma only_errors_try_catch {A : Type} (body : M A) (h : thrown -> M A) :
  (forall e, only_errors (h e)) -> only_errors (try_catch body h).
Proof.
  intros Hh st e st' H.
  apply try_catch_inv in H as [(a & _ & [=]) | (e' & st1 & _ & H)].
  exact (Hh e' _ _ _ H).
Qed.

Lemma only_errors_when b c : only_errors c -> only_errors (when b c).
Proof. destruct b; [auto | intros _; apply only_errors_ret]. Qed.

(** *** Warnings are only appended *)

Lemma grows_ret {A : Type} (a : A) : grows (ret a).
Proof. intros st res st' [= _ <-]. apply incl_refl. Qed.

Lemma grows_read : grows read.
Proof. intros st res st' [= _ <-]. apply incl_refl. Qed.

Lemma grows_throw {A : Type} e : grows (@throw A e).
Proof. intros st res st' [= _ <-]. apply incl_refl. Qed.

Lemma grows_liftC {A : Type} (c : completion A) : grows (liftC c).
Proof. intros st res st' [= _ <-]. apply incl_refl. Qed.

Lemma grows_await {A : Type} (p : settled A) : grows (await p).
Proof. destruct p; [apply grows_ret | apply grows_throw]. Qed.

Lemma grows_push_warning w : grows (push_warning w).
Proof. intros st res st' [= _ <-]. cbn. apply incl_appl, incl_refl. Qed.

Lemma grows_push_validation v : grows (push_validation v).
Proof. intros st res st' [= _ <-]. apply incl_refl. Qed.

Lemma grows_push_recommendation w : grows (push_recommendation w).
Proof. intros st res st' [= _ <-]. apply incl_refl. Qed.

Lemma grows_push_source s : grows (push_source s).
Proof. intros st res st' [= _ <-]. apply incl_refl. Qed.

Lemma grows_set_overallScore n : grows (set_overallScore n).
Proof. intros st res st' [= _ <-]. apply incl_refl. Qed.

Lemma grows_set_dataQuality q : grows (set_dataQuality q).
Proof. intros st res st' [= _ <-]. apply incl_refl. Qed.

Lemma grows_bind {A B : Type} (c : M A) (k : A -> M B) :
  grows c -> (forall a, grows (k a)) -> grows (bind c k).
Proof.
  intros Hc Hk st res st' H.
  apply bind_inv in H as [(a & st1 & H1 & H2) | (e & H & _)].
  - eapply incl_tran; [exact (Hc _ _ _ H1) | exact (Hk a _ _ _ H2)].
  - exact (Hc _ _ _ H).
Qed.

Lemma grows_try_catch {A : Type} (body : M A) (h : thrown -> M A) :
  grows body -> (forall e, grows (h e)) -> grows (try_catch body h).
Proof.
  intros Hb Hh st res st' H.
  apply try_catch_inv in H as [(a & H & _) | (e & st1 & H1 & H2)].
  - exact (Hb _ _ _ H).
  - eapply incl_tran; [exact (Hb _ _ _ H1) | exact (Hh e _ _ _ H2)].
Qed.

Lemma grows_when b c : grows c -> grows (when b c).
Proof. destruct b; [auto | intros _; apply grows_ret]. Qed.

Lemma grows_if {A : Type} (b : bool) (c1 c2 : M A) :
  grows c1 -> grows c2 -> grows (if b then c1 else c2).
Proof. destruct b; auto. Qed.

Lemma only_errors_if {A : Type} (b : bool) (c1 c2 : M A) :
  only_errors c1 -> only_errors c2 -> only_errors (if b then c1 else c2).
Proof. destruct b; auto. Qed.

End ValidationControl.

Create HintDb validation.
#[local] Hint Resolve
  only_errors_ret only_errors_modify only_errors_read only_errors_throw
  only_errors_bind only_errors_try_catch only_errors_when only_errors_if
  grows_ret grows_read grows_throw grows_liftC grows_await grows_push_warning
  grows_push_validation grows_push_recommendation grows_push_source
  grows_set_overallScore grows_set_dataQuality grows_bind grows_try_catch
  grows_when grows_if
  : validation.

Section ValidationSteps.
Import Validation.
Variable ToString : jsval -> string.
Variable ToNumber : jsval -> jsnum.

Lemma only_errors_get_prop v k : only_errors (liftC (get_prop v k)).
Proof. apply only_errors_liftC, get_prop_only_errors. Qed.

Lemma only_errors_opt_chain v k : only_errors (liftC (opt_chain v k)).
Proof. apply only_errors_liftC, opt_chain_only_errors. Qed.

Lemma only_errors_thrown_message e : only_errors (liftC (thrown_message e)).
Proof. apply only_errors_liftC, thrown_message_only_errors. Qed.

Lemma only_errors_push_validation v : only_errors (push_validation v).
Proof. apply only_errors_modify. Qed.

Lemma only_errors_push_warning w : only_errors (push_warning w).
Proof. apply only_errors_modify. Qed.

Lemma only_errors_push_recommendation w : only_errors (push_recommendation w).
Proof. apply only_errors_modify. Qed.

Lemma only_errors_push_source s : only_errors (push_source s).
Proof. apply only_errors_modify. Qed.

Lemma only_errors_set_overallScore n : only_errors (set_overallScore n).
Proof. apply only_errors_modify. Qed.

Lemma only_errors_set_dataQuality q : only_errors (set_dataQuality q).
Proof. apply only_errors_modify. Qed.

Hint Resolve only_errors_get_prop only_errors_opt_chain
  only_errors_thrown_message only_errors_push_validation
  only_errors_push_warning only_errors_push_recommendation
  only_errors_push_source only_errors_set_overallScore
  only_errors_set_dataQuality : validation.

Lemma scoreMetric_only_errors metrics acc name :
  only_errors (scoreMetric metrics acc name).
Proof. unfold scoreMetric. destruct acc. auto 10 with validation. Qed.

Lemma scoreMetric_grows metrics acc name :
  grows (scoreMetric metrics acc name).
Proof. unfold scoreMetric. destruct acc. auto 10 with validation. Qed.

Lemma scoreMetrics_only_errors metrics names acc :
  only_errors (scoreMetrics metrics names acc).
Proof.
  revert acc. induction names as [| n names IH]; intros acc; cbn.
  - auto with validation.
  - apply only_errors_bind; [apply scoreMetric_only_errors | exact IH].
Qed.

Lemma scoreMetrics_grows metrics names acc :
  grows (scoreMetrics metrics names acc).
Proof.
  revert acc. induction names as [| n names IH]; intros acc; cbn.
  - auto with validation.
  - apply grows_bind; [apply scoreMetric_grows | exact IH].
Qed.

Lemma secCheck_only_errors sec ts : only_errors (secCheck ToString sec ts).
Proof. unfold secCheck. auto 10 with validation. Qed.

Lemma secCheck_grows sec ts : grows (secCheck ToString sec ts).
Proof. unfold secCheck. auto 20 with validation. Qed.

Lemma economicCheck_only_errors econ :
  only_errors (economicCheck ToString ToNumber econ).
Proof. unfold economicCheck. auto 10 with validation. Qed.

Lemma economicCheck_grows econ :
  grows (economicCheck ToString ToNumber econ).
Proof. unfold economicCheck. auto 30 with validation. Qed.

Hint Resolve scoreMetrics_only_errors scoreMetrics_grows
  secCheck_only_errors secCheck_grows economicCheck_only_errors
  economicCheck_grows : validation.

(** Everything the outer [try] can throw is an [Error] object. *)
Lemma validateBody_only_errors fd sec econ :
  only_errors (validateBody ToString ToNumber fd sec econ).
Proof.
  unfold validateBody.
  apply only_errors_bind; [auto with validation |].
  intros metrics. apply only_errors_if; [auto with validation |].
  apply only_errors_bind; [auto with validation |].
  intros [n t]. auto 30 with validation.
Qed.

(** The tail of the outer [try] after the SEC step. *)
Lemma validateBody_grows fd sec econ :
  grows (validateBody ToString ToNumber fd sec econ).
Proof.
  unfold validateBody.
  apply grows_bind; [auto with validation |].
  intros metrics. apply grows_if; [auto with validation |].
  apply grows_bind; [auto with validation |].
  intros [n t]. auto 30 with validation.
Qed.

End ValidationSteps.

Section ValidationClaims.
Import Validation.
Variable ToString : jsval -> string.
Variable ToNumber : jsval -> jsnum.

Local Hint Resolve scoreMetrics_grows secCheck_grows economicCheck_grows
  : validation.

(** The outer [catch] on an [Error] object: it appends one warning, sets
    the quality to 'error' and returns the report as it stands. *)
Lemma validateHandler_error m st :
  validateHandler ToString (ErrorObj m) st
  = (let r :=
       {| ticker := ticker st; timestamp := timestamp st;
          overallScore := overallScore st; dataQuality := "error";
          validations := validations st;
          warnings :=
            (warnings st
             ++ {| n_type := "validation_error";
                   n_message :=
                     "Validation process failed: " ++ ToString (JStr m) |}
                :: nil)%list;
          recommendations := recommendations st;
          sources := sources st |} in
     (Normal r, r)).
Proof. reflexivity. Qed.

(** A failed regulatory lookup leaves a warning, unless the step itself
    throws (into the outer [catch]). *)
Lemma secCheck_failed sec ts st res st' :
  sec_failed sec ->
  secCheck ToString sec ts st = (res, st') ->
  (exists e, res = Throw e)
  \/ (exists w, In w (warnings st')
                /\ (n_type w = "sec_error" \/ n_type w = "sec_validation")).
Proof.
  unfold sec_failed, secCheck, try_catch, bind, await, liftC, throw, ret.
  destruct sec as [secData | e]; cbn.
  - destruct (get_prop secData "error") as [err | e]; cbn.
    + intros ->. cbn. intros [= <- <-]. right.
      eexists. split; [cbn; apply in_or_app; right; left; reflexivity |].
      right. reflexivity.
    + intros _. destruct (thrown_message e) as [msg | e']; cbn;
        intros [= <- <-]; [right | left; eauto].
      eexists. split; [cbn; apply in_or_app; right; left; reflexivity |].
      left. reflexivity.
  - intros _. destruct (thrown_message e) as [msg | e']; cbn;
      intros [= <- <-]; [right | left; eauto].
    eexists. split; [cbn; apply in_or_app; right; left; reflexivity |].
    left. reflexivity.
Qed.

(** A rejected economic lookup leaves a warning, unless reading the
    rejection's message throws. *)
Lemma economicCheck_rejected e st res st' :
  economicCheck ToString ToNumber (Rejected e) st = (res, st') ->
  (exists e', res = Throw e')
  \/ (exists w, In w (warnings st') /\ n_type w = "economic_data").
Proof.
  unfold economicCheck, try_catch, bind, await, liftC, throw, ret. cbn.
  destruct (thrown_message e) as [msg | e']; cbn;
    intros [= <- <-]; [right | left; eauto].
  eexists. split; [cbn; apply in_or_app; right; left; reflexivity |].
  reflexivity.
Qed.

(** A normal run of the outer [try] went through the three steps, and
    returns the report it built. *)
Lemma validateBody_normal_inv fd sec econ st0 r st' :
  validateBody ToString ToNumber fd sec econ st0 = (Normal r, st') ->
  r = st'
  /\ exists metrics n t ts st1 st2 st3,
      get_prop fd "currentMetrics" = Normal metrics
      /\ truthy metrics = true
      /\ scoreMetrics metrics coreMetrics (0%Z, 0%Z) st0 = (Normal (n, t), st1)
      /\ secCheck ToString sec t st1 = (Normal ts, st2)
      /\ economicCheck ToString ToNumber econ st2 = (Normal tt, st3)
      /\ incl (warnings st3) (warnings st').
Proof.
  unfold validateBody. intros H.
  apply bind_inv in H as [(metrics & s0 & Hm & H) | (e & _ & [=])].
  injection Hm as Hm <-.
  destruct (truthy metrics) eqn:Htruthy; cbn [negb] in H; [| discriminate H].
  apply bind_inv in H as [([n t] & st1 & Hscore & H) | (e & _ & [=])].
  apply bind_inv in H as [(ts & st2 & Hsec & H) | (e & _ & [=])].
  apply bind_inv in H as [([] & st3 & Hecon & H) | (e & _ & [=])].
  assert (Hrest : incl (warnings st3) (warnings st') /\ r = st').
  { apply bind_inv in H as [([] & s4 & H4 & H) | (e & _ & [=])].
    apply bind_inv in H as [(r5 & s5 & H5 & H) | (e & _ & [=])].
    apply bind_inv in H as [([] & s6 & H6 & H) | (e & _ & [=])].
    apply bind_inv in H as [(r7 & s7 & H7 & H) | (e & _ & [=])].
    apply bind_inv in H as [([] & s8 & H8 & H) | (e & _ & [=])].
    apply bind_inv in H as [([] & s9 & H9 & H) | (e & _ & [=])].
    injection H as <- <-. injection H5 as <- <-. injection H7 as <- <-.
    split; [| reflexivity].
    assert (G4 : incl (warnings st3) (warnings s4)).
    { eapply (grows_when _ _ (grows_set_overallScore _)); exact H4. }
    assert (G6 : incl (warnings s4) (warnings s6)).
    { eapply grows_set_dataQuality; exact H6. }
    assert (G8 : incl (warnings s6) (warnings s8)).
    { eapply (grows_when _ _ (grows_push_recommendation _)); exact H8. }
    assert (G9 : incl (warnings s8) (warnings s9)).
    { eapply (grows_when _ _ (grows_push_recommendation _)); exact H9. }
    eauto using incl_tran. }
  destruct Hrest as [Hincl ->].
  split; [reflexivity |].
  exists metrics, n, t, ts, st1, st2, st3. auto 10.
Qed.

(** C8 fails on the code for the economic lookup.  When the FRED
    request fails, [fetchEconomicIndicators] does not reject: its
    [catch] resolves [{ indicators: {}, error, timestamp }].  The
    economic step tests only [economicData.indicators], which is the
    truthy empty object, so the report lists 'FRED Economic Data' with
    status 'available' and carries no warning at all, where the
    regulatory step next to it tests [secData.error] and records a
    'sec_validation' warning.  Here with the four excellent metrics and
    the verified regulatory lookup, for every error message. *)
Theorem C8_failed_economic_lookup_listed_available
    (message : jsval) (failed_at tkr now : string) :
  exists r,
    validateCompanyData ToString ToNumber tkr excellent_data sec_verified
      (Fulfilled (economic_failure message failed_at)) now
    = Fulfilled r
    /\ warnings r = nil
    /\ map (fun s => (s_name s, s_status s)) (sources r)
       = ("SEC EDGAR", "verified") :: ("FRED Economic Data", "available")
         :: nil
    /\ dataQuality r = "excellent".
Proof.
  eexists. split; [vm_compute; reflexivity |].
  repeat split.
Qed.

(** The regulatory step on the same kind of answer, an object with
    [error] set: the failure is recorded as a warning and the source is
    not listed. *)
Example failed_regulatory_lookup_is_recorded :
  exists r,
    validateCompanyData ToString ToNumber "CB" excellent_data
      (Fulfilled (JObj (("error", JStr "SEC API error: 503") :: nil)))
      econ_empty "2024-06-30T00:00:00.000Z" = Fulfilled r
    /\ map n_type (warnings r) = "sec_validation" :: nil
    /\ map s_name (sources r) = "FRED Economic Data" :: nil.
Proof. eexists. split; [vm_compute; reflexivity |]. repeat split. Qed.

Example null_data_report :
  exists r,
    validateCompanyData ToString ToNumber "TRV" JNull
      (Rejected (ThrownVal JUndefined)) (Rejected (ErrorObj "offline"))
      "2024-06-30T00:00:00.000Z" = Fulfilled r
    /\ dataQuality r = "error"
    /\ map n_type (warnings r) = "validation_error" :: nil.
Proof. eexists. split; [reflexivity |]. split; reflexivity. Qed.

(** A regulatory lookup that rejects with [undefined]: reading the
    message inside the inner [catch] throws, and the outer [catch] still
    returns a report. *)
Example rejected_with_undefined_report :
  exists r,
    validateCompanyData ToString ToNumber "CB" excellent_data
      (Rejected (ThrownVal JUndefined)) econ_empty
      "2024-06-30T00:00:00.000Z" = Fulfilled r
    /\ dataQuality r = "error"
    /\ length (validations r) = 4%nat
    /\ map n_type (warnings r) = "validation_error" :: nil.
Proof. eexists. split; [vm_compute; reflexivity |]. repeat split. Qed.

End ValidationClaims.

Section ValidationRange.
Local Open Scope Z_scope.
Import Validation.
Variable ToString : jsval -> string.
Variable ToNumber : jsval -> jsnum.

(** *** Steps that leave the score alone *)

Lemma keeps_score_ret {A : Type} (a : A) : keeps_score (ret a).
Proof. intros st res st' [= _ <-]. reflexivity. Qed.

Lemma keeps_score_read : keeps_score read.
Proof. intros st res st' [= _ <-]. reflexivity. Qed.

Lemma keeps_score_throw {A : Type} e : keeps_score (@throw A e).
Proof. intros st res st' [= _ <-]. reflexivity. Qed.

Lemma keeps_score_liftC {A : Type} (c : completion A) : keeps_score (liftC c).
Proof. intros st res st' [= _ <-]. reflexivity. Qed.

Lemma keeps_score_await {A : Type} (p : settled A) : keeps_score (await p).
Proof. destruct p; [apply keeps_score_ret | apply keeps_score_throw]. Qed.

Lemma keeps_score_push_warning w : keeps_score (push_warning w).
Proof. intros st res st' [= _ <-]. reflexivity. Qed.

Lemma keeps_score_push_validation v : keeps_score (push_validation v).
Proof. intros st res st' [= _ <-]. reflexivity. Qed.

Lemma keeps_score_push_recommendation w : keeps_score (push_recommendation w).
Proof. intros st res st' [= _ <-]. reflexivity. Qed.

Lemma keeps_score_push_source s : keeps_score (push_source s).
Proof. intros st res st' [= _ <-]. reflexivity. Qed.

Lemma keeps_score_set_dataQuality q : keeps_score (set_dataQuality q).
Proof. intros st res st' [= _ <-]. reflexivity. Qed.

Lemma keeps_score_bind {A B : Type} (c : M A) (k : A -> M B) :
  keeps_score c -> (forall a, keeps_score (k a)) -> keeps_score (bind c k).
Proof.
  intros Hc Hk st res st' H.
  apply bind_inv in H as [(a & st1 & H1 & H2) | (e & H & _)].
  - rewrite (Hk a _ _ _ H2). exact (Hc _ _ _ H1).
  - exact (Hc _ _ _ H).
Qed.

Lemma keeps_score_try_catch {A : Type} (body : M A) (h : thrown -> M A) :
  keeps_score body -> (forall e, keeps_score (h e)) ->
  keeps_score (try_catch body h).
Proof.
  intros Hb Hh st res st' H.
  apply try_catch_inv in H as [(a & H & _) | (e & st1 & H1 & H2)].
  - exact (Hb _ _ _ H).
  - rewrite (Hh e _ _ _ H2). exact (Hb _ _ _ H1).
Qed.

Lemma keeps_score_when b c : keeps_score c -> keeps_score (when b c).
Proof. destruct b; [auto | intros _; apply keeps_score_ret]. Qed.

Lemma keeps_score_if {A : Type} (b : bool) (c1 c2 : M A) :
  keeps_score c1 -> keeps_score c2 -> keeps_score (if b then c1 else c2).
Proof. destruct b; auto. Qed.

Hint Resolve keeps_score_ret keeps_score_read keeps_score_throw
  keeps_score_liftC keeps_score_await keeps_score_push_warning
  keeps_score_push_validation keeps_score_push_recommendation
  keeps_score_push_source keeps_score_set_dataQuality keeps_score_bind
  keeps_score_try_catch keeps_score_when keeps_score_if : validation.

Lemma scoreMetrics_keeps_score metrics names acc :
  keeps_score (scoreMetrics metrics names acc).
Proof.
  revert acc. induction names as [| n names IH]; intros acc; cbn.
  - auto with validation.
  - apply keeps_score_bind; [| exact IH].
    unfold scoreMetric. destruct acc. auto 10 with validation.
Qed.

Lemma secCheck_keeps_score sec ts : keeps_score (secCheck ToString sec ts).
Proof. unfold secCheck. auto 20 with validation. Qed.

Lemma economicCheck_keeps_score econ :
  keeps_score (economicCheck ToString ToNumber econ).
Proof. unfold economicCheck. auto 30 with validation. Qed.

(** *** The running totals *)

Lemma score_of_range rating : 0 <= score_of rating <= 100.
Proof.
  unfold score_of, scoreMap. cbn [assoc].
  repeat match goal with
         | |- context [String.eqb ?a rating] => destruct (String.eqb a rating)
         end; lia.
Qed.

Lemma scoreMetric_totals metrics n t name st n' t' st' :
  scoreMetric metrics (n, t) name st = (Normal (n', t'), st') ->
  0 <= n' - n <= 1 /\ 0 <= t' - t <= 100 * (n' - n).
Proof.
  unfold scoreMetric. intros H.
  apply bind_inv in H as [(value & s1 & _ & H) | (e & _ & [=])].
  destruct (is_number value).
  - apply bind_inv in H as [([] & s2 & _ & H) | (e & _ & [=])].
    injection H as <- <- _.
    pose proof (score_of_range (rating (validateMetric name value))). lia.
  - apply bind_inv in H as [([] & s2 & _ & H) | (e & _ & [=])].
    injection H as <- <- _. lia.
Qed.

Lemma scoreMetrics_totals metrics names n t st n' t' st' :
  scoreMetrics metrics names (n, t) st = (Normal (n', t'), st') ->
  0 <= n' - n /\ 0 <= t' - t <= 100 * (n' - n).
Proof.
  revert n t st. induction names as [| name names IH]; intros n t st H; cbn in H.
  - injection H as <- <- _. lia.
  - apply bind_inv in H as [([n1 t1] & s1 & H1 & H) | (e & _ & [=])].
    apply scoreMetric_totals in H1. apply IH in H. lia.
Qed.

Lemma secCheck_total_score sec t st ts st' :
  secCheck ToString sec t st = (Normal ts, st') -> t <= ts <= t + 10.
Proof.
  unfold secCheck. intros H.
  apply try_catch_inv in H as [(a & H & [= <-]) | (e & s1 & _ & H)].
  - apply bind_inv in H as [(secData & s1 & _ & H) | (e & _ & [=])].
    apply bind_inv in H as [(err & s2 & _ & H) | (e & _ & [=])].
    destruct (negb (truthy err)).
    + apply bind_inv in H as [(name & s3 & _ & H) | (e & _ & [=])].
      apply bind_inv in H as [(cik & s4 & _ & H) | (e & _ & [=])].
      apply bind_inv in H as [(filings & s5 & _ & H) | (e & _ & [=])].
      apply bind_inv in H as [(count & s6 & _ & H) | (e & _ & [=])].
      apply bind_inv in H as [([] & s7 & _ & H) | (e & _ & [=])].
      injection H as <- _. lia.
    + apply bind_inv in H as [([] & s3 & _ & H) | (e & _ & [=])].
      injection H as <- _. lia.
  - apply bind_inv in H as [(msg & s2 & _ & H) | (e' & _ & [=])].
    apply bind_inv in H as [([] & s3 & _ & H) | (e' & _ & [=])].
    injection H as <- _. lia.
Qed.

(** [Math.round(totalScore / validMetricsCount)] for totals in range. *)
Lemma average_range (ts n : Z) :
  1 <= n -> 0 <= ts <= 100 * n + 10 ->
  0 <= Math_round (inject_Z ts / inject_Z n) <= 110.
Proof.
  intros Hn Hts.
  assert (Hpos : (0 < inject_Z n)%Q).
  { change 0%Q with (inject_Z 0). rewrite <- Zlt_Qlt. lia. }
  split.
  - apply Math_round_lower. change (inject_Z 0) with 0%Q.
    apply Qle_shift_div_l; [exact Hpos |].
    rewrite Qmult_0_l. change 0%Q with (inject_Z 0). rewrite <- Zle_Qle. lia.
  - apply Math_round_upper.
    apply Qle_shift_div_r; [exact Hpos |].
    rewrite <- inject_Z_mult, <- Zle_Qle. lia.
Qed.

(** Setting the score, then continuing with the report as it stands. *)
Lemma finish_score (k : ValidationReport -> M ValidationReport)
      (b : bool) (x : Z) st res st' :
  bind (when b (set_overallScore x)) (fun _ => bind read k) st = (res, st') ->
  exists s1, overallScore s1 = (if b then x else overallScore st)
             /\ k s1 s1 = (res, st').
Proof.
  intros H. destruct b; cbn in H; eexists; (split; [| exact H]); reflexivity.
Qed.

(** However the outer [try] ends, the report it leaves has a score
    between 0 and 110. *)
Lemma validateBody_score_range fd sec econ st0 res st' :
  overallScore st0 = 0 ->
  validateBody ToString ToNumber fd sec econ st0 = (res, st') ->
  0 <= overallScore st' <= 110.
Proof.
  intros Hzero H. unfold validateBody in H.
  apply bind_inv in H as [(metrics & s0 & Hm & H) | (e & Hm & _)];
    [| injection Hm as _ <-; lia].
  injection Hm as _ <-.
  destruct (negb (truthy metrics)); [injection H as _ <-; lia |].
  apply bind_inv in H as [([n t] & s1 & Hscore & H) | (e & Hscore & _)];
    [| apply scoreMetrics_keeps_score in Hscore; lia].
  pose proof (scoreMetrics_keeps_score _ _ _ _ _ _ Hscore) as K1.
  apply scoreMetrics_totals in Hscore.
  apply bind_inv in H as [(ts & s2 & Hsec & H) | (e & Hsec & _)];
    [| apply secCheck_keeps_score in Hsec; lia].
  pose proof (secCheck_keeps_score _ _ _ _ _ Hsec) as K2.
  apply secCheck_total_score in Hsec.
  apply bind_inv in H as [([] & s3 & Hecon & H) | (e & Hecon & _)];
    [| apply economicCheck_keeps_score in Hecon; lia].
  apply economicCheck_keeps_score in Hecon.
  apply finish_score in H as (s4 & Hs4 & H).
  assert (Hrange : 0 <= overallScore s4 <= 110).
  { rewrite Hs4. destruct (0 <? n) eqn:Hn.
    - apply average_range; lia.
    - lia. }
  assert (Hkeep : overallScore st' = overallScore s4); [| lia].
  cbv beta in H. revert H.
  apply keeps_score_bind; [apply keeps_score_set_dataQuality |].
  intros _. auto 20 with validation.
Qed.

(** The score of every report lies between 0 and 110. *)
Lemma overallScore_range (tkr : string) (fd : jsval)
    (sec econ : settled jsval) (now : string) r :
  validateCompanyData ToString ToNumber tkr fd sec econ now = Fulfilled r ->
  0 <= overallScore r <= 110.
Proof.
  unfold validateCompanyData, try_catch.
  destruct (validateBody ToString ToNumber fd sec econ (initial_report tkr now))
    as [[r0 | e] st] eqn:Hbody.
  - intros [= <-].
    destruct (validateBody_normal_inv _ _ _ _ _ _ _ _ Hbody) as [-> _].
    exact (validateBody_score_range _ _ _ (initial_report tkr now) _ _ eq_refl Hbody).
  - destruct (validateBody_only_errors ToString ToNumber _ _ _ _ _ _ Hbody)
      as [m ->].
    rewrite validateHandler_error. cbv zeta. intros [= <-]. cbn.
    exact (validateBody_score_range _ _ _ (initial_report tkr now) _ _ eq_refl Hbody).
Qed.

End ValidationRange.

(* ===================================================================== *)
(** ** Properties of the multi-company fetch                              *)
(* ===================================================================== *)

Section BatchFacts.
Import Batch.
Context {R : Type}.
Variable ToString : jsval -> string.

(** Whatever the [catch] of a single fetch rethrows is an [Error]. *)
Lemma rethrow_is_error prefix error :
  exists m, rethrow ToString prefix error = ErrorObj m.
Proof.
  unfold rethrow. destruct (thrown_message error) as [msg | e] eqn:H.
  - eauto.
  - apply thrown_message_only_errors in H. exact H.
Qed.

(** Each per-ticker promise, after its [.catch], is fulfilled. *)
Lemma guarded_fetch_fulfilled (upstream : string -> completion R) ticker :
  exists e,
    catch_ (map_settled Data
              (fetchCompanyFinancials ToString ticker (upstream ticker)))
           (fun error =>
              match thrown_message error with
              | Normal message => Normal (Failure ticker message)
              | Throw e => Throw e
              end)
    = Fulfilled e
    /\ contribution upstream ticker e.
Proof.
  unfold contribution, fetchCompanyFinancials.
  destruct (upstream ticker) as [result | error]; cbn.
  - eauto.
  - destruct (rethrow_is_error ("Failed to fetch data for " ++ ticker ++ ": ")
                error) as [m ->].
    cbn. eauto.
Qed.

(** [Promise.all] over promises that are all fulfilled. *)
Lemma Promise_all_fulfilled {A B : Type} (f : A -> settled B)
      (g : A -> B -> Prop) (l : list A) :
  (forall a, exists b, f a = Fulfilled b /\ g a b) ->
  exists bs, Promise_all (map f l) = Fulfilled bs /\ Forall2 g l bs.
Proof.
  intros Hf. induction l as [| a l (bs & IH & Hall)]; cbn.
  - exists nil. split; [reflexivity | constructor].
  - destruct (Hf a) as (b & -> & Hb). rewrite IH.
    exists (b :: bs). split; [reflexivity | constructor; assumption].
Qed.

End BatchFacts.

Section BatchClaims.
Import Batch.

(** C7: for every list of tickers and every way the individual fetches
    end, the multi-company fetch is fulfilled (the rejection of one
    fetch never rejects the batch) with exactly one element per ticker,
    in order: the fetched object for a ticker whose fetch succeeded and
    [{ticker, error: <message>, currentMetrics: null}] for one whose
    fetch failed. *)
Theorem C7_batch_collects_all {R : Type} (ToString : jsval -> string)
    (upstream : string -> completion R) (tickers : list string) :
  exists results,
    fetchMultipleCompanyFinancials ToString upstream tickers
    = Fulfilled results
    /\ length results = length tickers
    /\ Forall2 (contribution upstream) tickers results
    /\ (forall i ticker error,
          nth_error tickers i = Some ticker ->
          upstream ticker = Throw error ->
          exists message,
            nth_error results i = Some (Failure ticker (JStr message)))
    /\ (forall i ticker result,
          nth_error tickers i = Some ticker ->
          upstream ticker = Normal result ->
          nth_error results i = Some (Data result)).
Proof.
  unfold fetchMultipleCompanyFinancials.
  destruct (Promise_all_fulfilled _ (contribution upstream) tickers
              (guarded_fetch_fulfilled ToString upstream))
    as (results & -> & Hall).
  exists results. split; [reflexivity |].
  assert (Hnth : forall i ticker,
             nth_error tickers i = Some ticker ->
             exists e, nth_error results i = Some e
                       /\ contribution upstream ticker e).
  { clear -Hall. induction Hall as [| t e ts es Hte _ IH]; intros [| i] ticker H;
      cbn in *; try discriminate.
    - injection H as <-. eauto.
    - eauto. }
  split; [symmetry; eapply Forall2_length; exact Hall |].
  split; [exact Hall |].
  split.
  - intros i ticker error Hi Hup.
    destruct (Hnth i ticker Hi) as (e & He & Hc).
    unfold contribution in Hc. rewrite Hup in Hc.
    destruct Hc as [message ->]. eauto.
  - intros i ticker result Hi Hup.
    destruct (Hnth i ticker Hi) as (e & He & Hc).
    unfold contribution in Hc. rewrite Hup in Hc. now subst e.
Qed.

Lemma C7_batch_collects_all_witness :
  exists results,
    fetchMultipleCompanyFinancials (fun _ => "") sample_upstream
      ("TRV" :: "ZZZZ_INVALID" :: "PGR" :: nil) = Fulfilled results
    /\ length results = 3%nat
    /\ exists message,
        nth_error results 1 = Some (Failure "ZZZZ_INVALID" (JStr message)).
Proof.
  destruct (C7_batch_collects_all (fun _ => "") sample_upstream
              ("TRV" :: "ZZZZ_INVALID" :: "PGR" :: nil))
    as (results & Hres & Hlen & _ & Hfail & _).
  exists results. split; [exact Hres |]. split; [exact Hlen |].
  exact (Hfail 1%nat "ZZZZ_INVALID" _ eq_refl eq_refl).
Defined.

Example batch_scenario :
  fetchMultipleCompanyFinancials (fun v => match v with JStr s => s | _ => "" end)
    sample_upstream ("TRV" :: "ZZZZ_INVALID" :: "PGR" :: nil)
  = Fulfilled
      (Data "metrics of TRV"
       :: Failure "ZZZZ_INVALID"
            (JStr "Failed to fetch data for ZZZZ_INVALID: No financial data available for ZZZZ_INVALID")
       :: Data "metrics of PGR" :: nil).
Proof. reflexivity. Qed.

End BatchClaims.

(* ===================================================================== *)
(** ** Properties of request de-duplication                               *)
(* ===================================================================== *)

Section CoordinatorFacts.
Import Coordinator.
Context {R : Type}.
Implicit Types (w : world R) (p : nat) (cacheKey ticker : string).

Lemma market_key_not_financials ticker :
  ~ is_financials_key ("market_" ++ ticker).
Proof. intros [t H]. cbn in H. discriminate H. Qed.

Lemma coherent_init : coherent (@init R).
Proof.
  split.
  - intros p k H. unfold in_flight in H. cbn in H. discriminate H.
  - intros k p _ H. cbn in H. rewrite lookup_empty in H. discriminate H.
Qed.

Lemma coherent_financials w ticker cached :
  coherent w -> coherent (snd (fetchCompanyFinancials w ticker cached)).
Proof.
  intros [Hflight Hreg]. unfold fetchCompanyFinancials.
  destruct cached as [r |]; [split; assumption |].
  destruct (pendingRequests w !! ("financials_" ++ ticker)) as [p0 |] eqn:Hlk;
    [split; assumption |].
  cbn [snd]. split.
  - intros p k Hp. unfold in_flight in *. cbn in *.
    destruct (decide (p = length (promises w))) as [-> | Hne].
    + rewrite lookup_app_r, Nat.sub_diag in Hp by lia. cbn in Hp.
      injection Hp as <-. split; [eexists; reflexivity |].
      apply lookup_insert_eq.
    + assert (Hlt : (p < length (promises w))%nat).
      { apply lookup_lt_Some in Hp. rewrite length_app in Hp. cbn in Hp. lia. }
      rewrite lookup_app_l in Hp by exact Hlt.
      destruct (Hflight p k Hp) as [Hfin Hpk]. split; [exact Hfin |].
      rewrite lookup_insert_ne; [exact Hpk | congruence].
  - intros k p Hk Hp. unfold in_flight in *. cbn in *.
    destruct (decide ("financials_" ++ ticker = k)) as [<- | Hne].
    + rewrite lookup_insert_eq in Hp. injection Hp as <-.
      now rewrite lookup_app_r, Nat.sub_diag by lia.
    + rewrite lookup_insert_ne in Hp by exact Hne.
      apply lookup_app_l_Some. exact (Hreg k p Hk Hp).
Qed.

Lemma coherent_market w ticker cached :
  coherent w -> coherent (snd (fetchMarketData w ticker cached)).
Proof.
  intros [Hflight Hreg]. unfold fetchMarketData.
  destruct cached as [r |]; [split; assumption |].
  destruct (pendingRequests w !! ("market_" ++ ticker)) as [p0 |] eqn:Hlk;
    [split; assumption |].
  cbn [snd]. split.
  - intros p k Hp. unfold in_flight in *. cbn in *.
    destruct (decide (p = length (promises w))) as [-> | Hne].
    + rewrite lookup_app_r, Nat.sub_diag in Hp by lia. cbn in Hp.
      discriminate Hp.
    + assert (Hlt : (p < length (promises w))%nat).
      { apply lookup_lt_Some in Hp. rewrite length_app in Hp. cbn in Hp. lia. }
      rewrite lookup_app_l in Hp by exact Hlt.
      destruct (Hflight p k Hp) as [Hfin Hpk]. split; [exact Hfin |].
      assert (Hne' : "market_" ++ ticker <> k).
      { intros <-. exact (market_key_not_financials _ Hfin). }
      rewrite lookup_insert_ne, lookup_delete_ne by exact Hne'. exact Hpk.
  - intros k p Hk Hp. unfold in_flight in *. cbn in *.
    assert (Hne' : "market_" ++ ticker <> k).
    { intros <-. exact (market_key_not_financials _ Hk). }
    rewrite lookup_insert_ne, lookup_delete_ne in Hp by exact Hne'.
    apply lookup_app_l_Some. exact (Hreg k p Hk Hp).
Qed.

Lemma coherent_settle w p cacheKey outcome :
  coherent w -> in_flight w cacheKey p -> coherent (settle w p outcome).
Proof.
  intros [Hflight Hreg] Hp. unfold settle. unfold in_flight in Hp. rewrite Hp.
  destruct (Hflight p cacheKey Hp) as [Hfin Hpk].
  assert (Hlt : (p < length (promises w))%nat)
    by (eapply lookup_lt_Some; exact Hp).
  split.
  - intros p' k Hp'. unfold in_flight in *. cbn in *.
    destruct (decide (p = p')) as [<- | Hne].
    + rewrite list_lookup_insert_eq in Hp' by exact Hlt. discriminate Hp'.
    + rewrite list_lookup_insert_ne in Hp' by exact Hne.
      destruct (Hflight p' k Hp') as [Hfin' Hpk']. split; [exact Hfin' |].
      rewrite lookup_delete_ne; [exact Hpk' |].
      intros <-. rewrite Hpk in Hpk'. congruence.
  - intros k p' Hk Hp'. unfold in_flight in *. cbn in *.
    destruct (decide (cacheKey = k)) as [<- | Hne].
    + rewrite lookup_delete_eq in Hp'. discriminate Hp'.
    + rewrite lookup_delete_ne in Hp' by exact Hne.
      pose proof (Hreg k p' Hk Hp') as Hq.
      rewrite list_lookup_insert_ne; [exact Hq |].
      intros <-. rewrite Hp in Hq. congruence.
Qed.

(** Every reachable state is coherent. *)
Lemma reachable_coherent w : reachable w -> coherent w.
Proof.
  induction 1 as [| w w' _ IH Hstep]; [apply coherent_init |].
  destruct Hstep as [w ticker cached | w ticker cached | w p k o Hp].
  - now apply coherent_financials.
  - now apply coherent_market.
  - now apply (coherent_settle w p k).
Qed.

End CoordinatorFacts.

Section CoordinatorClaims.
Import Coordinator.

(** The de-duplication of [fetchCompanyFinancials]: in every reachable
    state, while the request for a key is in flight a further call for
    that key (one that missed the cache) gets a handle on the same request
    promise and changes nothing: no second upstream fetch is issued.  When
    the request settles, with a value or with a failure, every holder of
    the handle observes that same outcome and the key is no longer
    registered, so the next call for the key issues the upstream fetch
    again and gets a new, pending promise. *)
Lemma financials_dedup_and_cleanup {R : Type} (w : world R) (ticker : string)
    (p : nat) :
  reachable w ->
  in_flight w ("financials_" ++ ticker) p ->
  fetchCompanyFinancials w ticker None = (Handle p, w)
  /\ forall outcome,
      let w' := settle w p outcome in
      pendingRequests w' !! ("financials_" ++ ticker) = None
      /\ observed w' (Handle p) = Some outcome
      /\ exists p' w'',
          fetchCompanyFinancials w' ticker None = (Handle p', w'')
          /\ p' <> p
          /\ in_flight w'' ("financials_" ++ ticker) p'
          /\ observed w'' (Handle p') = None
          /\ fetches w'' = (fetches w ++ ticker :: nil)%list
          /\ pendingRequests w'' !! ("financials_" ++ ticker) = Some p'.
Proof.
  intros Hreach Hp.
  destruct (reachable_coherent w Hreach) as [Hflight _].
  destruct (Hflight _ _ Hp) as [_ Hreg].
  assert (Hlt : (p < length (promises w))%nat)
    by (eapply lookup_lt_Some; exact Hp).
  split.
  - unfold fetchCompanyFinancials. now rewrite Hreg.
  - intros outcome w'. subst w'. unfold settle.
    unfold in_flight in Hp. rewrite Hp.
    split; [cbn; apply lookup_delete_eq |].
    split; [cbn; now rewrite list_lookup_insert_eq by exact Hlt |].
    unfold fetchCompanyFinancials. cbn [pendingRequests promises fetches].
    rewrite lookup_delete_eq.
    eexists _, _. split; [reflexivity |].
    rewrite length_insert.
    split; [lia |].
    unfold in_flight, observed. cbn [pendingRequests promises fetches].
    rewrite lookup_app_r, length_insert, Nat.sub_diag by (rewrite length_insert; lia).
    cbn. repeat split. apply lookup_insert_eq.
Qed.

Example financials_dedup_sample :
  fetchCompanyFinancials sample_world "TRV" None = (Handle 0%nat, sample_world)
  /\ pendingRequests
       (settle sample_world 0 (Rejected (ErrorObj "Failed to fetch data for TRV")))
       !! "financials_TRV" = None.
Proof.
  assert (Hreach : reachable sample_world).
  { apply (reach_step init); [apply reach_init |].
    apply (step_financials init "TRV" None). }
  destruct (financials_dedup_and_cleanup sample_world "TRV" 0%nat Hreach eq_refl)
    as [Hsame Hafter].
  split; [exact Hsame |].
  exact (proj1 (Hafter (Rejected (ErrorObj "Failed to fetch data for TRV")))).
Qed.

(** A registration under a market key is never removed: no turn of the
    event loop changes it. *)
Lemma market_registration_permanent {R : Type} (w w' : world R)
    (ticker : string) (p : nat) :
  coherent w ->
  step w w' ->
  pendingRequests w !! ("market_" ++ ticker) = Some p ->
  pendingRequests w' !! ("market_" ++ ticker) = Some p.
Proof.
  intros [Hflight _] Hstep Hreg.
  destruct Hstep as [w t cached | w t cached | w q k o Hq].
  - unfold fetchCompanyFinancials.
    destruct cached; [exact Hreg |].
    destruct (pendingRequests w !! ("financials_" ++ t)); [exact Hreg |].
    cbn. rewrite lookup_insert_ne; [exact Hreg |].
    cbn. discriminate.
  - unfold fetchMarketData.
    destruct cached; [exact Hreg |].
    destruct (pendingRequests w !! ("market_" ++ t)) eqn:Ht; [exact Hreg |].
    cbn. rewrite lookup_insert_ne, lookup_delete_ne; [exact Hreg | |];
      intros Heq; rewrite Heq in Ht; congruence.
  - unfold settle. rewrite Hq. cbn.
    destruct (Hflight q k Hq) as [Hfin _].
    rewrite lookup_delete_ne; [exact Hreg |].
    intros ->. exact (market_key_not_financials _ Hfin).
Qed.

(** C3 fails on the code for the keys of [fetchMarketData], which shares
    the [pendingRequests] map: the first call for a ticker gets a request
    promise that is already rejected, without any upstream fetch; the key
    is registered after the [finally] has run and stays registered; and a
    later call for the same ticker is handed the same rejected promise
    instead of starting the request afresh. *)
Theorem C3_market_registration_stays {R : Type} (w : world R)
    (ticker : string) :
  pendingRequests w !! ("market_" ++ ticker) = None ->
  exists p e w1,
    fetchMarketData w ticker None = (Handle p, w1)
    /\ observed w1 (Handle p) = Some (Rejected e)
    /\ pendingRequests w1 !! ("market_" ++ ticker) = Some p
    /\ fetchMarketData w1 ticker None = (Handle p, w1)
    /\ fetches w1 = fetches w.
Proof.
  intros Hnone. unfold fetchMarketData at 1. rewrite Hnone.
  eexists _, _, _. split; [reflexivity |].
  unfold observed, fetchMarketData. cbn [pendingRequests promises fetches].
  rewrite lookup_app_r, Nat.sub_diag by lia. cbn.
  rewrite lookup_insert_eq. repeat split.
Qed.

Lemma C3_market_registration_stays_witness :
  exists p e w1,
    fetchMarketData (@init string) "TRV" None = (Handle p, w1)
    /\ observed w1 (Handle p) = Some (Rejected e)
    /\ pendingRequests w1 !! "market_TRV" = Some p
    /\ fetchMarketData w1 "TRV" None = (Handle p, w1)
    /\ fetches w1 = nil.
Proof.
  exact (C3_market_registration_stays (@init string) "TRV" eq_refl).
Defined.

End CoordinatorClaims.

(* ===================================================================== *)
(** ** More on the Metric Calculator                                      *)
(* ===================================================================== *)

Section CalculatorRanges.
Local Open Scope Q_scope.
Import Calc.

Lemma round1_lower (lo : Z) (x : Q) :
  inject_Z lo <= x * 10 -> inject_Z lo / 10 <= round1 x.
Proof.
  intros Hlo. unfold round1. apply Math_round_lower in Hlo.
  rewrite Zle_Qle in Hlo. qdiv_const. lra.
Qed.

(** The estimate stays within the widest band as long as the draw is a
    value of [Math.random()]. *)
Lemma estimate_range (fd : RawFinancialRecord) (rnd : Q) :
  0 <= rnd < 1 -> 88 <= estimatedCombinedRatio fd rnd < 120.
Proof.
  intros [H0 H1]. unfold estimatedCombinedRatio.
  repeat match goal with
         | |- context [if ?b then _ else _] => destruct b
         end; split; lra.
Qed.

(** With a draw in [0, 1) the floor of 50 under the loss ratio never
    binds: the loss ratio is the estimate minus the expense ratio. *)
Lemma lossRatio_is_remainder (fd : RawFinancialRecord) (rnd : Q) :
  0 <= rnd < 1 ->
  lossRatio fd rnd == estimatedCombinedRatio fd rnd - expenseRatio fd.
Proof.
  intros Hr. unfold lossRatio.
  destruct (estimate_range fd rnd Hr) as [Hlo _].
  destruct (expenseRatio_clamped fd) as [_ Hhi].
  apply Q.max_r. lra.
Qed.

Lemma combinedRatio_is_estimate (fd : RawFinancialRecord) (rnd : Q) :
  0 <= rnd < 1 ->
  combinedRatio fd rnd == estimatedCombinedRatio fd rnd.
Proof.
  intros Hr. unfold combinedRatio.
  rewrite (lossRatio_is_remainder fd rnd Hr). ring.
Qed.

End CalculatorRanges.

Section CalculatorExtras.
Local Open Scope Q_scope.
Import Calc.

(** X1: whatever the record and the draw, the returned lossRatio is at
    least 50. *)
Theorem X1_lossRatio_floor (fd : RawFinancialRecord) (rnd : Q) :
  50 <= m_lossRatio (calculateInsuranceMetrics fd rnd).
Proof.
  cbn [calculateInsuranceMetrics m_lossRatio].
  assert (H : inject_Z 500 <= lossRatio fd rnd * 10).
  { change (inject_Z 500) with 500. unfold lossRatio.
    pose proof (Q.le_max_l 50 (estimatedCombinedRatio fd rnd - expenseRatio fd)).
    lra. }
  apply round1_lower in H. change (inject_Z 500) with 500 in H.
  qdiv_const. lra.
Qed.

(** X2: for a draw in [0, 1) the returned estimates stay in fixed
    ranges whatever the financial data: combinedRatio in [88, 120],
    underwritingProfitMargin in [-20, 12] and lossRatio in [53, 105].
    The ends are whole numbers well inside what the one-decimal
    rounding can move. *)
Theorem X2_returned_ranges (fd : RawFinancialRecord) (rnd : Q) :
  0 <= rnd < 1 ->
  let m := calculateInsuranceMetrics fd rnd in
  88 <= m_combinedRatio m <= 120
  /\ -20 <= m_underwritingProfitMargin m <= 12
  /\ 53 <= m_lossRatio m <= 105.
Proof.
  intros Hr m. subst m.
  cbn [calculateInsuranceMetrics m_combinedRatio m_underwritingProfitMargin
       m_lossRatio].
  pose proof (lossRatio_is_remainder fd rnd Hr) as HL.
  destruct (estimate_range fd rnd Hr) as [Hlo Hhi].
  destruct (expenseRatio_clamped fd) as [HEl HEh].
  pose proof (combinedRatio_is_estimate fd rnd Hr) as HC.
  split; [| split].
  - destruct (round1_bounds 880 1200 (combinedRatio fd rnd)) as [H1 H2].
    { change (inject_Z 880) with 880. change (inject_Z 1200) with 1200.
      rewrite HC. split; lra. }
    change (inject_Z 880) with 880 in H1. change (inject_Z 1200) with 1200 in H2.
    qdiv_const. split; lra.
  - destruct (round1_bounds (-200) 120 (underwritingProfitMargin fd rnd))
      as [H1 H2].
    { change (inject_Z (-200)) with (-200). change (inject_Z 120) with 120.
      unfold underwritingProfitMargin. rewrite HC. split; lra. }
    change (inject_Z (-200)) with (-200) in H1.
    change (inject_Z 120) with 120 in H2.
    qdiv_const. split; lra.
  - destruct (round1_bounds 530 1050 (lossRatio fd rnd)) as [H1 H2].
    { change (inject_Z 530) with 530. change (inject_Z 1050) with 1050.
      rewrite HL. split; lra. }
    change (inject_Z 530) with 530 in H1. change (inject_Z 1050) with 1050 in H2.
    qdiv_const. split; lra.
Qed.

Lemma X2_returned_ranges_witness :
  88 <= m_combinedRatio (calculateInsuranceMetrics negative_revenue_record (1 # 2))
  <= 120.
Proof.
  assert (Hr : 0 <= 1 # 2 < 1) by (split; lra).
  exact (proj1 (X2_returned_ranges negative_revenue_record (1 # 2) Hr)).
Defined.

(** X5: the calculator does not guard the two estimates that divide by
    revenue and by the share count: with a revenue of zero (or none, the
    default being 0) the returned reserveRatio is not a finite number,
    and with a share count of zero the returned floatPerShare is not a
    finite number. *)
Theorem X5_unguarded_divisions (fd : RawFinancialRecord) (rnd : Q) :
  let m := calculateInsuranceMetrics fd rnd in
  (dflt (revenue fd) 0 == 0 -> ~ exists q, m_reserveRatio m = Fin q)
  /\ (dflt (weightedAverageShsOut fd) 1 == 0 ->
      ~ exists q, m_floatPerShare m = Fin q).
Proof.
  cbn [calculateInsuranceMetrics m_reserveRatio m_floatPerShare].
  assert (Hdiv : forall a b,
             b == 0 -> ~ exists q, num_round2 (js_div a b) = Fin q).
  { intros a b Hb [q Hq]. unfold js_div in Hq.
    apply Qeq_bool_iff in Hb. rewrite Hb in Hq.
    destruct (Qeq_bool a 0); [discriminate Hq |].
    destruct (Qle_bool 0 a); discriminate Hq. }
  split; apply Hdiv.
Qed.

Lemma X5_unguarded_divisions_witness :
  ~ exists q, m_reserveRatio (calculateInsuranceMetrics empty_record (1 # 2))
              = Fin q.
Proof.
  apply (proj1 (X5_unguarded_divisions empty_record (1 # 2))).
  reflexivity.
Defined.

Example reserveRatio_of_empty_record :
  m_reserveRatio (calculateInsuranceMetrics empty_record (1 # 2)) = NaN.
Proof. reflexivity. Qed.

(** X6: the guards of the ratios: without positive revenue the returned
    profitMargin is 0 and the expenseRatio is the lower clamp 15; without
    positive equity roe and debtToEquity are 0; without positive assets
    roa is 0 and investmentYield is the default 2.5. *)
Theorem X6_guarded_ratios (fd : RawFinancialRecord) (rnd : Q) :
  let m := calculateInsuranceMetrics fd rnd in
  (dflt (revenue fd) 0 <= 0 -> m_profitMargin m == 0 /\ m_expenseRatio m == 15)
  /\ (dflt (totalStockholdersEquity fd) 0 <= 0 ->
      m_roe m == 0 /\ m_debtToEquity m == 0
      /\ m_bookValuePerShare m = Fin (round2 0))
  /\ (dflt (totalAssets fd) 0 <= 0 ->
      m_roa m == 0 /\ m_investmentYield m == 5 # 2).
Proof.
  cbn [calculateInsuranceMetrics m_profitMargin m_expenseRatio m_roe
       m_debtToEquity m_bookValuePerShare m_roa m_investmentYield].
  assert (Hg : forall x, x <= 0 -> Qgtb x 0 = false).
  { intros x Hx. unfold Qgtb. apply negb_false_iff, Qle_bool_iff. exact Hx. }
  split; [| split].
  - intros H. unfold profitMargin, expenseRatio, baseExpenseRatio.
    rewrite (Hg _ H). split; reflexivity.
  - intros H. rewrite (Hg _ H). repeat split; reflexivity.
  - intros H. rewrite (Hg _ H). split; reflexivity.
Qed.

Lemma X6_guarded_ratios_witness :
  m_profitMargin (calculateInsuranceMetrics negative_revenue_record (1 # 2)) == 0
  /\ m_expenseRatio (calculateInsuranceMetrics negative_revenue_record (1 # 2))
     == 15.
Proof.
  apply (proj1 (X6_guarded_ratios negative_revenue_record (1 # 2))).
  vm_compute. discriminate.
Defined.

End CalculatorExtras.

(* ===================================================================== *)
(** ** The request of fetchCompanyFinancials                              *)
(* ===================================================================== *)

Section InteropFacts.
Import Interop.

Lemma own_prop_app_l (a b : list (string * jsval)) (k : string) :
  has_key k a = true -> own_prop (a ++ b) k = own_prop a k.
Proof.
  induction a as [| [k' v] a IH]; cbn; [discriminate |].
  destruct (String.eqb k' k); [reflexivity | exact IH].
Qed.

Lemma own_prop_app_r (a b : list (string * jsval)) (k : string) :
  has_key k a = false -> own_prop (a ++ b) k = own_prop b k.
Proof.
  induction a as [| [k' v] a IH]; cbn; [reflexivity |].
  destruct (String.eqb k' k); [discriminate | exact IH].
Qed.

Lemma own_prop_absent (a : list (string * jsval)) (k : string) :
  has_key k a = false -> own_prop a k = JUndefined.
Proof.
  induction a as [| [k' v] a IH]; cbn; [reflexivity |].
  destruct (String.eqb k' k); [discriminate | exact IH].
Qed.

(** Reading a property of [{ ...a, ...b }]: the value [b] gives it, when
    [b] has the key, otherwise the value of [a]. *)
Lemma own_prop_spread (a b : list (string * jsval)) (k : string) :
  own_prop (spread_props a b) k
  = if has_key k b then own_prop b k else own_prop a k.
Proof.
  unfold spread_props.
  destruct (has_key k a) eqn:Ha.
  - rewrite own_prop_app_l.
    + induction a as [| [k' v] a IH]; cbn in *; [discriminate Ha |].
      destruct (String.eqb_spec k' k) as [-> | Hne]; cbn in Ha.
      * destruct (has_key k b); cbn; now rewrite String.eqb_refl.
      * destruct (has_key k' b); cbn;
          (destruct (String.eqb_spec k' k); [contradiction | exact (IH Ha)]).
    + clear -Ha. induction a as [| [k' v] a IH]; cbn in *; [discriminate |].
      destruct (has_key k' b); cbn;
        destruct (String.eqb k' k); cbn in *; auto.
  - rewrite own_prop_app_r.
    + rewrite (own_prop_absent a k Ha).
      induction b as [| [k' v] b IH]; cbn; [reflexivity |].
      destruct (String.eqb_spec k' k) as [-> | Hne]; cbn.
      * rewrite Ha. cbn. now rewrite String.eqb_refl.
      * destruct (negb (has_key k' a)); cbn.
        -- destruct (String.eqb_spec k' k); [contradiction | exact IH].
        -- exact IH.
    + clear -Ha. induction a as [| [k' v] a IH]; cbn in *; [reflexivity |].
      destruct (has_key k' b); cbn;
        destruct (String.eqb k' k); cbn in *; auto.
Qed.

End InteropFacts.

Section RequestFacts.
Import Calc Interop Request.

Lemma nth_error_map_indexed {A B : Type} (f : A -> nat -> B) (l : list A)
      (i k : nat) :
  nth_error (map_indexed f l i) k
  = option_map (fun a => f a (i + k)%nat) (nth_error l k).
Proof.
  revert i k. induction l as [| a l IH]; intros i [| k]; cbn; try reflexivity.
  - now rewrite Nat.add_0_r.
  - rewrite IH. now rewrite Nat.add_succ_r.
Qed.

Lemma length_map_indexed {A B : Type} (f : A -> nat -> B) (l : list A) (i : nat) :
  length (map_indexed f l i) = length l.
Proof. revert i. induction l; intros i; cbn; [reflexivity | now rewrite IHl]. Qed.

(** The metrics object has every key the calculator writes, whatever the
    input. *)
Lemma metrics_props_keys (m : DerivedMetrics) :
  map fst (metrics_props m)
  = "revenue" :: "netIncome" :: "totalAssets" :: "totalEquity"
    :: "sharesOutstanding" :: "profitMargin" :: "roe" :: "roa"
    :: "bookValuePerShare" :: "tangibleBookValue" :: "debtToEquity"
    :: "expenseRatio" :: "lossRatio" :: "combinedRatio"
    :: "underwritingProfitMargin" :: "investmentYield" :: "floatPerShare"
    :: "reserveRatio" :: "year" :: "period" :: "symbol" :: nil.
Proof. reflexivity. Qed.

(** The composed label of a historical entry is overwritten by the
    [period] property of the metrics spread after it. *)
Lemma historicalEntry_prop balanceData p index rnd key :
  own_prop (historicalEntry balanceData p index rnd) key
  = own_prop
      (metrics_props
         (calculateInsuranceMetrics
            (spread p (match nth_error balanceData index with
                       | Some b => b
                       | None => no_fields
                       end)) rnd)) key.
Proof.
  unfold historicalEntry. rewrite own_prop_spread.
  match goal with |- context [has_key key ?b] => destruct (has_key key b) eqn:Hk end;
    [reflexivity |].
  rewrite (own_prop_absent _ _ Hk). cbn [own_prop].
  destruct (String.eqb_spec "period" key) as [<- | _]; [| reflexivity].
  assert (Hp : forall m, has_key "period" (metrics_props m) = true)
    by reflexivity.
  rewrite Hp in Hk. discriminate Hk.
Qed.

(** Two runs of the calculator on the same record differ at most in the
    three properties that depend on the draw. *)
Lemma metrics_props_draw_independent fd r1 r2 key :
  key <> "lossRatio" -> key <> "combinedRatio" ->
  key <> "underwritingProfitMargin" ->
  own_prop (metrics_props (calculateInsuranceMetrics fd r1)) key
  = own_prop (metrics_props (calculateInsuranceMetrics fd r2)) key.
Proof.
  intros H1 H2 H3. unfold metrics_props. cbn [own_prop].
  repeat match goal with
         | |- context [String.eqb ?a key] =>
             destruct (String.eqb_spec a key) as [<- | _]
         end; try reflexivity; congruence.
Qed.

(** What a request that went through has returned. *)
Lemma requestBody_success ticker incomeRes balanceRes incomeData balanceData
      draw now cd :
  requestBody ticker (Normal incomeRes) (Normal balanceRes) draw now = Normal cd ->
  json incomeRes = Normal incomeData ->
  json balanceRes = Normal balanceData ->
  exists latestIncome olderIncome latestBalance olderBalance,
    incomeData = latestIncome :: olderIncome
    /\ balanceData = latestBalance :: olderBalance
    /\ cd = {| cd_ticker := ticker;
               cd_currentMetrics :=
                 calculateInsuranceMetrics (spread latestIncome latestBalance)
                                           (draw O);
               cd_historicalMetrics :=
                 rev (map_indexed
                        (fun period_ index =>
                           historicalEntry balanceData period_ index
                                           (draw (S index)))
                        (firstn 4 incomeData) O);
               cd_timestamp := now |}.
Proof.
  intros H Hj1 Hj2. unfold requestBody, throw_error in H.
  rewrite Hj1, Hj2 in H.
  destruct (negb (ok incomeRes) || negb (ok balanceRes)); [discriminate H |].
  destruct incomeData as [| latestIncome olderIncome]; [discriminate H |].
  destruct balanceData as [| latestBalance olderBalance]; [discriminate H |].
  destruct (match revenue latestIncome with
            | Some r => Qeq_bool r 0 || Qle_bool r 0
            | None => true
            end); [discriminate H |].
  destruct (blank (calendarYear latestIncome) || blank (period latestIncome));
    [discriminate H |].
  injection H as <-. eauto 10.
Qed.

End RequestFacts.

Section RequestExtras.
Import Calc Interop Request.

(** X7: the request of [fetchCompanyFinancials] goes through exactly when
    both fetches resolve with [ok] responses whose bodies parse, both
    lists are non-empty, the latest income statement has a positive
    revenue and non-empty calendarYear and period; in every other case it
    throws and the promise is rejected with an [Error]. *)
Theorem X7_request_gates (ToString : jsval -> string) (ticker : string)
    (incomeFetch balanceFetch : completion response)
    (draw : nat -> Q) (now : string) :
  ((exists cd, requestBody ticker incomeFetch balanceFetch draw now = Normal cd)
   <-> acceptable incomeFetch balanceFetch)
  /\ (~ acceptable incomeFetch balanceFetch ->
      exists message,
        Batch.fetchCompanyFinancials ToString ticker
          (requestBody ticker incomeFetch balanceFetch draw now)
        = Rejected (ErrorObj message)).
Proof.
  assert (Hiff :
    (exists cd, requestBody ticker incomeFetch balanceFetch draw now = Normal cd)
    <-> acceptable incomeFetch balanceFetch).
  { split.
    - intros [cd H]. unfold requestBody, throw_error in H.
      destruct incomeFetch as [[ok1 j1] | e1]; [| discriminate H].
      destruct balanceFetch as [[ok2 j2] | e2]; [| discriminate H].
      cbn [ok json] in H.
      destruct ok1; [| discriminate H]. destruct ok2; [| discriminate H].
      cbn [negb orb] in H.
      destruct j1 as [incomeData | e1]; [| discriminate H].
      destruct j2 as [balanceData | e2]; [| discriminate H].
      destruct incomeData as [| latestIncome olderIncome]; [discriminate H |].
      destruct balanceData as [| latestBalance olderBalance]; [discriminate H |].
      destruct (revenue latestIncome) as [r |] eqn:Hrev; [| discriminate H].
      destruct (Qeq_bool r 0) eqn:Hz; [discriminate H |].
      destruct (Qle_bool r 0) eqn:Hle; [discriminate H |].
      cbn [orb] in H.
      destruct (blank (calendarYear latestIncome)) eqn:Hy; [discriminate H |].
      destruct (blank (period latestIncome)) eqn:Hp; [discriminate H |].
      exists {| ok := true; json := Normal (latestIncome :: olderIncome) |},
             {| ok := true; json := Normal (latestBalance :: olderBalance) |},
             latestIncome, olderIncome, (latestBalance :: olderBalance), r.
      repeat split; try assumption; try discriminate.
      apply Qnot_le_lt. intros Hc. apply Qle_bool_iff in Hc. congruence.
    - intros (incomeRes & balanceRes & latestIncome & olderIncome & balanceData
              & r & -> & -> & Hok1 & Hok2 & Hj1 & Hj2 & Hne & Hrev & Hpos
              & Hy & Hp).
      unfold requestBody. rewrite Hok1, Hok2, Hj1, Hj2. cbn [negb orb].
      destruct balanceData as [| latestBalance olderBalance]; [contradiction |].
      rewrite Hrev.
      assert (Hz : Qeq_bool r 0 = false).
      { apply not_true_iff_false. intros Hc. apply Qeq_bool_iff in Hc.
        rewrite Hc in Hpos. exact (Qlt_irrefl 0 Hpos). }
      assert (Hle : Qle_bool r 0 = false).
      { apply not_true_iff_false. intros Hc. apply Qle_bool_iff in Hc.
        exact (Qlt_not_le _ _ Hpos Hc). }
      rewrite Hz, Hle, Hy, Hp. cbn [orb]. eauto. }
  split; [exact Hiff |].
  intros Hno.
  destruct (requestBody ticker incomeFetch balanceFetch draw now)
    as [cd | e] eqn:Hbody.
  - exfalso. apply Hno, Hiff. eauto.
  - cbn.
    destruct (rethrow_is_error ToString
                ("Failed to fetch data for " ++ ticker ++ ": ") e) as [m ->].
    eauto.
Qed.

Lemma X7_request_gates_witness :
  exists message,
    Batch.fetchCompanyFinancials (fun _ => "") "HIG"
      (requestBody "HIG" sample_income
         (Normal {| ok := false; json := Normal nil |}) sample_draw "now")
    = Rejected (ErrorObj message).
Proof.
  apply (proj2 (X7_request_gates (fun _ => "") "HIG" sample_income
                  (Normal {| ok := false; json := Normal nil |})
                  sample_draw "now")).
  intros (i & b & li & oi & bd & r & _ & Hb & _ & Hok & _).
  injection Hb as <-. discriminate Hok.
Defined.

(** X8: a request that went through returns one historical entry per
    income statement among the first four, oldest first: entry [k] is
    built from the statement at index [n - 1 - k] and the balance sheet at
    the same index (no fields when there is none), with its own draw; and
    the [period] property of the entry is the period of that merged
    statement, the composed label being overwritten by the spread. *)
Theorem X8_history_shape (ticker : string) (incomeRes balanceRes : response)
    (incomeData balanceData : list RawFinancialRecord)
    (draw : nat -> Q) (now : string) (cd : companyData) :
  requestBody ticker (Normal incomeRes) (Normal balanceRes) draw now = Normal cd ->
  json incomeRes = Normal incomeData ->
  json balanceRes = Normal balanceData ->
  let n := Nat.min 4 (length incomeData) in
  length (cd_historicalMetrics cd) = n
  /\ (1 <= n <= 4)%nat
  /\ forall k, (k < n)%nat ->
       exists p,
         let i := (n - S k)%nat in
         let b := match nth_error balanceData i with
                  | Some b => b
                  | None => no_fields
                  end in
         nth_error incomeData i = Some p
         /\ nth_error (cd_historicalMetrics cd) k
            = Some (historicalEntry balanceData p i (draw (S i)))
         /\ own_prop (historicalEntry balanceData p i (draw (S i))) "period"
            = opt_str (period (spread p b)).
Proof.
  intros H Hj1 Hj2 n.
  destruct (requestBody_success _ _ _ _ _ _ _ _ H Hj1 Hj2)
    as (li & oi & lb & ob & Hi & Hb & ->).
  cbn [cd_historicalMetrics].
  assert (Hlen : length (firstn 4 incomeData) = n)
    by (rewrite length_firstn; reflexivity).
  split; [now rewrite length_rev, length_map_indexed |].
  split.
  { subst n incomeData. cbn [length]. lia. }
  intros k Hk.
  assert (Hin : (n - S k < length incomeData)%nat) by (subst n; lia).
  destruct (nth_error incomeData (n - S k)) as [p |] eqn:Hp;
    [| apply nth_error_None in Hp; lia].
  exists p. cbv zeta. split; [reflexivity |]. split.
  - rewrite nth_error_rev, length_map_indexed, Hlen.
    destruct (Nat.ltb_spec k n); [| lia].
    rewrite nth_error_map_indexed, nth_error_firstn.
    destruct (Nat.ltb_spec (n - S k) 4); [| lia].
    rewrite Hp. reflexivity.
  - rewrite historicalEntry_prop. reflexivity.
Qed.

Lemma X8_history_shape_witness :
  exists cd,
    requestBody "HIG" sample_income sample_balance sample_draw "now" = Normal cd
    /\ length (cd_historicalMetrics cd) = 2%nat.
Proof.
  eexists. split; [reflexivity |].
  exact (proj1 (X8_history_shape "HIG" income_response balance_response
                  _ _ sample_draw "now" _ eq_refl eq_refl eq_refl)).
Defined.

Example history_period_is_not_the_label :
  exists cd entry,
    requestBody "HIG" sample_income sample_balance sample_draw "now" = Normal cd
    /\ nth_error (cd_historicalMetrics cd) 1 = Some entry
    /\ own_prop entry "period" = JStr "FY".
Proof. eexists _, _. repeat split. Qed.

(** X9: in a request that went through, the newest historical entry is
    computed from the same merged statement as the current metrics but
    with a draw of its own: it agrees with the current metrics on every
    property except lossRatio, combinedRatio and underwritingProfitMargin. *)
Theorem X9_latest_history_matches_current (ticker : string)
    (incomeRes balanceRes : response)
    (incomeData balanceData : list RawFinancialRecord)
    (draw : nat -> Q) (now : string) (cd : companyData) :
  requestBody ticker (Normal incomeRes) (Normal balanceRes) draw now = Normal cd ->
  json incomeRes = Normal incomeData ->
  json balanceRes = Normal balanceData ->
  exists entry,
    nth_error (cd_historicalMetrics cd)
              (length (cd_historicalMetrics cd) - 1) = Some entry
    /\ forall key,
        key <> "lossRatio" -> key <> "combinedRatio" ->
        key <> "underwritingProfitMargin" ->
        own_prop entry key
        = own_prop (metrics_props (cd_currentMetrics cd)) key.
Proof.
  intros H Hj1 Hj2.
  destruct (requestBody_success _ _ _ _ _ _ _ _ H Hj1 Hj2)
    as (li & oi & lb & ob & -> & -> & ->).
  cbn [cd_historicalMetrics cd_currentMetrics].
  set (f := fun period_ index =>
              historicalEntry (lb :: ob) period_ index (draw (S index))).
  exists (f li O).
  assert (Hlen : (1 <= length (firstn 4 (li :: oi)))%nat) by (cbn; lia).
  split.
  - rewrite nth_error_rev, length_rev, !length_map_indexed.
    destruct (Nat.ltb_spec (length (firstn 4 (li :: oi)) - 1)
                           (length (firstn 4 (li :: oi)))); [| lia].
    replace (length (firstn 4 (li :: oi))
             - S (length (firstn 4 (li :: oi)) - 1))%nat with O by lia.
    reflexivity.
  - intros key H1 H2 H3. subst f. cbv beta.
    rewrite historicalEntry_prop. cbn [nth_error].
    apply metrics_props_draw_independent; assumption.
Qed.

Lemma X9_latest_history_matches_current_witness :
  exists cd entry,
    requestBody "HIG" sample_income sample_balance sample_draw "now" = Normal cd
    /\ nth_error (cd_historicalMetrics cd) 1 = Some entry
    /\ own_prop entry "expenseRatio"
       = own_prop (metrics_props (cd_currentMetrics cd)) "expenseRatio".
Proof.
  destruct (X9_latest_history_matches_current "HIG" income_response
              balance_response _ _ sample_draw "now" _
              eq_refl eq_refl eq_refl) as (entry & Hnth & Hsame).
  eexists _, entry. split; [reflexivity |]. split; [exact Hnth |].
  apply Hsame; discriminate.
Defined.

(** The draw-dependent properties can differ: here the current metrics
    carry combinedRatio 102.2 and the newest historical entry 95.8. *)
Example latest_history_differs_in_combinedRatio :
  exists cd entry,
    requestBody "HIG" sample_income sample_balance sample_draw "now" = Normal cd
    /\ nth_error (cd_historicalMetrics cd) 1 = Some entry
    /\ m_combinedRatio (cd_currentMetrics cd) == 1022 # 10
    /\ own_prop entry "combinedRatio" = num (inject_Z 958 / 10).
Proof.
  eexists _, _. split; [reflexivity |]. split; [reflexivity |].
  split; vm_compute; reflexivity.
Qed.

End RequestExtras.

(* ===================================================================== *)
(** ** More on the cache                                                  *)
(* ===================================================================== *)

Section CacheExtras.
Local Open Scope Z_scope.
Import Cache.

(** What [set] leaves under a key other than the one it wrote. *)
Lemma set_lookup_other {V : Type} (cache : gmap string (item V))
      (key key' : string) (v : V) (ttl : option Z) (now now' : Z) :
  key <> key' ->
  set cache key v ttl now now' !! key'
  = match cache !! key' with
    | Some it =>
        if decide (expiry it < now') then
          if 100 <? Z.of_nat (size (<[key := {| value := v;
                 expiry := now + default CACHE_DURATION ttl |}]> cache))
          then None else Some it
        else Some it
    | None => None
    end.
Proof.
  intros Hne. unfold set.
  replace (match ttl with Some t => t | None => CACHE_DURATION end)
    with (default CACHE_DURATION ttl) by (destruct ttl; reflexivity).
  destruct (100 <? _).
  - destruct (cache !! key') as [it |] eqn:Hlk.
    + destruct (decide (expiry it < now')) as [Hexp | Hlive].
      * apply map_lookup_filter_None. right. intros x Hx.
        rewrite lookup_insert_ne in Hx by exact Hne.
        rewrite Hlk in Hx. injection Hx as <-. cbn. tauto.
      * apply map_lookup_filter_Some. split; [| exact Hlive].
        now rewrite lookup_insert_ne by exact Hne.
    + apply map_lookup_filter_None. left.
      now rewrite lookup_insert_ne by exact Hne.
  - rewrite lookup_insert_ne by exact Hne.
    destruct (cache !! key') as [it |]; [| reflexivity].
    now destruct (decide (expiry it < now')).
Qed.

(** X10: operations on one key do not change what the cache returns for
    another key: after a [set] of [key], a [get] of a different key at any
    time not before that [set] returns what it would have returned
    without it; and a [get] leaves every other key as it was. *)
Theorem X10_other_keys_unaffected {V : Type} (cache : gmap string (item V))
    (key key' : string) (v : V) (ttl : option Z) (now now' t : Z) :
  key <> key' ->
  now' <= t ->
  fst (get (set cache key v ttl now now') key' t) = fst (get cache key' t)
  /\ snd (get cache key t) !! key' = cache !! key'.
Proof.
  intros Hne Ht. split.
  - unfold get at 1. rewrite (set_lookup_other cache key key' v ttl now now' Hne).
    unfold get. destruct (cache !! key') as [it |]; [| reflexivity].
    destruct (decide (expiry it < now')) as [Hexp | Hlive].
    + destruct (100 <? _); destruct (Z.gtb_spec t (expiry it));
        try lia; reflexivity.
    + destruct (t >? expiry it); reflexivity.
  - unfold get. destruct (cache !! key) as [it |]; [| reflexivity].
    destruct (t >? expiry it); [| reflexivity].
    cbn. now rewrite lookup_delete_ne.
Qed.

Lemma X10_other_keys_unaffected_witness :
  fst (get (set sample_cache "other" "x" None 10 10) "k" 50)
  = fst (get sample_cache "k" 50).
Proof.
  refine (proj1 (X10_other_keys_unaffected sample_cache "other" "k" "x" None
                   10 10 50 _ _)).
  - discriminate.
  - lia.
Defined.

(** X11: the cleanup inside [set] is best effort: afterwards either the
    map holds at most 100 entries or every entry it holds is unexpired at
    the time of the cleanup; an entry that is unexpired at that time is
    never removed, so the map can stay above 100 entries. *)
Theorem X11_cleanup_is_best_effort {V : Type} (cache : gmap string (item V))
    (key : string) (v : V) (ttl : option Z) (now now' : Z) :
  let cache' := set cache key v ttl now now' in
  ((size cache' <= 100)%nat
   \/ forall k it, cache' !! k = Some it -> now' <= expiry it)
  /\ (forall k it, k <> key -> cache !! k = Some it -> now' <= expiry it ->
                   cache' !! k = Some it).
Proof.
  intros cache'. split.
  - subst cache'. unfold set.
    destruct (100 <? _) eqn:Hbig.
    + right. intros k it Hk. apply map_lookup_filter_Some in Hk as [_ Hlive].
      cbn in Hlive. lia.
    + left. apply Z.ltb_ge in Hbig. lia.
  - intros k it Hne Hk Hlive. subst cache'.
    rewrite (set_lookup_other cache key k v ttl now now') by congruence.
    rewrite Hk. destruct (decide (expiry it < now')); [lia | reflexivity].
Qed.

Lemma X11_cleanup_is_best_effort_witness :
  set sample_cache "other" "x" None 10 10 !! "k"
  = Some {| value := "payload"; expiry := 100 |}.
Proof.
  refine (proj2 (X11_cleanup_is_best_effort sample_cache "other" "x" None 10 10)
                "k" _ _ eq_refl _).
  - discriminate.
  - cbn. lia.
Defined.

(** With 101 unexpired entries already stored, one more [set] leaves 102
    entries behind. *)
Example cache_can_exceed_100 :
  size (set (filled 101 5000) "fresh" "x" (Some 1000) 0 1) = 102%nat.
Proof. vm_compute. reflexivity. Qed.

(** With 101 expired entries stored, the next [set] drops them all. *)
Example cleanup_drops_expired :
  size (set (filled 101 5) "fresh" "x" (Some 1000) 10 10) = 1%nat.
Proof. vm_compute. reflexivity. Qed.

End CacheExtras.

(* ===================================================================== *)
(** ** More on the Validation Engine                                      *)
(* ===================================================================== *)

Section PreservesFacts.
Import Validation Report.
Context {X : Type} (f : ValidationReport -> X).

Lemma preserves_ret {A : Type} (a : A) : preserves f (ret a).
Proof. intros st res st' [= _ <-]. reflexivity. Qed.

Lemma preserves_read : preserves f read.
Proof. intros st res st' [= _ <-]. reflexivity. Qed.

Lemma preserves_throw {A : Type} e : preserves f (@throw A e).
Proof. intros st res st' [= _ <-]. reflexivity. Qed.

Lemma preserves_liftC {A : Type} (c : completion A) : preserves f (liftC c).
Proof. intros st res st' [= _ <-]. reflexivity. Qed.

Lemma preserves_await {A : Type} (p : settled A) : preserves f (await p).
Proof. destruct p; [apply preserves_ret | apply preserves_throw]. Qed.

Lemma preserves_modify g : (forall st, f (g st) = f st) -> preserves f (modify g).
Proof. intros Hg st res st' [= _ <-]. apply Hg. Qed.

Lemma preserves_bind {A B : Type} (c : M A) (k : A -> M B) :
  preserves f c -> (forall a, preserves f (k a)) -> preserves f (bind c k).
Proof.
  intros Hc Hk st res st' H.
  apply bind_inv in H as [(a & st1 & H1 & H2) | (e & H & _)].
  - rewrite (Hk a _ _ _ H2). exact (Hc _ _ _ H1).
  - exact (Hc _ _ _ H).
Qed.

Lemma preserves_try_catch {A : Type} (body : M A) (h : thrown -> M A) :
  preserves f body -> (forall e, preserves f (h e)) ->
  preserves f (try_catch body h).
Proof.
  intros Hb Hh st res st' H.
  apply try_catch_inv in H as [(a & H & _) | (e & st1 & H1 & H2)].
  - exact (Hb _ _ _ H).
  - rewrite (Hh e _ _ _ H2). exact (Hb _ _ _ H1).
Qed.

Lemma preserves_when b c : preserves f c -> preserves f (when b c).
Proof. destruct b; [auto | intros _; apply preserves_ret]. Qed.

Lemma preserves_if {A : Type} (b : bool) (c1 c2 : M A) :
  preserves f c1 -> preserves f c2 -> preserves f (if b then c1 else c2).
Proof. destruct b; auto. Qed.

End PreservesFacts.

#[local] Hint Resolve preserves_ret preserves_read preserves_throw
  preserves_liftC preserves_await preserves_bind preserves_try_catch
  preserves_when preserves_if : validation.

Section ReportFacts.
Local Open Scope Z_scope.
Import Validation Report.
Variable ToString : jsval -> string.
Variable ToNumber : jsval -> jsnum.

Lemma missing_count_app_other (ws : list note) (w : note) :
  n_type w <> "missing_data" ->
  length (List.filter (fun w => String.eqb (n_type w) "missing_data")
                      (ws ++ w :: nil))
  = length (List.filter (fun w => String.eqb (n_type w) "missing_data") ws).
Proof.
  intros Hne. rewrite List.filter_app, length_app. cbn.
  destruct (String.eqb_spec (n_type w) "missing_data"); [contradiction |].
  cbn. lia.
Qed.

Lemma points_app (a b : list validationEntry) :
  points (a ++ b) = points a + points b.
Proof.
  unfold points. induction a as [| e a IH]; cbn; [reflexivity | rewrite IH; lia].
Qed.

Lemma sec_listed_push (ss : list sourceEntry) (s : sourceEntry) :
  existsb (fun s => String.eqb (s_name s) "SEC EDGAR") (ss ++ s :: nil)
  = existsb (fun s => String.eqb (s_name s) "SEC EDGAR") ss
    || String.eqb (s_name s) "SEC EDGAR".
Proof. rewrite existsb_app. cbn. now rewrite orb_false_r. Qed.

(** The economic check touches neither the validations, nor the SEC
    source, nor the missing-data warnings. *)
Lemma economicCheck_preserves econ :
  preserves validations (economicCheck ToString ToNumber econ)
  /\ preserves sec_listed (economicCheck ToString ToNumber econ)
  /\ preserves missing_count (economicCheck ToString ToNumber econ).
Proof.
  unfold economicCheck, push_source, push_warning, push_recommendation.
  split; [| split].
  - repeat first
      [ apply preserves_try_catch | apply preserves_bind | apply preserves_if
      | apply preserves_when | apply preserves_modify; reflexivity
      | match goal with |- forall _, _ => intro end
      | solve [auto with validation] ].
  - repeat first
      [ apply preserves_try_catch | apply preserves_bind | apply preserves_if
      | apply preserves_when
      | apply preserves_modify; intros st; unfold sec_listed; cbn;
        rewrite ?sec_listed_push; cbn; now rewrite ?orb_false_r
      | match goal with |- forall _, _ => intro end
      | solve [auto with validation] ].
  - repeat first
      [ apply preserves_try_catch | apply preserves_bind | apply preserves_if
      | apply preserves_when
      | apply preserves_modify; intros st; unfold missing_count; cbn;
        first [reflexivity | apply missing_count_app_other; discriminate]
      | match goal with |- forall _, _ => intro end
      | solve [auto with validation] ].
Qed.

(** One pass over the core metrics: every name adds either a validation
    (with its points) or a missing-data warning. *)
Lemma scoreMetrics_effect metrics names n t st n' t' st' :
  scoreMetrics metrics names (n, t) st = (Normal (n', t'), st') ->
  sources st' = sources st
  /\ exists new,
      validations st' = (validations st ++ new)%list
      /\ n' = n + Z.of_nat (length new)
      /\ t' = t + points new
      /\ (missing_count st' + length new
          = missing_count st + length names)%nat.
Proof.
  revert n t st. induction names as [| name names IH]; intros n t st H; cbn in H.
  - injection H as <- <- <-. split; [reflexivity |].
    exists nil. rewrite app_nil_r. cbn. repeat split; lia.
  - apply bind_inv in H as [([n1 t1] & s1 & H1 & H) | (e & _ & [=])].
    apply IH in H as (Hsrc & new & Hv & Hn & Ht & Hm).
    unfold scoreMetric in H1.
    apply bind_inv in H1 as [(value & s0 & H0 & H1) | (e & _ & [=])].
    injection H0 as _ <-.
    destruct (is_number value).
    + apply bind_inv in H1 as [([] & s2 & H2 & H1) | (e & _ & [=])].
      injection H2 as <-. injection H1 as <- <- <-.
      split; [exact Hsrc |].
      cbn in Hv, Hsrc. rewrite <- app_assoc in Hv.
      eexists. split; [exact Hv |].
      rewrite points_app, length_app. unfold missing_count in *.
      cbn in Hm. cbn. repeat split; lia.
    + apply bind_inv in H1 as [([] & s2 & H2 & H1) | (e & _ & [=])].
      injection H2 as <-. injection H1 as <- <- <-.
      split; [exact Hsrc |].
      exists new. split; [exact Hv |].
      unfold missing_count in *. cbn in Hm.
      rewrite List.filter_app, length_app in Hm. cbn in Hm.
      cbn [length]. repeat split; lia.
Qed.

(** The SEC step: it adds the bonus exactly when it lists the SEC source,
    which it does only for a lookup that did not fail. *)
Lemma secCheck_effect sec t st ts st' :
  secCheck ToString sec t st = (Normal ts, st') ->
  validations st' = validations st
  /\ missing_count st' = missing_count st
  /\ ((ts = t + 10 /\ sec_listed st' = true /\ ~ sec_failed sec)
      \/ (ts = t /\ sec_listed st' = sec_listed st)).
Proof.
  unfold secCheck. intros H.
  apply try_catch_inv in H as [(a & H & [= <-]) | (e & s1 & Hb & H)].
  - apply bind_inv in H as [(secData & s1 & Hs & H) | (e & _ & [=])].
    destruct sec as [d | e]; [| discriminate Hs]. injection Hs as <- <-.
    apply bind_inv in H as [(err & s2 & He & H) | (e & _ & [=])].
    injection He as He <-.
    destruct (truthy err) eqn:Herr; cbn [negb] in H.
    + apply bind_inv in H as [([] & s3 & H3 & H) | (e & _ & [=])].
      injection H3 as <-. injection H as <- <-.
      split; [reflexivity |]. split.
      * unfold missing_count. cbn. apply missing_count_app_other. discriminate.
      * right. split; reflexivity.
    + apply bind_inv in H as [(name & s3 & H3 & H) | (e & _ & [=])].
      injection H3 as _ <-.
      apply bind_inv in H as [(cik & s4 & H4 & H) | (e & _ & [=])].
      injection H4 as _ <-.
      apply bind_inv in H as [(filings & s5 & H5 & H) | (e & _ & [=])].
      injection H5 as _ <-.
      apply bind_inv in H as [(count & s6 & H6 & H) | (e & _ & [=])].
      injection H6 as _ <-.
      apply bind_inv in H as [([] & s7 & H7 & H) | (e & _ & [=])].
      injection H7 as <-. injection H as <- <-.
      split; [reflexivity |]. split; [reflexivity |].
      left. split; [reflexivity |]. split.
      * unfold sec_listed. cbn. rewrite sec_listed_push. cbn.
        apply orb_true_r.
      * unfold sec_failed. rewrite He, Herr. discriminate.
  - assert (Hs1 : s1 = st).
    { clear H.
      apply bind_inv in Hb as [(secData & s0 & Hs & Hb) | (e0 & Hs & _)];
        [| destruct sec; [discriminate Hs | now injection Hs as _ <-]].
      destruct sec as [d | e0]; [| discriminate Hs]. injection Hs as <- <-.
      apply bind_inv in Hb as [(err & s2 & He & Hb) | (e0 & He & _)];
        [| now injection He as _ <-].
      injection He as _ <-.
      destruct (negb (truthy err)).
      - apply bind_inv in Hb as [(name & s3 & H3 & Hb) | (e0 & H3 & _)];
          [| now injection H3 as _ <-].
        injection H3 as _ <-.
        apply bind_inv in Hb as [(cik & s4 & H4 & Hb) | (e0 & H4 & _)];
          [| now injection H4 as _ <-].
        injection H4 as _ <-.
        apply bind_inv in Hb as [(filings & s5 & H5 & Hb) | (e0 & H5 & _)];
          [| now injection H5 as _ <-].
        injection H5 as _ <-.
        apply bind_inv in Hb as [(count & s6 & H6 & Hb) | (e0 & H6 & _)];
          [| now injection H6 as _ <-].
        injection H6 as _ <-.
        apply bind_inv in Hb as [([] & s7 & H7 & Hb) | (e0 & H7 & _)];
          [discriminate Hb | discriminate H7].
      - apply bind_inv in Hb as [([] & s3 & H3 & Hb) | (e0 & H3 & _)];
          [discriminate Hb | discriminate H3]. }
    subst s1.
    apply bind_inv in H as [(msg & s2 & Hm & H) | (e' & _ & [=])].
    injection Hm as _ <-.
    apply bind_inv in H as [([] & s3 & H3 & H) | (e' & _ & [=])].
    injection H3 as <-. injection H as <- <-.
    split; [reflexivity |]. split.
    + unfold missing_count. cbn. apply missing_count_app_other. discriminate.
    + right. split; reflexivity.
Qed.

Lemma points_range (vs : list validationEntry) :
  0 <= points vs <= 100 * Z.of_nat (length vs).
Proof.
  unfold points. induction vs as [| e vs IH]; cbn [fold_right length]; [lia |].
  pose proof (score_of_range (rating (ve_result e))). lia.
Qed.

(** [Math.round(total / count)] stays within the bound of the average. *)
Lemma average_bound (ts n bound : Z) :
  1 <= n -> 0 <= ts <= bound * n ->
  0 <= Math_round (inject_Z ts / inject_Z n) <= bound.
Proof.
  intros Hn Hts.
  assert (Hpos : (0 < inject_Z n)%Q).
  { change 0%Q with (inject_Z 0). rewrite <- Zlt_Qlt. lia. }
  split.
  - apply Math_round_lower. change (inject_Z 0) with 0%Q.
    apply Qle_shift_div_l; [exact Hpos |].
    rewrite Qmult_0_l. change 0%Q with (inject_Z 0). rewrite <- Zle_Qle. lia.
  - apply Math_round_upper.
    apply Qle_shift_div_r; [exact Hpos |].
    rewrite <- inject_Z_mult, <- Zle_Qle. lia.
Qed.

(** The last steps of the outer [try], from the score on. *)
Lemma finish_report (k : ValidationReport -> M ValidationReport)
      (b : bool) (x : Z) st res st' :
  bind (when b (set_overallScore x)) (fun _ => bind read k) st = (res, st') ->
  exists s1,
    overallScore s1 = (if b then x else overallScore st)
    /\ validations s1 = validations st
    /\ warnings s1 = warnings st
    /\ sources s1 = sources st
    /\ k s1 s1 = (res, st').
Proof.
  intros H. destruct b; cbn in H;
    refine (ex_intro _ _ (conj _ (conj _ (conj _ (conj _ H)))));
    reflexivity.
Qed.

Lemma when_push_recommendation b w st res st' :
  when b (push_recommendation w) st = (res, st') ->
  res = Normal tt
  /\ overallScore st' = overallScore st
  /\ dataQuality st' = dataQuality st
  /\ validations st' = validations st
  /\ warnings st' = warnings st
  /\ sources st' = sources st.
Proof. destruct b; intros [= <- <-]; repeat split. Qed.

(** The steps after the score: the tier is set from the score and only
    recommendations are added. *)
Lemma report_tail (n : Z) s4 res st' :
  (bind (set_dataQuality (if 85 <=? overallScore s4 then "excellent"
                          else if 70 <=? overallScore s4 then "good"
                          else if 50 <=? overallScore s4 then "fair"
                          else "poor"))
     (fun _ => bind read (fun r =>
        bind (when (2 <? length (warnings r))%nat
                (push_recommendation
                   {| n_type := "data_quality";
                      n_message := "Multiple data quality issues detected. Consider using alternative data sources." |}))
          (fun _ =>
             bind (when (n <? Z.of_nat (length coreMetrics))
                     (push_recommendation
                        {| n_type := "completeness";
                           n_message := "Some key metrics are missing. Data may be incomplete." |}))
               (fun _ => read))))) s4 = (res, st') ->
  res = Normal st'
  /\ overallScore st' = overallScore s4
  /\ dataQuality st' = tier (overallScore s4)
  /\ validations st' = validations s4
  /\ warnings st' = warnings s4
  /\ sources st' = sources s4.
Proof.
  intros H.
  apply bind_inv in H as [([] & a1 & H1 & H) | (e & [=] & _)].
  injection H1 as <-.
  apply bind_inv in H as [(r2 & a2 & H2 & H) | (e & [=] & _)].
  injection H2 as <- <-.
  apply bind_inv in H as [([] & a3 & H3 & H) | (e & H3 & _)];
    [| apply when_push_recommendation in H3 as [[=] _]].
  apply when_push_recommendation in H3 as (_ & S3 & Q3 & V3 & W3 & R3).
  apply bind_inv in H as [([] & a4 & H4 & H) | (e & H4 & _)];
    [| apply when_push_recommendation in H4 as [[=] _]].
  apply when_push_recommendation in H4 as (_ & S4 & Q4 & V4 & W4 & R4).
  injection H as <- <-.
  rewrite S4, S3, Q4, Q3, V4, V3, W4, W3, R4, R3.
  repeat split.
Qed.

(** A report built by a run of the outer [try] that reached its
    [return]. *)
Lemma validateBody_report fd sec econ tkr now r st' :
  validateBody ToString ToNumber fd sec econ (initial_report tkr now)
  = (Normal r, st') ->
  dataQuality r = tier (overallScore r)
  /\ overallScore r = recomputed_score r
  /\ (length (validations r) + missing_count r = 4)%nat
  /\ (sec_listed r = true -> ~ sec_failed sec).
Proof.
  intros H. unfold validateBody in H.
  apply bind_inv in H as [(metrics & s0 & Hm & H) | (e & _ & [=])].
  injection Hm as _ <-.
  destruct (negb (truthy metrics)); [discriminate H |].
  apply bind_inv in H as [([n t] & s1 & Hscore & H) | (e & _ & [=])].
  pose proof (scoreMetrics_keeps_score _ _ _ _ _ _ Hscore) as K1.
  apply scoreMetrics_effect in Hscore as (Hsrc1 & new & Hv1 & Hn & Ht & Hm1).
  cbn in Hsrc1, Hv1, Hn, Ht, Hm1, K1.
  apply bind_inv in H as [(ts & s2 & Hsec & H) | (e & _ & [=])].
  pose proof (secCheck_keeps_score _ _ _ _ _ _ Hsec) as K2.
  apply secCheck_effect in Hsec as (Hv2 & Hm2 & Hbonus).
  apply bind_inv in H as [([] & s3 & Hecon & H) | (e & _ & [=])].
  pose proof (economicCheck_keeps_score _ _ _ _ _ _ Hecon) as K3.
  destruct (economicCheck_preserves econ) as (Pv & Ps & Pm).
  pose proof (Pv _ _ _ Hecon) as Hv3.
  pose proof (Ps _ _ _ Hecon) as Hs3.
  pose proof (Pm _ _ _ Hecon) as Hm3.
  apply finish_report in H as (s4 & Hs4 & Hv4 & Hw4 & Hsrc4 & H).
  assert (Hfinal : r = st'
                   /\ overallScore r = overallScore s4
                   /\ dataQuality r = tier (overallScore s4)
                   /\ validations r = validations s4
                   /\ sources r = sources s4
                   /\ missing_count r = missing_count s4).
  { cbv beta in H.
    apply report_tail in H as ([= <-] & S & Q & V & W & R).
    unfold missing_count. rewrite W. auto 10. }
  destruct Hfinal as (_ & Hfs & Hfq & Hfv & Hfsrc & Hfm).
  assert (Hsl4 : sec_listed r = sec_listed s3).
  { unfold sec_listed. now rewrite Hfsrc, Hsrc4. }
  assert (Hsl1 : sec_listed s1 = false).
  { unfold sec_listed. now rewrite Hsrc1. }
  assert (Hval : validations r = new).
  { now rewrite Hfv, Hv4, Hv3, Hv2, Hv1. }
  split; [now rewrite Hfq, Hfs |].
  split; [| split].
  - rewrite Hfs, Hs4. unfold recomputed_score. rewrite Hval, Hsl4, Hs3.
    destruct new as [| e new].
    + subst n. change (overallScore s3 = 0). lia.
    + assert (Hpos : (0 <? n) = true) by (apply Z.ltb_lt; cbn in Hn; lia).
      rewrite Hpos. subst n t. rewrite Z.add_0_l.
      destruct Hbonus as [(-> & -> & _) | (-> & ->)]; [reflexivity |].
      rewrite Hsl1, Z.add_0_r. reflexivity.
  - rewrite Hval, Hfm. unfold missing_count in *.
    rewrite Hw4, Hm3, Hm2. cbn in Hm1. lia.
  - rewrite Hsl4, Hs3.
    destruct Hbonus as [(_ & _ & Hok) | (_ & Heq)]; [intros _; exact Hok |].
    rewrite Heq, Hsl1. discriminate.
Qed.

(** When the outer [try] throws, no score has been set yet. *)
Lemma validateBody_throw_score fd sec econ st0 e st' :
  validateBody ToString ToNumber fd sec econ st0 = (Throw e, st') ->
  overallScore st' = overallScore st0.
Proof.
  intros H. unfold validateBody in H.
  apply bind_inv in H as [(metrics & s0 & Hm & H) | (e0 & Hm & _)];
    [| now injection Hm as _ <-].
  injection Hm as _ <-.
  destruct (negb (truthy metrics)); [now injection H as _ <- |].
  apply bind_inv in H as [([n t] & s1 & Hscore & H) | (e0 & Hscore & _)];
    [| exact (scoreMetrics_keeps_score _ _ _ _ _ _ Hscore)].
  apply scoreMetrics_keeps_score in Hscore.
  apply bind_inv in H as [(ts & s2 & Hsec & H) | (e0 & Hsec & _)];
    [| apply secCheck_keeps_score in Hsec; congruence].
  apply secCheck_keeps_score in Hsec.
  apply bind_inv in H as [([] & s3 & Hecon & H) | (e0 & Hecon & _)];
    [| apply economicCheck_keeps_score in Hecon; congruence].
  exfalso.
  apply finish_report in H as (s4 & _ & _ & _ & _ & H).
  cbv beta in H. apply report_tail in H as ([=] & _).
Qed.

(** The score recomputed from a report is at most 100, or at most 110
    when the SEC source is listed. *)
Lemma recomputed_score_bounds (r : ValidationReport) :
  0 <= recomputed_score r <= (if sec_listed r then 110 else 100).
Proof.
  unfold recomputed_score.
  destruct (validations r) as [| e vs] eqn:Hv; [destruct (sec_listed r); lia |].
  pose proof (points_range (e :: vs)) as Hp.
  assert (Hn : 1 <= Z.of_nat (length (e :: vs))) by (cbn [length]; lia).
  destruct (sec_listed r); apply average_bound; lia.
Qed.

(** The two ways a report comes back: from the outer [catch], with
    quality 'error' and the initial score, or from the end of the outer
    [try]. *)
Lemma report_cases tkr fd sec econ now r :
  validateCompanyData ToString ToNumber tkr fd sec econ now = Fulfilled r ->
  (dataQuality r = "error" /\ overallScore r = 0)
  \/ (dataQuality r = tier (overallScore r)
      /\ overallScore r = recomputed_score r
      /\ (length (validations r) + missing_count r = 4)%nat
      /\ (sec_listed r = true -> ~ sec_failed sec)).
Proof.
  unfold validateCompanyData, try_catch.
  destruct (validateBody ToString ToNumber fd sec econ (initial_report tkr now))
    as [[r0 | e] st] eqn:Hbody.
  - intros [= <-]. right. exact (validateBody_report _ _ _ _ _ _ _ Hbody).
  - destruct (validateBody_only_errors ToString ToNumber _ _ _ _ _ _ Hbody)
      as [m ->].
    rewrite validateHandler_error. cbv zeta. intros [= <-]. left.
    split; [reflexivity |].
    exact (validateBody_throw_score _ _ _ _ _ _ Hbody).
Qed.

(** X12: a report never comes back with the initial quality 'unknown'.
    Either it has quality 'error' and score 0, or its quality is the tier
    of its score (85 and above 'excellent', 70 'good', 50 'fair', below
    'poor'), the score is [Math.round] of the points of the listed
    validations (plus 10 when the SEC source is listed) over their
    number, and each of the four core metrics left either a validation
    or a 'missing_data' warning. *)
Theorem X12_report_is_self_consistent (tkr : string) (fd : jsval)
    (sec econ : settled jsval) (now : string) (r : ValidationReport) :
  validateCompanyData ToString ToNumber tkr fd sec econ now = Fulfilled r ->
  dataQuality r <> "unknown"
  /\ ((dataQuality r = "error" /\ overallScore r = 0)
      \/ (dataQuality r = tier (overallScore r)
          /\ overallScore r = recomputed_score r
          /\ (length (validations r) + missing_count r = 4)%nat)).
Proof.
  intros H. apply report_cases in H as [[Hq Hs] | (Hq & Hs & Hc & _)].
  - split; [rewrite Hq; discriminate | left; split; assumption].
  - split; [| right; repeat split; assumption].
    rewrite Hq. unfold tier.
    destruct (85 <=? overallScore r); [discriminate |].
    destruct (70 <=? overallScore r); [discriminate |].
    destruct (50 <=? overallScore r); discriminate.
Qed.

(** X13: the score of a report lies between 0 and 110; it is at most 100
    when the regulatory lookup failed, and a score above 100 only occurs
    with the SEC source listed and quality 'excellent'. *)
Theorem X13_score_bounds (tkr : string) (fd : jsval)
    (sec econ : settled jsval) (now : string) (r : ValidationReport) :
  validateCompanyData ToString ToNumber tkr fd sec econ now = Fulfilled r ->
  0 <= overallScore r <= 110
  /\ (sec_failed sec -> overallScore r <= 100)
  /\ (100 < overallScore r ->
      sec_listed r = true /\ dataQuality r = "excellent").
Proof.
  intros H. apply report_cases in H as [[Hq Hs] | (Hq & Hs & _ & Hsec)].
  - rewrite Hs. repeat split; intros; lia.
  - pose proof (recomputed_score_bounds r) as Hb. rewrite <- Hs in Hb.
    destruct (sec_listed r) eqn:Hl.
    + split; [lia |]. split.
      * intros Hf. destruct (Hsec eq_refl Hf).
      * intros Hgt. split; [reflexivity |]. rewrite Hq. unfold tier.
        destruct (Z.leb_spec 85 (overallScore r)); [reflexivity | lia].
    + split; [lia |]. split; [intros _; lia | intros Hgt; lia].
Qed.

(** *** What can make the outer [try] throw *)

Lemma get_prop_truthy (v : jsval) (k : string) :
  truthy v = true -> exists x, get_prop v k = Normal x.
Proof. destruct v; cbn; try discriminate; eauto. Qed.

Lemma scoreMetrics_never_throws metrics names acc st e st' :
  truthy metrics = true ->
  scoreMetrics metrics names acc st = (Throw e, st') -> False.
Proof.
  intros Ht. revert acc st.
  induction names as [| name names IH]; intros acc st H; cbn in H;
    [discriminate H |].
  apply bind_inv in H as [(acc' & s1 & _ & H) | (e' & H & _)];
    [exact (IH _ _ H) |].
  unfold scoreMetric in H. destruct acc as [n t].
  destruct (get_prop_truthy metrics name Ht) as [x Hx].
  apply bind_inv in H as [(value & s0 & H0 & H) | (e0 & H0 & _)].
  - destruct (is_number value).
    + apply bind_inv in H as [([] & s2 & _ & [=]) | (e1 & [=] & _)].
    + apply bind_inv in H as [([] & s2 & _ & [=]) | (e1 & [=] & _)].
  - unfold liftC in H0. rewrite Hx in H0. discriminate H0.
Qed.

Ltac only_errors_steps :=
  repeat first
    [ apply only_errors_bind | apply only_errors_if | apply only_errors_when
    | apply only_errors_ret | apply only_errors_get_prop
    | apply only_errors_opt_chain | apply only_errors_push_source
    | apply only_errors_push_warning | apply only_errors_push_recommendation
    | match goal with |- forall _, _ => intro end ].

(** A lookup step throws only when the lookup was rejected with a value
    whose message cannot be read. *)
Lemma lookup_step_throws {A : Type} (lookup : settled jsval)
    (k : jsval -> M A) (h : thrown -> M A) st e st' :
  (forall a, only_errors (k a)) ->
  (forall e0 s res s', h e0 s = (res, s') ->
     forall e1, res = Throw e1 -> thrown_message e0 = Throw e1) ->
  try_catch (bind (await lookup) k) h st = (Throw e, st') ->
  ~ lookup_readable lookup.
Proof.
  intros Hk Hh H Hread.
  apply try_catch_inv in H as [(a & _ & [=]) | (e0 & s1 & Hbody & Hhandler)].
  pose proof (Hh _ _ _ _ Hhandler e eq_refl) as Hmsg.
  apply bind_inv in Hbody as [(a & s0 & _ & Hrest) | (e1 & Hawait & Heq)].
  - destruct (Hk a _ _ _ Hrest) as [m ->]. discriminate Hmsg.
  - injection Heq as ->.
    destruct lookup as [v | e2]; [discriminate Hawait |].
    injection Hawait as -> _. destruct Hread as [m Hm]. congruence.
Qed.

Lemma secCheck_throws sec t st e st' :
  secCheck ToString sec t st = (Throw e, st') -> ~ lookup_readable sec.
Proof.
  unfold secCheck. apply lookup_step_throws.
  - intros secData. only_errors_steps.
  - intros e0 s res s' H e1 ->.
    apply bind_inv in H as [(msg & s0 & _ & H) | (e2 & H & [= <-])].
    + apply bind_inv in H as [([] & s2 & _ & [=]) | (e2 & [=] & _)].
    + now injection H as -> _.
Qed.

Lemma economicCheck_throws econ st e st' :
  economicCheck ToString ToNumber econ st = (Throw e, st') -> ~ lookup_readable econ.
Proof.
  unfold economicCheck. apply lookup_step_throws.
  - intros economicData. only_errors_steps.
  - intros e0 s res s' H e1 ->.
    apply bind_inv in H as [(msg & s0 & _ & H) | (e2 & H & [= <-])].
    + discriminate H.
    + now injection H as -> _.
Qed.

(** With metrics to validate and a readable regulatory lookup, the
    outer [try] can only throw out of the economic step. *)
Lemma validateBody_throw_inv fd sec econ st0 e st' metrics :
  validateBody ToString ToNumber fd sec econ st0 = (Throw e, st') ->
  get_prop fd "currentMetrics" = Normal metrics ->
  truthy metrics = true ->
  lookup_readable sec ->
  ~ lookup_readable econ
  /\ exists t st1 ts st2,
       secCheck ToString sec t st1 = (Normal ts, st2)
       /\ economicCheck ToString ToNumber econ st2 = (Throw e, st').
Proof.
  intros H Hm Ht Hsec. unfold validateBody in H.
  apply bind_inv in H as [(metrics' & s0 & Hm' & H) | (e0 & Hm' & _)];
    [| unfold liftC in Hm'; rewrite Hm in Hm'; discriminate Hm'].
  unfold liftC in Hm'. rewrite Hm in Hm'. injection Hm' as <- <-.
  rewrite Ht in H. cbn [negb] in H.
  apply bind_inv in H as [([n t] & s1 & Hscore & H) | (e0 & Hscore & _)];
    [| destruct (scoreMetrics_never_throws _ _ _ _ _ _ Ht Hscore)].
  apply bind_inv in H as [(ts & s2 & Hs & H) | (e0 & Hs & _)];
    [| destruct (secCheck_throws _ _ _ _ _ Hs Hsec)].
  apply bind_inv in H as [([] & s3 & Hecon & H) | (e0 & Hecon & [= <-])].
  - exfalso. apply finish_report in H as (s4 & _ & _ & _ & _ & H).
    cbv beta in H. apply report_tail in H as ([=] & _).
  - split; [exact (economicCheck_throws _ _ _ _ Hecon) |].
    exists t, s1, ts, s2. split; assumption.
Qed.

(** X30: for every ticker, every financialData value and every outcome
    of the two lookups, the promise returned by [validateCompanyData] is
    fulfilled with a report: it never rejects.  When the body of the
    outer [try] throws, the report is the partial report built so far
    with one 'validation_error' warning appended and dataQuality
    'error'; for null, undefined, or data without currentMetrics that
    partial report is empty.  With metrics to validate and lookups whose
    rejections can be read, a failed regulatory lookup leaves a
    'sec_error' or 'sec_validation' warning, and a rejected economic
    lookup leaves an 'economic_data' warning in a report that is not an
    error report. *)
Theorem X30_never_rejects (tkr : string) (fd : jsval)
    (sec econ : settled jsval) (now : string) :
  exists r,
    validateCompanyData ToString ToNumber tkr fd sec econ now = Fulfilled r
    /\ (forall e partial,
          validateBody ToString ToNumber fd sec econ (initial_report tkr now)
          = (Throw e, partial) ->
          dataQuality r = "error"
          /\ validations r = validations partial
          /\ sources r = sources partial
          /\ recommendations r = recommendations partial
          /\ overallScore r = overallScore partial
          /\ exists m,
              e = ErrorObj m
              /\ warnings r
                 = (warnings partial
                    ++ {| n_type := "validation_error";
                          n_message :=
                            "Validation process failed: "
                            ++ ToString (JStr m) |} :: nil)%list)
    /\ ((forall metrics, get_prop fd "currentMetrics" = Normal metrics ->
                         truthy metrics = false) ->
        dataQuality r = "error" /\ validations r = nil /\ sources r = nil)
    /\ (forall metrics,
          get_prop fd "currentMetrics" = Normal metrics ->
          truthy metrics = true ->
          lookup_readable sec ->
          (sec_failed sec ->
           exists w, In w (warnings r)
                     /\ (n_type w = "sec_error" \/ n_type w = "sec_validation"))
          /\ (forall e, econ = Rejected e -> lookup_readable econ ->
              dataQuality r <> "error"
              /\ exists w, In w (warnings r) /\ n_type w = "economic_data")).
Proof.
  unfold validateCompanyData, try_catch.
  destruct (validateBody ToString ToNumber fd sec econ (initial_report tkr now))
    as [[r | e] st] eqn:Hbody.
  - (* the body ran to its [return] *)
    exists r. split; [reflexivity |].
    pose proof (validateBody_report _ _ _ _ _ _ _ Hbody) as (Hq & _).
    destruct (validateBody_normal_inv _ _ _ _ _ _ _ _ Hbody)
      as (-> & metrics & n & t & ts & st1 & st2 & st3
          & Hm & Htruthy & Hscore & Hsec & Hecon & Hincl).
    split; [intros e partial [=] |].
    split; [intros Hnone; rewrite (Hnone _ Hm) in Htruthy; discriminate |].
    intros metrics' _ _ _. split.
    + intros Hfail.
      destruct (secCheck_failed _ _ _ _ _ _ Hfail Hsec)
        as [(e & [=]) | (w & Hin & Hty)].
      exists w. split; [| exact Hty].
      apply Hincl. eapply economicCheck_grows; eauto.
    + intros e -> _. split.
      * rewrite Hq. unfold tier.
        repeat match goal with
               | |- context [if ?b then _ else _] => destruct b
               end; discriminate.
      * destruct (economicCheck_rejected _ _ _ _ _ _ Hecon)
          as [(e' & [=]) | (w & Hin & Hty)].
        exists w. split; [apply Hincl; exact Hin | exact Hty].
  - (* the body threw: the outer [catch] builds the report *)
    destruct (validateBody_only_errors ToString ToNumber _ _ _ _ _ _ Hbody)
      as [m ->].
    rewrite validateHandler_error. cbv zeta.
    eexists. split; [reflexivity |].
    split; [intros e partial [= <- <-]; cbn; repeat split; eauto |].
    split.
    + intros Hnone. cbn. split; [reflexivity |].
      unfold validateBody in Hbody.
      apply bind_inv in Hbody as [(metrics & s0 & Hm & H) | (e & H & _)].
      * injection Hm as Hm <-. rewrite (Hnone _ Hm) in H. cbn in H.
        injection H as _ <-. split; reflexivity.
      * injection H as _ <-. split; reflexivity.
    + intros metrics Hm Ht Hsec.
      destruct (validateBody_throw_inv _ _ _ _ _ _ _ Hbody Hm Ht Hsec)
        as (Hecon & t & st1 & ts & st2 & Hs & He).
      split.
      * intros Hfail.
        destruct (secCheck_failed _ _ _ _ _ _ Hfail Hs)
          as [(e & [=]) | (w & Hin & Hty)].
        exists w. split; [| exact Hty].
        cbn [warnings]. apply in_or_app. left.
        eapply economicCheck_grows; eauto.
      * intros e -> Hread. contradiction.
Qed.

End ReportFacts.

Lemma X12_report_is_self_consistent_witness :
  exists r,
    Validation.validateCompanyData (fun _ => "") (fun _ => NaN) "CB"
      Validation.roe_only_data Validation.sec_verified Validation.econ_empty
      "2024-06-30T00:00:00.000Z" = Fulfilled r
    /\ Validation.dataQuality r <> "unknown"
    /\ length (Validation.validations r) = 1%nat.
Proof.
  eexists. split; [vm_compute; reflexivity |].
  split; [| reflexivity].
  refine (proj1 (X12_report_is_self_consistent (fun _ => "") (fun _ => NaN)
                   "CB" Validation.roe_only_data Validation.sec_verified
                   Validation.econ_empty "2024-06-30T00:00:00.000Z" _ _)).
  vm_compute; reflexivity.
Defined.

Lemma X13_score_bounds_witness :
  exists r,
    Validation.validateCompanyData (fun _ => "") (fun _ => NaN) "CB"
      Validation.excellent_data Validation.sec_verified Validation.econ_empty
      "2024-06-30T00:00:00.000Z" = Fulfilled r
    /\ (0 <= Validation.overallScore r <= 110)%Z
    /\ Validation.overallScore r = 103%Z.
Proof.
  eexists. split; [vm_compute; reflexivity |].
  split; [| reflexivity].
  refine (proj1 (X13_score_bounds (fun _ => "") (fun _ => NaN) "CB"
                   Validation.excellent_data Validation.sec_verified
                   Validation.econ_empty "2024-06-30T00:00:00.000Z" _ _)).
  vm_compute; reflexivity.
Defined.

(* ===================================================================== *)
(** ** More on the rating of a metric (dataValidationService)            *)
(* ===================================================================== *)

Lemma Qle_bool_spec (x y : Q) : reflect (x <= y)%Q (Qle_bool x y).
Proof. apply iff_reflect. symmetry. apply Qle_bool_iff. Qed.

(** Case analysis on the comparisons of a band scan, one at a time,
    pruning the branches that are not taken. *)
Ltac band_cases :=
  repeat match goal with
         | |- context [Qle_bool ?a ?b] =>
             destruct (Qle_bool_spec a b); cbn [andb negb]; cbv iota
         end.

Section MetricRatingExtras.
Local Open Scope Q_scope.
Import Validation.

(** X14: the bands of each core metric leave no gap, so a number is
    rated 'outlier' exactly when it lies outside the span of the five
    bands (combinedRatio 85 to 130, roe -5 to 25, lossRatio 55 to 110,
    expenseRatio 20 to 50; NaN and the infinities are outside), and a
    number is never rated 'unknown' for these metrics. *)
Theorem X14_outlier_iff_outside_bands (metric : string) (lo hi : Q)
    (v : jsnum) :
  In (metric, (lo, hi))
     (("combinedRatio", (85, 130)) :: ("roe", (-5, 25))
      :: ("lossRatio", (55, 110)) :: ("expenseRatio", (20, 50)) :: nil) ->
  (rating (validateMetric metric (JNum v)) = "outlier"
   <-> num_ge v lo && num_le v hi = false)
  /\ rating (validateMetric metric (JNum v)) <> "unknown"
  /\ (benchmark (validateMetric metric (JNum v)) = None
      <-> rating (validateMetric metric (JNum v)) = "outlier").
Proof.
  intros Hin. cbn in Hin.
  destruct Hin as [[= <- <- <-] | [[= <- <- <-] | [[= <- <- <-]
                  | [[= <- <- <-] | []]]]];
    unfold validateMetric; cbn -[Qle_bool];
    (destruct v as [q | | |]; cbn -[Qle_bool];
     [| repeat split; (discriminate || reflexivity || (intros; discriminate)) ..]);
    band_cases; cbn;
    (repeat split; try discriminate; try reflexivity; intros; try discriminate;
     exfalso; lra).
Qed.

Lemma X14_outlier_iff_outside_bands_witness :
  rating (validateMetric "expenseRatio" (num 15)) = "outlier".
Proof.
  apply (proj1 (X14_outlier_iff_outside_bands "expenseRatio" 20 50 (Fin 15)
                  (or_intror (or_intror (or_intror (or_introl eq_refl)))))).
  reflexivity.
Defined.

(** X15: the percentile attached to a rated value.  For combinedRatio,
    lossRatio and expenseRatio it follows the rating (excellent 90, good
    75, fair 50, poor 25, critical 10); for roe every rated value gets
    90, whatever its rating. *)
Theorem X15_percentile_of_rated_value (metric : string) (v : jsnum) (p : Z) :
  In metric ("combinedRatio" :: "roe" :: "lossRatio" :: "expenseRatio" :: nil) ->
  percentile (validateMetric metric (JNum v)) = Some p ->
  (metric = "roe" -> p = 90%Z)
  /\ (metric <> "roe" ->
      In (rating (validateMetric metric (JNum v)), p)
         (("excellent", 90%Z) :: ("good", 75%Z) :: ("fair", 50%Z)
          :: ("poor", 25%Z) :: ("critical", 10%Z) :: nil)).
Proof.
  intros Hin. cbn in Hin.
  destruct Hin as [<- | [<- | [<- | [<- | []]]]];
    unfold validateMetric; cbn [assoc INDUSTRY_BENCHMARKS String.eqb].
  all: destruct v as [q | | |]; cbn -[Qle_bool In]; try discriminate.
  all: band_cases; cbn -[In]; try discriminate.
  all: intros [= <-]; split; intros Hm;
    try discriminate Hm; try reflexivity; try (now contradiction Hm);
    try (cbn; tauto); try (exfalso; lra).
Qed.

Lemma X15_percentile_of_rated_value_witness :
  exists p,
    rating (validateMetric "roe" (num 0)) = "critical"
    /\ percentile (validateMetric "roe" (num 0)) = Some p
    /\ p = 90%Z.
Proof.
  eexists. split; [reflexivity |]. split; [reflexivity |].
  exact (proj1 (X15_percentile_of_rated_value "roe" (Fin 0) 90
                  (or_intror (or_introl eq_refl)) eq_refl)
           eq_refl).
Defined.

End MetricRatingExtras.

(* ===================================================================== *)
(** ** Calculated metrics under the validator; the quick check            *)
(* ===================================================================== *)

Section CalculatedMetricsExtras.
Local Open Scope Q_scope.
Import Calc Interop Validation.

Lemma returned_combinedRatio_range (fd : RawFinancialRecord) (rnd : Q) :
  0 <= rnd < 1 ->
  88 <= m_combinedRatio (calculateInsuranceMetrics fd rnd) <= 120.
Proof.
  intros Hr. cbn [calculateInsuranceMetrics m_combinedRatio].
  pose proof (combinedRatio_is_estimate fd rnd Hr) as HC.
  destruct (estimate_range fd rnd Hr) as [Hlo Hhi].
  destruct (round1_bounds 880 1200 (combinedRatio fd rnd)) as [H1 H2].
  { change (inject_Z 880) with 880. change (inject_Z 1200) with 1200.
    rewrite HC. split; lra. }
  change (inject_Z 880) with 880 in H1. change (inject_Z 1200) with 1200 in H2.
  qdiv_const. split; lra.
Qed.

Lemma returned_expenseRatio_range (fd : RawFinancialRecord) (rnd : Q) :
  15 <= m_expenseRatio (calculateInsuranceMetrics fd rnd) <= 35.
Proof.
  cbn [calculateInsuranceMetrics m_expenseRatio].
  destruct (expenseRatio_clamped fd) as [HEl HEh].
  destruct (round1_bounds 150 350 (expenseRatio fd)) as [H1 H2].
  { change (inject_Z 150) with 150. change (inject_Z 350) with 350.
    split; lra. }
  change (inject_Z 150) with 150 in H1. change (inject_Z 350) with 350 in H2.
  qdiv_const. split; lra.
Qed.

(** The rating of a combinedRatio between 88 and 120, and of an
    expenseRatio between 15 and 35. *)
Lemma combinedRatio_rating_in_range (v : Q) :
  88 <= v <= 120 ->
  In (rating (validateMetric "combinedRatio" (num v)))
     ("excellent" :: "good" :: "fair" :: "poor" :: "critical" :: nil).
Proof.
  intros [Hlo Hhi]. unfold validateMetric, num. cbn -[Qle_bool In].
  band_cases; cbn; try tauto; exfalso; lra.
Qed.

Lemma expenseRatio_rating_in_range (v : Q) :
  15 <= v <= 35 ->
  In (rating (validateMetric "expenseRatio" (num v)))
     ("outlier" :: "excellent" :: "good" :: "fair" :: nil)
  /\ (v < 20 -> rating (validateMetric "expenseRatio" (num v)) = "outlier").
Proof.
  intros [Hlo Hhi]. unfold validateMetric, num. cbn -[Qle_bool In].
  band_cases; cbn; (split; [try tauto | intros; try reflexivity]);
    exfalso; lra.
Qed.

(** X16: the metrics the calculator returns, as rated by
    [validateMetric].  With a draw in [0, 1) the combinedRatio always
    falls in one of the five bands (never 'outlier'); the expenseRatio is
    never rated 'poor' or 'critical', and the lower clamp 15 that a
    record without positive revenue gets is rated 'outlier'. *)
Theorem X16_calculated_metrics_rating (fd : RawFinancialRecord) (rnd : Q) :
  0 <= rnd < 1 ->
  let metrics := metrics_props (calculateInsuranceMetrics fd rnd) in
  let rate name := rating (validateMetric name (own_prop metrics name)) in
  In (rate "combinedRatio")
     ("excellent" :: "good" :: "fair" :: "poor" :: "critical" :: nil)
  /\ In (rate "expenseRatio")
        ("outlier" :: "excellent" :: "good" :: "fair" :: nil)
  /\ (dflt (revenue fd) 0 <= 0 -> rate "expenseRatio" = "outlier").
Proof.
  intros Hr metrics rate. subst metrics rate. cbv beta.
  change (own_prop (metrics_props (calculateInsuranceMetrics fd rnd))
            "combinedRatio")
    with (num (m_combinedRatio (calculateInsuranceMetrics fd rnd))).
  change (own_prop (metrics_props (calculateInsuranceMetrics fd rnd))
            "expenseRatio")
    with (num (m_expenseRatio (calculateInsuranceMetrics fd rnd))).
  pose proof (returned_combinedRatio_range fd rnd Hr) as HC.
  pose proof (returned_expenseRatio_range fd rnd) as HE.
  split; [exact (combinedRatio_rating_in_range _ HC) |].
  destruct (expenseRatio_rating_in_range _ HE) as [Hin Hout].
  split; [exact Hin |].
  intros Hrev. apply Hout.
  assert (Hclamp : m_expenseRatio (calculateInsuranceMetrics fd rnd) == 15).
  { cbn [calculateInsuranceMetrics m_expenseRatio].
    unfold expenseRatio, baseExpenseRatio.
    assert (Hg : Qgtb (dflt (revenue fd) 0) 0 = false)
      by (unfold Qgtb; apply negb_false_iff, Qle_bool_iff; exact Hrev).
    rewrite Hg. reflexivity. }
  rewrite Hclamp. lra.
Qed.

Lemma X16_calculated_metrics_rating_witness :
  rating (validateMetric "expenseRatio"
            (own_prop (metrics_props
                         (calculateInsuranceMetrics negative_revenue_record
                                                    (1 # 2)))
                      "expenseRatio"))
  = "outlier".
Proof.
  assert (Hr : 0 <= 1 # 2 < 1) by (split; lra).
  apply (proj2 (proj2 (X16_calculated_metrics_rating negative_revenue_record
                         (1 # 2) Hr))).
  vm_compute. discriminate.
Defined.

End CalculatedMetricsExtras.

Section QuickCheckExtras.
Import Quick.



(** A metrics object whose netIncome is null (a null field of the
    statement is returned as it is) is only 'partial'. *)
Example null_netIncome_is_partial :
  quality (quickQualityCheck
             (JObj (("revenue", num 100) :: ("netIncome", JNull)
                    :: ("combinedRatio", num 96) :: ("roe", num 12) :: nil)))
  = "partial".
Proof. reflexivity. Qed.

End QuickCheckExtras.

(* ===================================================================== *)
(** ** The confidence score (enhancedDataService.validateFinancialData)   *)
(* ===================================================================== *)

Section ConfidenceFacts.
Local Open Scope Z_scope.
Import Confidence.
Variable ToString : jsval -> string.
Variable ToNumber : jsval -> jsnum.

Lemma awards_nothing (f : validationResults -> validationResults) bound :
  0 <= bound ->
  (forall r, validations (f r) = validations r
             /\ confidence (f r) = confidence r
             /\ incl (warnings r) (warnings (f r))) ->
  awards bound f.
Proof.
  intros Hb H r. destruct (H r) as (Hv & Hc & Hw).
  exists nil. rewrite app_nil_r. cbn. repeat split; try lia; assumption.
Qed.

Lemma awards_validation (c : check) (bound : Z) :
  awarded c = bound -> 0 <= bound ->
  forall r, exists new,
    validations (add_validation c bound r) = (validations r ++ new)%list
    /\ confidence (add_validation c bound r) = confidence r + total_awarded new
    /\ 0 <= total_awarded new <= bound
    /\ (length new <= 1)%nat
    /\ incl (warnings r) (warnings (add_validation c bound r)).
Proof.
  intros Hc Hb r. exists (c :: nil). cbn. rewrite Hc.
  repeat split; try lia. apply incl_refl.
Qed.

Lemma awards_warning (w : warning) (bound : Z) :
  0 <= bound ->
  forall r, exists new,
    validations (add_warning w r) = (validations r ++ new)%list
    /\ confidence (add_warning w r) = confidence r + total_awarded new
    /\ 0 <= total_awarded new <= bound
    /\ (length new <= 1)%nat
    /\ incl (warnings r) (warnings (add_warning w r)).
Proof.
  intros Hb r. exists nil. cbn. rewrite app_nil_r.
  repeat split; try lia. apply incl_appl, incl_refl.
Qed.

Lemma secStep_awards secData err :
  awards 25 (secStep ToString secData err).
Proof.
  intros r. unfold secStep. destruct (negb (truthy err)).
  - apply awards_validation; [reflexivity | lia].
  - apply awards_warning. lia.
Qed.

Lemma combinedRatioStep_awards metrics :
  awards 20 (combinedRatioStep ToString ToNumber metrics).
Proof.
  intros r. unfold combinedRatioStep. cbv zeta.
  destruct (_ && _).
  - apply awards_validation; [reflexivity | lia].
  - apply awards_warning. lia.
Qed.

Lemma roeStep_awards metrics : awards 20 (roeStep ToString ToNumber metrics).
Proof.
  intros r. unfold roeStep. cbv zeta.
  destruct (_ && _).
  - apply awards_validation; [reflexivity | lia].
  - apply awards_warning. lia.
Qed.

Lemma revenueStep_awards metrics : awards 15 (revenueStep ToNumber metrics).
Proof.
  intros r. unfold revenueStep. cbv zeta.
  destruct (_ && _).
  - apply awards_validation; [reflexivity | lia].
  - exists nil. cbn. rewrite app_nil_r. repeat split; try lia.
    apply incl_refl.
Qed.

Lemma total_awarded_app (a b : list check) :
  total_awarded (a ++ b) = total_awarded a + total_awarded b.
Proof.
  unfold total_awarded.
  induction a as [| c a IH]; cbn; [reflexivity | rewrite IH; lia].
Qed.

Lemma awards_books bound n b f r :
  awards b f -> settled_books bound n r ->
  settled_books (bound + b) (S n) (f r).
Proof.
  intros Hf (Hc & Hr & Hl). destruct (Hf r) as (new & Hv & Hc' & Hn & Hlen & _).
  unfold settled_books. rewrite Hv, Hc', total_awarded_app, length_app.
  repeat split; lia.
Qed.

Lemma books_weaken bound n bound' n' r :
  bound <= bound' -> (n <= n')%nat ->
  settled_books bound n r -> settled_books bound' n' r.
Proof. unfold settled_books. intros Hb Hn (Hc & Hr & Hl). repeat split; lia. Qed.

Lemma metricsStep_books metrics bound n r :
  settled_books bound n r ->
  settled_books (bound + 55) (3 + n) (metricsStep ToString ToNumber metrics r).
Proof.
  intros H. unfold metricsStep. destruct (truthy metrics).
  - replace (bound + 55) with (bound + 20 + 20 + 15) by lia.
    apply awards_books; [apply revenueStep_awards |].
    apply awards_books; [apply roeStep_awards |].
    apply awards_books; [apply combinedRatioStep_awards | exact H].
  - apply (books_weaken bound n); [lia | lia | exact H].
Qed.

Lemma handler_books e bound n r r' :
  handler ToString e r = Fulfilled r' ->
  settled_books bound n r ->
  settled_books bound n r'
  /\ exists w, In w (warnings r') /\ w_source w = "Validation System".
Proof.
  unfold handler. destruct (thrown_message e) as [msg | e']; [| discriminate].
  intros [= <-] H. split; [exact H |].
  eexists. split; [cbn; apply in_or_app; right; left; reflexivity |].
  reflexivity.
Qed.

Lemma initial_books tkr now :
  settled_books 0 0
    {| ticker := tkr; confidence := 0; validations := nil; warnings := nil;
       timestamp := now |}.
Proof. unfold settled_books. cbn. repeat split; lia. Qed.

(** X18: the confidence of a returned result is the sum of the points of
    the validations it lists (25 for the SEC check, 20 for each range
    check, 15 for the revenue check), so it never exceeds 80 and the cap
    [Math.min(100, ...)] never changes it; at most four validations are
    listed. *)
Theorem X18_confidence_is_awarded_points (tkr : string) (primaryData : jsval)
    (secFetch : settled jsval) (now : string) (r : validationResults) :
  validateFinancialData ToString ToNumber tkr primaryData secFetch now
  = Fulfilled r ->
  confidence r = total_awarded (validations r)
  /\ 0 <= confidence r <= 80
  /\ (length (validations r) <= 4)%nat.
Proof.
  unfold validateFinancialData. cbv zeta.
  pose proof (initial_books tkr now) as H0.
  destruct secFetch as [secData | e].
  2:{ intros H. destruct (handler_books _ _ _ _ _ H H0) as [Hb _].
      apply (books_weaken 0 0); [lia | lia | exact Hb]. }
  destruct (get_prop secData "error") as [err | e].
  2:{ intros H. destruct (handler_books _ _ _ _ _ H H0) as [Hb _].
      apply (books_weaken 0 0); [lia | lia | exact Hb]. }
  pose proof (awards_books 0 0 25 _ _ (secStep_awards secData err) H0) as H1.
  destruct (get_prop primaryData "currentMetrics") as [metrics | e].
  2:{ intros H. destruct (handler_books _ _ _ _ _ H H1) as [Hb _].
      apply (books_weaken (0 + 25) 1); [lia | lia | exact Hb]. }
  pose proof (metricsStep_books metrics _ _ _ H1) as (Hc & Hr & Hl).
  intros [= <-]. unfold settled_books. cbn [confidence validations set_confidence].
  rewrite Z.min_r by lia. repeat split; lia.
Qed.

(** X19: the returned promise is rejected only when the SEC lookup was
    rejected with null or undefined (a caught value whose [message]
    cannot be read); in every other case a result comes back.  For null
    or undefined [primaryData] that result carries a 'Validation System'
    warning and at most the 25 points of the SEC check. *)
Theorem X19_validation_failure (tkr : string) (primaryData : jsval)
    (secFetch : settled jsval) (now : string) :
  ((exists e,
      validateFinancialData ToString ToNumber tkr primaryData secFetch now
      = Rejected e)
   <-> (secFetch = Rejected (ThrownVal JNull)
        \/ secFetch = Rejected (ThrownVal JUndefined)))
  /\ (primaryData = JNull \/ primaryData = JUndefined ->
      forall r,
        validateFinancialData ToString ToNumber tkr primaryData secFetch now
        = Fulfilled r ->
        confidence r <= 25
        /\ exists w, In w (warnings r) /\ w_source w = "Validation System").
Proof.
  split.
  - unfold validateFinancialData. cbv zeta. split.
    + intros [e H].
      destruct secFetch as [secData | e0].
      * destruct secData; cbn in H; try discriminate H;
          destruct primaryData; cbn in H; discriminate H.
      * destruct e0 as [m | v]; [discriminate H |].
        destruct v; cbn in H; try discriminate H; auto.
    + intros [-> | ->]; eexists; reflexivity.
  - intros Hnull r. unfold validateFinancialData. cbv zeta.
    pose proof (initial_books tkr now) as H0.
    destruct secFetch as [secData | e].
    2:{ intros H. destruct (handler_books _ _ _ _ _ H H0) as [(_ & Hb & _) Hw].
        split; [lia | exact Hw]. }
    destruct (get_prop secData "error") as [err | e].
    2:{ intros H. destruct (handler_books _ _ _ _ _ H H0) as [(_ & Hb & _) Hw].
        split; [lia | exact Hw]. }
    pose proof (awards_books 0 0 25 _ _ (secStep_awards secData err) H0) as H1.
    destruct Hnull as [-> | ->]; cbn [get_prop]; intros H;
      destruct (handler_books _ _ _ _ _ H H1) as [(_ & Hb & _) Hw];
      (split; [lia | exact Hw]).
Qed.

(** X20: validation of what the calculator returns.  With a draw in
    [0, 1) the returned combinedRatio lies between 88 and 120, so the
    combined-ratio range check (80 to 120) always passes: whenever the
    SEC lookup came back, the result lists that validation, carries no
    combined-ratio warning and has confidence at least 20. *)
Theorem X20_calculated_combinedRatio_passes (tkr : string)
    (fd : Calc.RawFinancialRecord) (rnd : Q) (secData err : jsval)
    (now : string) :
  (0 <= rnd < 1)%Q ->
  get_prop secData "error" = Normal err ->
  exists r,
    validateFinancialData ToString ToNumber tkr
      (primary_of tkr (Calc.calculateInsuranceMetrics fd rnd))
      (Fulfilled secData) now = Fulfilled r
    /\ 20 <= confidence r
    /\ In {| c_source := "Industry Benchmarks"; c_status := "within_range";
             c_message :=
               "Combined Ratio "
               ++ ToString (num (Calc.m_combinedRatio
                                   (Calc.calculateInsuranceMetrics fd rnd)))
               ++ "% within industry range" |}
          (validations r).
Proof.
  intros Hr Herr. unfold validateFinancialData. cbv zeta. rewrite Herr.
  unfold primary_of. cbn [get_prop own_prop String.eqb Ascii.eqb Bool.eqb].
  eexists. split; [reflexivity |].
  cbn [confidence validations set_confidence].
  unfold metricsStep, Interop.metrics_to_js. cbn [truthy].
  set (r1 := secStep ToString secData err _).
  assert (H1 : 0 <= confidence r1).
  { destruct (secStep_awards secData err
                {| ticker := tkr; confidence := 0; validations := nil;
                   warnings := nil; timestamp := now |})
      as (new & _ & Hc & Hn & _).
    subst r1. rewrite Hc. cbn. lia. }
  set (metrics := JObj _).
  assert (Hcr : combinedRatioStep ToString ToNumber metrics r1
                = add_validation
                    {| c_source := "Industry Benchmarks";
                       c_status := "within_range";
                       c_message :=
                         "Combined Ratio "
                         ++ ToString (num (Calc.m_combinedRatio
                                             (Calc.calculateInsuranceMetrics fd rnd)))
                         ++ "% within industry range" |} 20 r1).
  { unfold combinedRatioStep. cbv zeta.
    change (field metrics "combinedRatio")
      with (num (Calc.m_combinedRatio (Calc.calculateInsuranceMetrics fd rnd))).
    destruct (returned_combinedRatio_range fd rnd Hr) as [Hlo Hhi].
    unfold to_num, num, num_ge, num_le.
    replace (Qle_bool 80 _) with true
      by (symmetry; apply Qle_bool_iff; lra).
    replace (Qle_bool _ 120) with true
      by (symmetry; apply Qle_bool_iff; lra).
    reflexivity. }
  rewrite Hcr. set (r2 := add_validation _ 20 r1).
  destruct (roeStep_awards metrics r2) as (n3 & Hv3 & Hc3 & Hn3 & _).
  set (r3 := roeStep ToString ToNumber metrics r2) in *.
  destruct (revenueStep_awards metrics r3) as (n4 & Hv4 & Hc4 & Hn4 & _).
  split.
  - rewrite Hc4, Hc3. subst r2. cbn [confidence add_validation]. lia.
  - rewrite Hv4, Hv3. subst r2. cbn [validations add_validation].
    apply in_or_app. left. apply in_or_app. left.
    apply in_or_app. right. left. reflexivity.
Qed.

End ConfidenceFacts.

Lemma X18_confidence_is_awarded_points_witness :
  exists r,
    Confidence.validateFinancialData (fun _ => "") (fun _ => NaN) "CB"
      Validation.excellent_data Validation.sec_verified "now" = Fulfilled r
    /\ Confidence.confidence r = 65%Z
    /\ Confidence.confidence r
       = Confidence.total_awarded (Confidence.validations r).
Proof.
  eexists. split; [vm_compute; reflexivity |]. split; [reflexivity |].
  refine (proj1 (X18_confidence_is_awarded_points (fun _ => "") (fun _ => NaN)
                   "CB" Validation.excellent_data Validation.sec_verified
                   "now" _ _)).
  vm_compute; reflexivity.
Defined.

Lemma X20_calculated_combinedRatio_passes_witness :
  exists r,
    Confidence.validateFinancialData (fun _ => "") (fun _ => NaN) "TRV"
      (Confidence.primary_of "TRV"
         (Calc.calculateInsuranceMetrics Calc.negative_revenue_record (1 # 2)))
      (Fulfilled (JObj nil)) "now" = Fulfilled r
    /\ (20 <= Confidence.confidence r)%Z.
Proof.
  assert (Hr : (0 <= 1 # 2 < 1)%Q) by (split; lra).
  destruct (X20_calculated_combinedRatio_passes (fun _ => "") (fun _ => NaN)
              "TRV" Calc.negative_revenue_record (1 # 2) (JObj nil)
              JUndefined "now" Hr eq_refl) as (r & Hrun & Hc & _).
  exists r. split; [exact Hrun | exact Hc].
Defined.

(* ===================================================================== *)
(** ** More on the industry benchmark service                             *)
(* ===================================================================== *)

Section BandScanFacts.
Local Open Scope Q_scope.
Import Bench BandScan.

Lemma percentile_of_number_eq (metric size : string) (b : bands) (v : jsnum) :
  benchmarks_for metric size = Some b ->
  calculateIndustryPercentile metric (JNum v) (Some size)
  = percentile_of_number metric b v.
Proof.
  intros Hb. unfold calculateIndustryPercentile, percentile_of_number.
  now rewrite Hb.
Qed.

(** A table whose bands go up from excellent to critical, each starting
    where the previous one ends. *)
Lemma scan_falling (metric : string) (t0 t1 t2 t3 t4 t5 x : Q) :
  lowerIsBetter metric = true ->
  t0 <= t1 /\ t1 <= t2 /\ t2 <= t3 /\ t3 <= t4 /\ t4 <= t5 ->
  percentile_of_number metric
    (mk5 (mk t0 t1 90) (mk t1 t2 75) (mk t2 t3 50) (mk t3 t4 25) (mk t4 t5 10))
    (Fin x)
  = falling t0 t1 t2 t3 t4 t5 x.
Proof.
  intros Hl (H01 & H12 & H23 & H34 & H45).
  unfold percentile_of_number, falling. rewrite Hl.
  unfold entries, mk5, mk. cbn [excellent good average poor critical].
  cbn [first_band]. unfold in_band, num_lt, num_gt, num_ge, num_le, Qltb, Qgtb.
  cbn [min max percentile].
  band_cases; first [reflexivity | exfalso; lra].
Qed.

(** A table whose bands go down from excellent to critical. *)
Lemma scan_rising (metric : string) (t0 t1 t2 t3 t4 t5 x : Q) :
  lowerIsBetter metric = false ->
  t0 <= t1 /\ t1 <= t2 /\ t2 <= t3 /\ t3 <= t4 /\ t4 <= t5 ->
  percentile_of_number metric
    (mk5 (mk t4 t5 90) (mk t3 t4 75) (mk t2 t3 50) (mk t1 t2 25) (mk t0 t1 10))
    (Fin x)
  = rising t0 t1 t2 t3 t4 t5 x.
Proof.
  intros Hl (H01 & H12 & H23 & H34 & H45).
  unfold percentile_of_number, rising. rewrite Hl.
  unfold entries, mk5, mk. cbn [excellent good average poor critical].
  cbn [first_band]. unfold in_band, num_lt, num_gt, num_ge, num_le, Qltb, Qgtb.
  cbn [min max percentile].
  band_cases; first [reflexivity | exfalso; lra].
Qed.

Lemma falling_antitone (t0 t1 t2 t3 t4 t5 v w : Q) :
  t0 <= t1 /\ t1 <= t2 /\ t2 <= t3 /\ t3 <= t4 /\ t4 <= t5 ->
  v <= w ->
  (falling t0 t1 t2 t3 t4 t5 w <= falling t0 t1 t2 t3 t4 t5 v)%Z.
Proof.
  intros (H01 & H12 & H23 & H34 & H45) Hvw. unfold falling.
  band_cases; first [lia | exfalso; lra].
Qed.

Lemma rising_monotone (t0 t1 t2 t3 t4 t5 v w : Q) :
  t0 <= t1 /\ t1 <= t2 /\ t2 <= t3 /\ t3 <= t4 /\ t4 <= t5 ->
  v <= w ->
  (rising t0 t1 t2 t3 t4 t5 v <= rising t0 t1 t2 t3 t4 t5 w)%Z.
Proof.
  intros (H01 & H12 & H23 & H34 & H45) Hvw. unfold rising.
  band_cases; first [lia | exfalso; lra].
Qed.

Lemma falling_median (t0 t1 t2 t3 t4 t5 x : Q) :
  t0 <= t1 /\ t1 <= t2 /\ t2 <= t3 /\ t3 <= t4 /\ t4 <= t5 ->
  falling t0 t1 t2 t3 t4 t5 x = 50%Z ->
  in_band (Fin x) (mk t2 t3 50) = true.
Proof.
  intros (H01 & H12 & H23 & H34 & H45). unfold falling, in_band, mk, num_ge, num_le.
  cbn [min max].
  band_cases; intros H; first [reflexivity | discriminate H | exfalso; lra].
Qed.

Lemma rising_median (t0 t1 t2 t3 t4 t5 x : Q) :
  t0 <= t1 /\ t1 <= t2 /\ t2 <= t3 /\ t3 <= t4 /\ t4 <= t5 ->
  rising t0 t1 t2 t3 t4 t5 x = 50%Z ->
  in_band (Fin x) (mk t2 t3 50) = true.
Proof.
  intros (H01 & H12 & H23 & H34 & H45). unfold rising, in_band, mk, num_ge, num_le.
  cbn [min max].
  band_cases; intros H; first [reflexivity | discriminate H | exfalso; lra].
Qed.

(** A value that no band of a gapless table holds lies beyond one of
    its ends. *)
Lemma falling_outside (t0 t1 t2 t3 t4 t5 x : Q) :
  t0 <= t1 /\ t1 <= t2 /\ t2 <= t3 /\ t3 <= t4 /\ t4 <= t5 ->
  first_band (Fin x)
    (entries (mk5 (mk t0 t1 90) (mk t1 t2 75) (mk t2 t3 50) (mk t3 t4 25)
                  (mk t4 t5 10))) = None ->
  falling t0 t1 t2 t3 t4 t5 x = 95%Z \/ falling t0 t1 t2 t3 t4 t5 x = 5%Z.
Proof.
  intros (H01 & H12 & H23 & H34 & H45). unfold falling, entries, mk5, mk.
  cbn [excellent good average poor critical first_band].
  unfold in_band, num_ge, num_le. cbn [min max].
  band_cases; intros H; first [tauto | discriminate H | exfalso; lra].
Qed.

Lemma rising_outside (t0 t1 t2 t3 t4 t5 x : Q) :
  t0 <= t1 /\ t1 <= t2 /\ t2 <= t3 /\ t3 <= t4 /\ t4 <= t5 ->
  first_band (Fin x)
    (entries (mk5 (mk t4 t5 90) (mk t3 t4 75) (mk t2 t3 50) (mk t1 t2 25)
                  (mk t0 t1 10))) = None ->
  rising t0 t1 t2 t3 t4 t5 x = 95%Z \/ rising t0 t1 t2 t3 t4 t5 x = 5%Z.
Proof.
  intros (H01 & H12 & H23 & H34 & H45). unfold rising, entries, mk5, mk.
  cbn [excellent good average poor critical first_band].
  unfold in_band, num_ge, num_le. cbn [min max].
  band_cases; intros H; first [tauto | discriminate H | exfalso; lra].
Qed.

End BandScanFacts.

(** The nine band tables, one case each. *)
Ltac each_table metric size :=
  unfold Bench.benchmarks_for, Bench.INDUSTRY_BENCHMARKS_2024;
  repeat (cbn [assoc];
          match goal with
          | |- context [String.eqb ?a metric] =>
              destruct (String.eqb_spec a metric) as [<- | _]
          | |- context [String.eqb ?a size] =>
              destruct (String.eqb_spec a size) as [<- | _]
          end);
  cbn [assoc]; try discriminate.

Ltac decide_direction :=
  lazymatch goal with
  | |- context [Bench.lowerIsBetter ?m] =>
      let b := eval vm_compute in (Bench.lowerIsBetter m) in
      change (Bench.lowerIsBetter m) with b
  end; cbv iota.

Ltac thresholds := first [reflexivity | repeat split; lra].

Section BenchExtras.
Local Open Scope Q_scope.
Import Bench BandScan.

(** X21: in every band table the percentile is monotone in the value:
    for combinedRatio and lossRatio a larger value never gets a higher
    percentile, for roe never a lower one.  The fallback 50 after the
    two outlier tests is never reached by a finite value: a finite value
    gets 50 only inside the 'average' band. *)
Theorem X21_percentile_is_monotone (metric size : string) (b : bands)
    (v w : Q) :
  benchmarks_for metric size = Some b ->
  v <= w ->
  let p x := calculateIndustryPercentile metric (num x) (Some size) in
  (if lowerIsBetter metric then (p w <= p v)%Z else (p v <= p w)%Z)
  /\ (p v = 50%Z -> in_band (Fin v) (average b) = true).
Proof.
  intros Hb Hvw p. subst p. cbv beta. unfold num.
  rewrite !(percentile_of_number_eq _ _ _ _ Hb). revert Hb.
  each_table metric size; intros [= <-]; decide_direction;
    cbn [average mk5];
    first
      [ rewrite !scan_falling by thresholds;
        split;
        [ apply falling_antitone; [repeat split; lra | exact Hvw]
        | intros Hp; refine (falling_median _ _ _ _ _ _ _ _ Hp);
          repeat split; lra ]
      | rewrite !scan_rising by thresholds;
        split;
        [ apply rising_monotone; [repeat split; lra | exact Hvw]
        | intros Hp; refine (rising_median _ _ _ _ _ _ _ _ Hp);
          repeat split; lra ] ].
Qed.

Lemma X21_percentile_is_monotone_witness :
  (calculateIndustryPercentile "roe" (num 4) (Some "small")
   <= calculateIndustryPercentile "roe" (num 21) (Some "small"))%Z.
Proof.
  refine (proj1 (X21_percentile_is_monotone "roe" "small" _ 4 21 eq_refl _)).
  vm_compute. discriminate.
Defined.

(** X22: a number that no band holds (other than NaN) is entered in the
    analysis with the default rating 'average', yet its percentile is 95
    or 5, never the median. *)
Theorem X22_outside_bands_rated_average (metric size : string) (b : bands)
    (v : jsnum) :
  benchmarks_for metric size = Some b ->
  v <> NaN ->
  first_band v (entries b) = None ->
  exists ma,
    analyzeMetric metric v size = Some ma
    /\ ma_rating ma = "average"
    /\ (ma_percentile ma = 95%Z \/ ma_percentile ma = 5%Z).
Proof.
  intros Hb Hv Hnone. unfold analyzeMetric. rewrite Hb, Hnone.
  eexists. split; [reflexivity |]. split; [reflexivity |].
  cbn [ma_percentile]. rewrite (percentile_of_number_eq _ _ _ _ Hb).
  revert Hb Hnone.
  each_table metric size; intros [= <-];
    (destruct v as [q | | |]; [| cbn; tauto | cbn; tauto | contradiction]);
    intros Hnone;
    first
      [ rewrite scan_falling by thresholds;
        apply falling_outside; [repeat split; lra | exact Hnone]
      | rewrite scan_rising by thresholds;
        apply rising_outside; [repeat split; lra | exact Hnone] ].
Qed.

Lemma X22_outside_bands_rated_average_witness :
  exists ma,
    analyzeMetric "combinedRatio" (Fin 150) "large" = Some ma
    /\ ma_rating ma = "average"
    /\ (ma_percentile ma = 95%Z \/ ma_percentile ma = 5%Z).
Proof.
  apply (X22_outside_bands_rated_average "combinedRatio" "large" _ (Fin 150)
           eq_refl).
  - discriminate.
  - reflexivity.
Defined.

Lemma getCompanySize_cases (premiumVolume : jsval) :
  In (getCompanySize premiumVolume) ("large" :: "medium" :: "small" :: nil).
Proof.
  unfold getCompanySize.
  destruct premiumVolume as [| | bv | n | sv | props]; cbn [is_number negb orb];
    rewrite ?orb_true_r, ?orb_false_r;
    repeat match goal with
           | |- context [if ?c then _ else _] => destruct c
           end; cbn; tauto.
Qed.

Lemma step_books (metrics : list (string * jsval)) (size name : string)
    (done : list string) (a : acc) :
  In size ("large" :: "medium" :: "small" :: nil) ->
  In name ("combinedRatio" :: "roe" :: "lossRatio" :: nil) ->
  books metrics done a ->
  books metrics (done ++ name :: nil) (step metrics size a name).
Proof.
  intros Hsize Hname. destruct a as [[[[ms ss] ws] tp] vm].
  intros (Hms & Hs & Hw & Hlen & Hvm).
  unfold step, books. rewrite List.filter_app. cbn [List.filter].
  destruct (own_prop metrics name) as [| | bv | value | sv | props];
    cbn [is_number];
    try (rewrite app_nil_r; repeat split; assumption).
  assert (Hsome : exists ma, analyzeMetric name value size = Some ma).
  { unfold analyzeMetric.
    cbn in Hsize, Hname.
    destruct Hsize as [<- | [<- | [<- | []]]];
      destruct Hname as [<- | [<- | [<- | []]]];
      eexists; reflexivity. }
  destruct Hsome as [ma ->].
  rewrite map_app, Hms. cbn [map fst].
  split; [reflexivity |].
  destruct (Z.leb_spec 75 (ma_percentile ma)) as [H75 | H75].
  - split; [apply Forall_app; split; [exact Hs | repeat constructor; exact H75] |].
    split; [exact Hw |].
    rewrite !length_app. cbn [length]. split; lia.
  - split; [exact Hs |].
    destruct (Z.leb_spec (ma_percentile ma) 25) as [H25 | H25].
    + split; [apply Forall_app; split; [exact Hw | repeat constructor; exact H25] |].
      rewrite !length_app. cbn [length]. split; lia.
    + split; [exact Hw |].
      rewrite !length_app. cbn [length]. split; lia.
Qed.

(** X23: the books of [getBenchmarkAnalysis].  The analysis has one
    entry, in order, for each of combinedRatio, roe and lossRatio whose
    value is a number (NaN included); every listed strength has a
    percentile of at least 75 and every listed weakness at most 25, and
    together they are no more than the entries; without any entry the
    overall rating stays 'average'; the size class is one of the three
    the tables know. *)
Theorem X23_analysis_accounting (ticker : string)
    (metrics : list (string * jsval)) (premiumVolume : jsval) :
  let a := getBenchmarkAnalysis ticker metrics premiumVolume in
  map fst (a_metrics a)
  = List.filter (fun n => is_number (own_prop metrics n))
                ("combinedRatio" :: "roe" :: "lossRatio" :: nil)
  /\ Forall (fun n => (75 <= qn_percentile n)%Z) (a_strengths a)
  /\ Forall (fun n => (qn_percentile n <= 25)%Z) (a_weaknesses a)
  /\ (length (a_strengths a) + length (a_weaknesses a)
      <= length (a_metrics a))%nat
  /\ (a_metrics a = nil -> a_overallRating a = "average")
  /\ In (a_companySize a) ("large" :: "medium" :: "small" :: nil).
Proof.
  intros a. subst a. unfold getBenchmarkAnalysis. cbv zeta.
  pose proof (getCompanySize_cases premiumVolume) as Hsize.
  set (size := getCompanySize premiumVolume) in *.
  assert (Hbooks :
    books metrics ("combinedRatio" :: "roe" :: "lossRatio" :: nil)
      (fold_left (step metrics size)
                 ("combinedRatio" :: "roe" :: "lossRatio" :: nil)
                 (nil, nil, nil, 0%Z, 0%Z))).
  { cbn [fold_left].
    apply (step_books metrics size "lossRatio" ("combinedRatio" :: "roe" :: nil));
      [exact Hsize | cbn; tauto |].
    apply (step_books metrics size "roe" ("combinedRatio" :: nil));
      [exact Hsize | cbn; tauto |].
    apply (step_books metrics size "combinedRatio" nil);
      [exact Hsize | cbn; tauto |].
    cbn. repeat split; constructor. }
  destruct (fold_left _ _ _) as [[[[ms ss] ws] tp] vm].
  destruct Hbooks as (Hms & Hs & Hw & Hlen & Hvm).
  cbn [a_metrics a_strengths a_weaknesses a_overallRating a_companySize].
  repeat split; try assumption.
  intros ->. subst vm. reflexivity.
Qed.

(** X24: [getPeerGroup] returns the group that lists the ticker (the
    groups of the table share no ticker, so there is one at most), and
    'largeDiversified' for a ticker that no group lists. *)
Theorem X24_peer_group (ticker g : string) :
  getPeerGroup ticker = g
  <-> (exists companies, In (g, companies) PEER_GROUPS /\ In ticker companies)
      \/ (g = "largeDiversified"
          /\ forall g' companies,
               In (g', companies) PEER_GROUPS -> ~ In ticker companies).
Proof.
  split.
  - intros <-. unfold getPeerGroup.
    destruct (List.find _ PEER_GROUPS) as [[g0 cs] |] eqn:Hfind.
    + apply List.find_some in Hfind as [Hin Hex]. left. exists cs.
      split; [exact Hin |].
      cbn [snd] in Hex. apply existsb_exists in Hex as (t & Ht & Heq).
      apply String.eqb_eq in Heq. now subst t.
    + right. split; [reflexivity |]. intros g' cs Hin Ht.
      pose proof (List.find_none _ _ Hfind _ Hin) as Hno. cbn [snd] in Hno.
      assert (Hyes : existsb (String.eqb ticker) cs = true).
      { apply existsb_exists. exists ticker. split; [exact Ht |].
        apply String.eqb_refl. }
      congruence.
  - intros [(cs & Hin & Ht) | (-> & Hnone)].
    + cbn in Hin.
      destruct Hin as [[= <- <-] | [[= <- <-] | [[= <- <-] | [[= <- <-] | []]]]];
        cbn in Ht;
        repeat match type of Ht with
               | _ \/ _ => destruct Ht as [<- | Ht]; [reflexivity |]
               end; contradiction.
    + unfold getPeerGroup.
      destruct (List.find _ PEER_GROUPS) as [[g0 cs] |] eqn:Hfind;
        [| reflexivity].
      apply List.find_some in Hfind as [Hin Hex].
      cbn [snd] in Hex. apply existsb_exists in Hex as (t & Ht & Heq).
      apply String.eqb_eq in Heq. subst t.
      destruct (Hnone _ _ Hin Ht).
Qed.

End BenchExtras.

(* ===================================================================== *)
(** ** More on the request coordinator                                    *)
(* ===================================================================== *)

Section CoordinatorExtras.
Import Coordinator.

(** X25: at any moment at most one request per cache key is in flight:
    in every reachable state two pending request promises for the same
    key are the same promise, the key is a financials key, and that
    promise is the one registered under it, so a further call for the
    ticker is handed this promise and issues no upstream fetch. *)
Theorem X25_single_flight {R : Type} (w : world R) (cacheKey : string)
    (p q : nat) :
  reachable w ->
  in_flight w cacheKey p ->
  in_flight w cacheKey q ->
  p = q
  /\ pendingRequests w !! cacheKey = Some p
  /\ exists ticker,
      cacheKey = "financials_" ++ ticker
      /\ fetchCompanyFinancials w ticker None = (Handle p, w).
Proof.
  intros Hreach Hp Hq.
  destruct (reachable_coherent w Hreach) as [Hflight _].
  destruct (Hflight _ _ Hp) as [[ticker ->] Hregp].
  destruct (Hflight _ _ Hq) as [_ Hregq].
  split; [congruence |]. split; [exact Hregp |].
  exists ticker. split; [reflexivity |].
  unfold fetchCompanyFinancials. now rewrite Hregp.
Qed.

Lemma X25_single_flight_witness :
  pendingRequests sample_world !! "financials_TRV" = Some 0%nat.
Proof.
  assert (Hreach : reachable sample_world).
  { apply (reach_step init); [apply reach_init |].
    apply (step_financials init "TRV" None). }
  exact (proj1 (proj2 (X25_single_flight sample_world "financials_TRV"
                         0%nat 0%nat Hreach eq_refl eq_refl))).
Defined.

End CoordinatorExtras.

(* ===================================================================== *)
(** ** Economic indicators                                                *)
(* ===================================================================== *)

Section IndicatorFacts.
Import Indicators.
Variable parseFloat : jsval -> jsnum.

Lemma seriesCallback_answered (seriesId : string) (fetched : completion response) :
  answered fetched ->
  exists r,
    seriesCallback parseFloat seriesId fetched = Fulfilled r
    /\ sr_seriesId r = seriesId
    /\ (not_null (sr_value r) = true <-> listable fetched).
Proof.
  intros (response & -> & Hans). unfold seriesCallback, listable.
  destruct (ok response) eqn:Hok; cbn [negb].
  - destruct Hans as [[=] | [d Hd]]. rewrite Hd. cbv zeta.
    eexists. split; [reflexivity |]. split; [reflexivity |].
    cbn [sr_value]. split.
    + intros Hnn. exists response. split; [reflexivity |]. right.
      exists d. split; [exact Hd |].
      destruct (truthy (latestValue _)); [reflexivity | discriminate Hnn].
    + intros (response' & [= <-] & [Hno | (d' & Hd' & Ht)]); [congruence |].
      rewrite Hd in Hd'. injection Hd' as <-. now rewrite Ht.
  - eexists. split; [reflexivity |]. split; [reflexivity |].
    cbn [sr_value not_null]. split; [| reflexivity].
    intros _. exists response. split; [reflexivity |]. now left.
Qed.

Lemma seriesCallback_unanswered (seriesId : string)
    (fetched : completion response) :
  ~ answered fetched ->
  exists e, seriesCallback parseFloat seriesId fetched = Rejected e.
Proof.
  intros Hno. unfold seriesCallback.
  destruct fetched as [response | e]; [| eauto].
  destruct (ok response) eqn:Hok; cbn [negb].
  - destruct (body response) as [d | e] eqn:Hd; [| eauto].
    destruct Hno. exists response. split; [reflexivity |]. right. eauto.
  - destruct Hno. exists response. split; [reflexivity |]. now left.
Qed.

Lemma seriesCallback_fulfilled (seriesId : string)
    (fetched : completion response) r :
  seriesCallback parseFloat seriesId fetched = Fulfilled r -> answered fetched.
Proof.
  unfold seriesCallback, answered.
  destruct fetched as [response | e]; [| discriminate].
  destruct (ok response) eqn:Hok; cbn [negb].
  - destruct (body response) as [d | e] eqn:Hd; [| discriminate].
    intros _. exists response. split; [reflexivity |]. right. eauto.
  - intros _. exists response. split; [reflexivity |]. now left.
Qed.

(** [Promise.all] over the series callbacks. *)
Lemma series_all (series : list (string * completion response)) :
  match Batch.Promise_all
          (map (fun s => seriesCallback parseFloat (fst s) (snd s)) series) with
  | Fulfilled results =>
      Forall2 (fun s r =>
                 seriesCallback parseFloat (fst s) (snd s) = Fulfilled r)
              series results
  | Rejected _ => ~ Forall (fun s => answered (snd s)) series
  end.
Proof.
  induction series as [| [id fetched] series IH]; cbn [map Batch.Promise_all].
  - constructor.
  - destruct (seriesCallback parseFloat id fetched) as [r | e] eqn:Hcb;
      cbn [fst snd] in *; rewrite Hcb.
    + destruct (Batch.Promise_all _) as [results | e].
      * constructor; [exact Hcb | exact IH].
      * intros Hall. apply IH. now inversion Hall.
    + intros Hall. inversion Hall as [| ? ? Hans _]; subst.
      destruct (seriesCallback_answered id fetched Hans) as (r & Hr & _).
      cbn [snd] in Hr. congruence.
Qed.

(** What the [reduce] leaves under a key. *)
Lemma collect_fold (results : list seriesResult)
    (acc : gmap string indicator) (id : string) (ind : indicator) :
  fold_left
    (fun acc result =>
       if not_null (sr_value result)
          && negb (String.eqb (sr_seriesId result) "__proto__")
       then <[sr_seriesId result := indicator_of result]> acc
       else acc)
    results acc !! id = Some ind ->
  acc !! id = Some ind
  \/ exists r, In r results /\ sr_seriesId r = id /\ id <> "__proto__"
               /\ not_null (sr_value r) = true /\ ind = indicator_of r.
Proof.
  revert acc. induction results as [| r results IH]; intros acc H; cbn in H.
  - now left.
  - apply IH in H as [H | (r' & Hin & Hid & Hp & Hnn & Hind)].
    + destruct (not_null (sr_value r)) eqn:Hnn; cbn [andb] in H; [| now left].
      destruct (String.eqb_spec (sr_seriesId r) "__proto__") as [Hp | Hp];
        cbn [negb] in H; [now left |].
      destruct (decide (sr_seriesId r = id)) as [Heq | Hne].
      * subst id. rewrite lookup_insert_eq in H. injection H as <-.
        right. exists r. repeat split; [now left | exact Hp | exact Hnn].
      * rewrite lookup_insert_ne in H by exact Hne. now left.
    + right. exists r'. repeat split; [now right | assumption ..].
Qed.

Lemma collect_fold_listed (results : list seriesResult)
    (acc : gmap string indicator) (id : string) :
  id <> "__proto__" ->
  is_Some (acc !! id)
  \/ (exists r, In r results /\ sr_seriesId r = id
                /\ not_null (sr_value r) = true) ->
  is_Some (fold_left
             (fun acc result =>
                if not_null (sr_value result)
                   && negb (String.eqb (sr_seriesId result) "__proto__")
                then <[sr_seriesId result := indicator_of result]> acc
                else acc)
             results acc !! id).
Proof.
  intros Hp.
  revert acc. induction results as [| r results IH]; intros acc H; cbn.
  - destruct H as [H | (r & [] & _)]. exact H.
  - apply IH.
    destruct H as [H | (r' & [<- | Hin] & Hid & Hnn)].
    + left. destruct (_ && _); [| exact H].
      destruct (decide (sr_seriesId r = id)) as [Heq | Hne].
      * subst id. rewrite lookup_insert_eq. eauto.
      * now rewrite lookup_insert_ne by exact Hne.
    + left. rewrite Hnn. subst id.
      destruct (String.eqb_spec (sr_seriesId r) "__proto__");
        [contradiction |].
      cbn [andb negb]. rewrite lookup_insert_eq. eauto.
    + right. eauto.
Qed.

(** X26: which series end up among the indicators.  When every series
    request settles without throwing, the result carries no error and
    lists a series (other than one named '__proto__') exactly when its
    request was refused by the server or it answered with a usable
    observation of truthy value: a refused
    series is listed (its value is undefined), one that answered with
    placeholders only is left out.  Every listed indicator is the result
    of one of the requests for that series.  When any request throws,
    nothing is listed and the result carries the error. *)
Theorem X26_indicator_listing (series : list (string * completion response))
    (now : string) :
  (Forall (fun s => answered (snd s)) series ->
   exists o,
     fetchEconomicIndicators parseFloat series now = Fulfilled o
     /\ error o = None
     /\ (forall id,
           id <> "__proto__" ->
           (is_Some (indicators o !! id)
            <-> exists fetched, In (id, fetched) series /\ listable fetched))
     /\ (forall id ind,
           indicators o !! id = Some ind ->
           exists fetched r,
             In (id, fetched) series
             /\ seriesCallback parseFloat id fetched = Fulfilled r
             /\ ind = {| i_value := sr_value r; i_date := sr_date r;
                         i_historical := sr_data r |}))
  /\ (~ Forall (fun s => answered (snd s)) series ->
      forall o,
        fetchEconomicIndicators parseFloat series now = Fulfilled o ->
        indicators o = ∅ /\ is_Some (error o)).
Proof.
  pose proof (series_all series) as Hall.
  unfold fetchEconomicIndicators.
  destruct (Batch.Promise_all _) as [results | e].
  - split; [| intros Hno; destruct Hno;
              induction Hall as [| [id f] r ? ? Hcb _ IH]; constructor;
              [exact (seriesCallback_fulfilled _ _ _ Hcb) | exact IH]].
    intros Hans. eexists. split; [reflexivity |]. split; [reflexivity |].
    cbn [indicators]. unfold collect.
    assert (Hfrom : forall r, In r results ->
              exists fetched,
                In (sr_seriesId r, fetched) series
                /\ seriesCallback parseFloat (sr_seriesId r) fetched
                   = Fulfilled r).
    { clear Hans. induction Hall as [| [id f] r0 ? ? Hcb _ IH];
        intros r [].
      - subst r0. cbn [fst snd] in Hcb.
        assert (Hid : sr_seriesId r = id).
        { destruct (seriesCallback_answered id f
                      (seriesCallback_fulfilled _ _ _ Hcb))
            as (r' & Hr' & Hid' & _). congruence. }
        exists f. rewrite Hid. split; [now left | exact Hcb].
      - destruct (IH r H) as (f' & Hin & Hcb'). exists f'.
        split; [now right | exact Hcb']. }
    assert (Hto : forall id fetched, In (id, fetched) series ->
              exists r, In r results
                        /\ seriesCallback parseFloat id fetched = Fulfilled r).
    { clear Hans Hfrom. induction Hall as [| [id0 f0] r0 ? ? Hcb _ IH];
        intros id fetched [].
      - injection H as -> ->. exists r0. split; [now left | exact Hcb].
      - destruct (IH id fetched H) as (r & Hin & Hcb'). exists r.
        split; [now right | exact Hcb']. }
    split.
    + intros id Hproto. split.
      * intros [ind Hind]. apply collect_fold in Hind
          as [Hempty | (r & Hin & Hid & _ & Hnn & _)];
          [rewrite lookup_empty in Hempty; discriminate |].
        destruct (Hfrom r Hin) as (fetched & Hins & Hcb). subst id.
        exists fetched. split; [exact Hins |].
        destruct (seriesCallback_answered (sr_seriesId r) fetched
                    (seriesCallback_fulfilled _ _ _ Hcb))
          as (r' & Hr' & _ & Hiff).
        rewrite Hcb in Hr'. injection Hr' as <-. now apply Hiff.
      * intros (fetched & Hins & Hl).
        destruct (Hto id fetched Hins) as (r & Hin & Hcb).
        destruct (seriesCallback_answered id fetched
                    (seriesCallback_fulfilled _ _ _ Hcb))
          as (r' & Hr' & Hid & Hiff).
        rewrite Hcb in Hr'. injection Hr' as <-.
        apply collect_fold_listed; [exact Hproto |]. right. exists r.
        repeat split; [exact Hin | exact Hid | now apply Hiff].
    + intros id ind Hind. apply collect_fold in Hind
        as [Hempty | (r & Hin & Hid & _ & _ & ->)];
        [rewrite lookup_empty in Hempty; discriminate |].
      destruct (Hfrom r Hin) as (fetched & Hins & Hcb). subst id.
      exists fetched, r. repeat split; assumption.
  - split; [intros Hans; contradiction |].
    intros _ o. destruct (thrown_message e) as [message | e']; [| discriminate].
    intros [= <-]. cbn. split; [reflexivity | eauto].
Qed.

End IndicatorFacts.

Lemma X26_indicator_listing_witness :
  exists o,
    Indicators.fetchEconomicIndicators (fun _ => NaN) Indicators.sample_series
      "now" = Fulfilled o
    /\ is_Some (Indicators.indicators o !! "UNRATE")
    /\ ~ is_Some (Indicators.indicators o !! "GDP").
Proof.
  assert (Hans : Forall (fun s => Indicators.answered (snd s))
                        Indicators.sample_series).
  { repeat constructor; eexists; (split; [reflexivity |]);
      [left; reflexivity | right; eexists; reflexivity]. }
  destruct (proj1 (X26_indicator_listing (fun _ => NaN)
                     Indicators.sample_series "now") Hans)
    as (o & Hrun & _ & Hlisted & _).
  exists o. split; [exact Hrun |]. split.
  - apply Hlisted; [discriminate |]. eexists. split; [left; reflexivity |].
    eexists. split; [reflexivity |]. left. reflexivity.
  - intros H. apply Hlisted in H as (fetched & Hin & Hl); [| discriminate].
    destruct Hin as [[=] | [[= <-] | []]].
    destruct Hl as (response & [= <-] & [[=] | (d & [= <-] & Ht)]).
    discriminate Ht.
Defined.

(* ===================================================================== *)
(** ** Trend of a series                                                  *)
(* ===================================================================== *)

Section TrendExtras.
Local Open Scope Q_scope.
Import Indicators Trend.
Variable parseFloat : jsval -> jsnum.

Lemma filter_length_le {A : Type} (f : A -> bool) (l : list A) :
  (length (List.filter f l) <= length l)%nat.
Proof.
  induction l as [| a l IH]; cbn; [lia |]. destruct (f a); cbn; lia.
Qed.

(** The trend from the first two usable observations. *)
Lemma calculateTrend_two (observations : list observation)
    (o1 o2 : observation) (rest : list observation) :
  List.filter usable observations = o1 :: o2 :: rest ->
  calculateTrend parseFloat observations
  = let recent := parseFloat (o_value o1) in
    let previous := parseFloat (o_value o2) in
    let change := times100 (num_div (num_sub recent previous) previous) in
    if num_lt (Math_abs change) 1 then "stable"
    else if num_gt change 0 then "up" else "down".
Proof.
  intros Hf. unfold calculateTrend.
  pose proof (filter_length_le usable observations) as Hlen.
  rewrite Hf in Hlen. cbn [length] in Hlen.
  replace (length observations <? 2)%nat with false
    by (symmetry; apply Nat.ltb_ge; lia).
  rewrite Hf. destruct rest; reflexivity.
Qed.

(** The relative change of two finite values, the older one not zero. *)
Lemma change_finite (r p : Q) :
  ~ p == 0 ->
  times100 (num_div (num_sub (Fin r) (Fin p)) (Fin p))
  = Fin ((r - p) / p * 100).
Proof.
  intros Hp. cbn. unfold js_div.
  destruct (Qeq_bool p 0) eqn:Hz; [| reflexivity].
  apply Qeq_bool_iff in Hz. contradiction.
Qed.

(** X27: the trend of a series read newest first.  With fewer than two
    usable observations it is 'stable'.  Otherwise only the first two
    usable values count: equal non-zero values give 'stable'; over a
    positive older value a rise is never 'down' and a fall never 'up',
    but over a negative older value the direction is inverted (a fall is
    never 'down', a rise never 'up'); and when either value parses to
    NaN, or both are zero, the trend is 'down'. *)
Theorem X27_trend_cases (observations : list observation) :
  ((length (List.filter usable observations) < 2)%nat ->
   calculateTrend parseFloat observations = "stable")
  /\ forall o1 o2 rest,
       List.filter usable observations = o1 :: o2 :: rest ->
       (forall r p,
          parseFloat (o_value o1) = Fin r ->
          parseFloat (o_value o2) = Fin p ->
          ~ p == 0 ->
          (r == p -> calculateTrend parseFloat observations = "stable")
          /\ (0 < p -> p <= r ->
              calculateTrend parseFloat observations <> "down")
          /\ (0 < p -> r <= p ->
              calculateTrend parseFloat observations <> "up")
          /\ (p < 0 -> r <= p ->
              calculateTrend parseFloat observations <> "down")
          /\ (p < 0 -> p <= r ->
              calculateTrend parseFloat observations <> "up"))
       /\ (parseFloat (o_value o1) = NaN \/ parseFloat (o_value o2) = NaN
           \/ (parseFloat (o_value o1) = Fin 0
               /\ parseFloat (o_value o2) = Fin 0) ->
           calculateTrend parseFloat observations = "down").
Proof.
  split.
  - intros Hlen. unfold calculateTrend.
    destruct (length observations <? 2)%nat; [reflexivity |].
    destruct (List.filter usable observations) as [| o1 [| o2 rest]];
      [reflexivity | reflexivity | cbn in Hlen; lia].
  - intros o1 o2 rest Hf. rewrite (calculateTrend_two _ _ _ _ Hf). cbv zeta.
    split.
    + intros r p -> -> Hp. rewrite (change_finite r p Hp).
      cbn [Math_abs num_lt num_gt]. unfold Qltb, Qgtb.
      set (c := (r - p) / p * 100).
      assert (Hc : c * p == (r - p) * 100) by (unfold c; field; exact Hp).
      assert (Habs : forall x, (0 <= x -> Qabs x == x)
                               /\ (x <= 0 -> Qabs x == - x)).
      { intros x. split; [apply Qabs_pos | apply Qabs_neg]. }
      pose proof (Qabs_nonneg c) as Hnn.
      destruct (Qle_bool_spec 1 (Qabs c)) as [H1 | H1]; cbn [negb].
      * destruct (Qle_bool_spec c 0) as [H0 | H0]; cbn [negb].
        -- destruct (Habs c) as [_ Hneg]. specialize (Hneg H0).
           repeat split; intros; try discriminate;
             exfalso; rewrite Hneg in H1; nra.
        -- destruct (Habs c) as [Hpos _].
           assert (H0' : 0 <= c) by lra. specialize (Hpos H0').
           repeat split; intros; try discriminate;
             exfalso; rewrite Hpos in H1; nra.
      * repeat split; intros; discriminate.
    + intros [-> | [-> | [-> ->]]].
      * reflexivity.
      * destruct (parseFloat (o_value o1)); reflexivity.
      * reflexivity.
Qed.

End TrendExtras.

Lemma X27_trend_cases_witness :
  Trend.calculateTrend Trend.sample_parse
    (Trend.obs "-2.0" :: Trend.obs "." :: Trend.obs "-1.0" :: nil)
  <> "down".
Proof.
  refine (proj1 (proj2 (proj2 (proj2
            (proj1 (proj2 (X27_trend_cases Trend.sample_parse
                             (Trend.obs "-2.0" :: Trend.obs "."
                              :: Trend.obs "-1.0" :: nil))
                      (Trend.obs "-2.0") (Trend.obs "-1.0") nil eq_refl)
                   (-2)%Q (-1)%Q eq_refl eq_refl _)))) _ _).
  - vm_compute. discriminate.
  - reflexivity.
  - vm_compute. discriminate.
Defined.

(* ===================================================================== *)
(** ** Industry context                                                   *)
(* ===================================================================== *)

Section ContextExtras.
Import Indicators Context.
Variable parseFloat : jsval -> jsnum.

Lemma context_callback (key seriesId : string) (fetched : completion response) :
  readable fetched ->
  exists r,
    seriesCallback parseFloat key seriesId fetched = Fulfilled r
    /\ sr_key r = key
    /\ (if not_null (sr_value r) then Some (entry_of r) else None)
       = contribution parseFloat seriesId fetched.
Proof.
  unfold readable, seriesCallback, contribution, caught.
  destruct fetched as [response | e].
  - destruct (ok response); cbn [negb].
    + destruct (body response) as [d | e].
      * intros _. cbv zeta. eexists. split; [reflexivity |].
        split; [reflexivity |]. cbn [sr_value].
        destruct (truthy (latestValue _)); reflexivity.
      * intros H. destruct (H eq_refl) as [message ->].
        eexists. repeat split.
    + intros _. eexists. repeat split.
  - intros [message ->]. eexists. repeat split.
Qed.

(** The [reduce] over results with distinct keys. *)
Lemma context_collect (results : list seriesResult)
    (acc : gmap string entry) (key : string) :
  List.NoDup (map sr_key results) ->
  fold_left
    (fun acc result =>
       if not_null (sr_value result)
       then <[sr_key result := entry_of result]> acc
       else acc)
    results acc !! key
  = match List.find (fun r => String.eqb (sr_key r) key) results with
    | Some r =>
        if not_null (sr_value r) then Some (entry_of r) else acc !! key
    | None => acc !! key
    end.
Proof.
  revert acc. induction results as [| r results IH]; intros acc Hnd;
    [reflexivity |].
  inversion Hnd as [| ? ? Hnotin Hnd']; subst.
  cbn [fold_left List.find]. rewrite (IH _ Hnd').
  destruct (String.eqb_spec (sr_key r) key) as [Heq | Hne].
  - subst key.
    assert (Hnone : List.find (fun r0 => String.eqb (sr_key r0) (sr_key r))
                              results = None).
    { destruct (List.find _ results) as [r' |] eqn:Hf; [| reflexivity].
      apply List.find_some in Hf as [Hin Heq].
      apply String.eqb_eq in Heq. destruct Hnotin. rewrite <- Heq.
      now apply in_map. }
    rewrite Hnone. destruct (not_null (sr_value r)); [| reflexivity].
    apply lookup_insert_eq.
  - destruct (not_null (sr_value r)); [| reflexivity].
    rewrite lookup_insert_ne by exact Hne. reflexivity.
Qed.

(** X29: the industry context after a cache miss.  A series whose
    request throws, is refused by the server, or whose body cannot be
    read does not fail the whole context: as long as what is thrown has
    a readable message, the result carries no error and lists each of
    the five series unless it answered without a usable observation of
    truthy value; a failed series is listed with an undefined value and
    no trend, an answered one with the trend of its first four
    observations. *)
Theorem X29_context_listing (fetched : string -> completion response)
    (now : string) :
  (forall key seriesId,
     In (key, seriesId) INSURANCE_INDUSTRY_SERIES -> readable (fetched seriesId)) ->
  exists o,
    fetchIndustryContext parseFloat fetched now = Fulfilled o
    /\ error o = None
    /\ forall key seriesId,
         In (key, seriesId) INSURANCE_INDUSTRY_SERIES ->
         context o !! key = contribution parseFloat seriesId (fetched seriesId).
Proof.
  intros Hread. unfold fetchIndustryContext.
  assert (Hall : forall series,
            incl series INSURANCE_INDUSTRY_SERIES ->
            exists results,
              Batch.Promise_all
                (map (fun s => seriesCallback parseFloat (fst s) (snd s)
                                              (fetched (snd s))) series)
              = Fulfilled results
              /\ map sr_key results = map fst series
              /\ forall key seriesId,
                   In (key, seriesId) series ->
                   exists r, In r results /\ sr_key r = key
                     /\ (if not_null (sr_value r) then Some (entry_of r)
                         else None)
                        = contribution parseFloat seriesId (fetched seriesId)).
  { induction series as [| [k id] series IH]; intros Hincl.
    - exists nil. repeat split. intros ? ? [].
    - destruct IH as (results & Hrun & Hkeys & Hfrom).
      { intros x Hx. apply Hincl. now right. }
      destruct (context_callback k id (fetched id)) as (r & Hcb & Hk & Hc).
      { apply (Hread k id). apply Hincl. now left. }
      exists (r :: results). cbn [map Batch.Promise_all fst snd].
      rewrite Hcb, Hrun. split; [reflexivity |].
      split; [cbn; now rewrite Hk, Hkeys |].
      intros key seriesId [[= <- <-] | Hin].
      + exists r. repeat split; [now left | exact Hk | exact Hc].
      + destruct (Hfrom key seriesId Hin) as (r' & Hin' & Hk' & Hc').
        exists r'. repeat split; [now right | exact Hk' | exact Hc']. }
  destruct (Hall INSURANCE_INDUSTRY_SERIES (incl_refl _))
    as (results & -> & Hkeys & Hfrom).
  eexists. split; [reflexivity |]. split; [reflexivity |].
  intros key seriesId Hin. cbn [context]. unfold collect.
  assert (Hnd : List.NoDup (map sr_key results)).
  { rewrite Hkeys. cbn. repeat constructor; cbn; intuition discriminate. }
  rewrite (context_collect results ∅ key Hnd).
  destruct (Hfrom key seriesId Hin) as (r & Hinr & Hk & Hc).
  assert (Hfind : List.find (fun r0 => String.eqb (sr_key r0) key) results
                  = Some r).
  { clear - Hnd Hinr Hk. induction results as [| r0 results IH];
      [destruct Hinr |].
    inversion Hnd as [| ? ? Hnotin Hnd']; subst. cbn [List.find].
    destruct Hinr as [-> | Hinr].
    - now rewrite String.eqb_refl.
    - destruct (String.eqb_spec (sr_key r0) (sr_key r)) as [Heq | _].
      + destruct Hnotin. rewrite Heq. now apply in_map.
      + exact (IH Hnd' Hinr). }
  rewrite Hfind, lookup_empty. exact Hc.
Qed.

End ContextExtras.

Lemma X29_context_listing_witness :
  exists o,
    Context.fetchIndustryContext Trend.sample_parse Context.sample_fetched
      "now" = Fulfilled o
    /\ Context.context o !! "INFLATION"
       = Some {| Context.e_value := JUndefined; Context.e_date := JUndefined;
                 Context.e_trend := None; Context.e_seriesId := None |}
    /\ option_map Context.e_trend (Context.context o !! "UNEMPLOYMENT")
       = Some (Some "up").
Proof.
  destruct (X29_context_listing Trend.sample_parse Context.sample_fetched "now")
    as (o & Hrun & _ & Hctx).
  { intros key seriesId Hin. cbn in Hin.
    destruct Hin as [[= <- <-] | [[= <- <-] | [[= <- <-] | [[= <- <-]
                    | [[= <- <-] | []]]]]]; cbn; eauto. }
  exists o. split; [exact Hrun |]. split.
  - rewrite (Hctx "INFLATION" "CPIAUCSL"); [reflexivity |].
    cbn. tauto.
  - rewrite (Hctx "UNEMPLOYMENT" "UNRATE"); [reflexivity |].
    cbn. tauto.
Defined.
